(** * OpenRouter CLI: the chat core, embedded and verified

    A shallow embedding of the TypeScript sources of the terminal client:
    the message log and its per-model views ([chat.ts],
    [parallel-chat.ts], [components/ChatInterface.tsx]), the transport
    client ([api.ts]: [makeRequest], [getModels], [streamChat]), the
    model directory ([models.ts]), the key obfuscation and text
    helpers ([utils.ts]), the configuration store ([config.ts]), the
    prompt templates ([templates.ts]), the conversation importer
    ([export.ts]), the batch processor's constructor ([batch.ts]) and
    the command actions that tie them together ([index.ts]).

    Conventions.  A JavaScript string is a [string]; an optional field
    ([model?: string]) is an [option]; a JavaScript object used as a
    dictionary is a [gmap string _]; a call that may throw returns a
    sum, the exception on the left.  Asynchronous code is modelled by
    the sequence of events the event loop delivers to it.

    The first part of the file is the embedding, the second part the
    properties proved of it. *)

From Stdlib Require Import ZArith QArith Ascii String List Permutation Btauto.
From stdpp Require Import gmap strings list fin_maps pretty.

Local Open Scope string_scope.
Local Open Scope list_scope.

(** * Part I: the embedding *)

(** ** Types ([types/index.ts]) *)

Inductive Role := user | assistant | system.

Global Instance Role_eq_dec : EqDecision Role.
Proof. solve_decision. Defined.

Module ChatMessage.
(** [interface ChatMessage { role; content; model?; name? }] *)
Record t := mk {
  role : Role;
  content : string;
  model : option string;
  name : option string
}.

Global Instance eq_dec : EqDecision t.
Proof. solve_decision. Defined.
End ChatMessage.

(** The object literal [{ role: 'user', content }]. *)
Definition userMessage (content : string) : ChatMessage.t :=
  ChatMessage.mk user content None None.

(** The object literal [{ role: 'assistant', content, model }]. *)
Definition assistantMessage (content model : string) : ChatMessage.t :=
  ChatMessage.mk assistant content (Some model) None.

Module Profile.
(** [interface Profile { models; temperature; maxTokens }] *)
Record t := mk {
  models : list string;
  temperature : Q;
  maxTokens : Z
}.
End Profile.

Module ChatOptions.
(** [interface ChatOptions { temperature?; maxTokens?; stream? }] *)
Record t := mk {
  temperature : option Q;
  maxTokens : option Z;
  stream : option bool
}.
End ChatOptions.

(** ** Per-model views of the conversation *)

(** The predicate of the [filter] call in [chat.ts] and
    [parallel-chat.ts]:
    [msg => msg.role !== 'assistant' || msg.model === model]. *)
Definition keptFor (model : string) (msg : ChatMessage.t) : Prop :=
  ChatMessage.role msg ≠ assistant ∨ ChatMessage.model msg = Some model.

Global Instance keptFor_dec model msg : Decision (keptFor model msg).
Proof. unfold keptFor. apply _. Defined.

(** [const conversationForModel = this.conversation.filter(...)]
    ([ChatInterface.streamModelResponse], [ParallelChatInterface.sendMessage]). *)
Definition conversationForModel
    (conversation : list ChatMessage.t) (model : string) : list ChatMessage.t :=
  filter (keptFor model) conversation.

Module Ink.
(** The callback of [conversation.forEach] in
    [components/ChatInterface.tsx]: a user message is pushed, an
    assistant message is pushed when its model is this one, anything
    else is left out. *)
Definition pushIfVisible (model : string)
    (conversationForModel : list ChatMessage.t) (msg : ChatMessage.t)
    : list ChatMessage.t :=
  match ChatMessage.role msg with
  | user => conversationForModel ++ [msg]
  | assistant =>
      if decide (ChatMessage.model msg = Some model)
      then conversationForModel ++ [msg]
      else conversationForModel
  | system => conversationForModel
  end.

(** [conversationForModel] as [sendMessage] builds it: the history
    pass, then [push({ role: 'user', content: message })]. *)
Definition conversationForModel
    (conversation : list ChatMessage.t) (message model : string)
    : list ChatMessage.t :=
  foldl (pushIfVisible model) [] conversation ++ [userMessage message].

(** What the history pass keeps, as a predicate. *)
Definition visibleTo (model : string) (msg : ChatMessage.t) : Prop :=
  ChatMessage.role msg = user ∨
  (ChatMessage.role msg = assistant ∧ ChatMessage.model msg = Some model).

Global Instance visibleTo_dec model msg : Decision (visibleTo model msg).
Proof. unfold visibleTo. apply _. Defined.
End Ink.

(** Selectors used to state what a view contains. *)
Definition isAssistant (msg : ChatMessage.t) : Prop :=
  ChatMessage.role msg = assistant.

Definition notAssistant (msg : ChatMessage.t) : Prop :=
  ChatMessage.role msg ≠ assistant.

Definition isUser (msg : ChatMessage.t) : Prop :=
  ChatMessage.role msg = user.

Definition isSystem (msg : ChatMessage.t) : Prop :=
  ChatMessage.role msg = system.

Definition ownReply (model : string) (msg : ChatMessage.t) : Prop :=
  ChatMessage.role msg = assistant ∧ ChatMessage.model msg = Some model.

(** A reply attributed to some other model than [model]. *)
Definition foreignReply (model : string) (msg : ChatMessage.t) : Prop :=
  ChatMessage.role msg = assistant ∧ ChatMessage.model msg ≠ Some model.

Global Instance isAssistant_dec msg : Decision (isAssistant msg).
Proof. unfold isAssistant. apply _. Defined.

Global Instance notAssistant_dec msg : Decision (notAssistant msg).
Proof. unfold notAssistant. apply _. Defined.

Global Instance isUser_dec msg : Decision (isUser msg).
Proof. unfold isUser. apply _. Defined.

Global Instance isSystem_dec msg : Decision (isSystem msg).
Proof. unfold isSystem. apply _. Defined.

Global Instance ownReply_dec model msg : Decision (ownReply model msg).
Proof. unfold ownReply. apply _. Defined.

Global Instance foreignReply_dec model msg : Decision (foreignReply model msg).
Proof. unfold foreignReply. apply _. Defined.

(** ** JavaScript values used by the transport client *)

(** [Error] objects: only the message is ever read. *)
Module Error.
Record t := mk { message : string }.

Global Instance eq_dec : EqDecision t.
Proof. solve_decision. Defined.
End Error.

(** The numbers the retry loop computes: integers, or [NaN] when
    [parseInt] finds no digit.  (Integers are kept exact; a JavaScript
    number rounds them above 2^53.) *)
Inductive number := Num (z : Z) | NaN.

Global Instance number_eq_dec : EqDecision number.
Proof. solve_decision. Defined.

Definition number_mul (a b : number) : number :=
  match a, b with Num x, Num y => Num (x * y) | _, _ => NaN end.

Definition number_add (a b : number) : number :=
  match a, b with Num x, Num y => Num (x + y) | _, _ => NaN end.

(** White space, on ASCII input: what [parseInt] skips and [trim]
    removes. *)
Definition isWhiteSpace (c : ascii) : bool :=
  bool_decide (nat_of_ascii c ∈ [9; 10; 11; 12; 13; 32]%nat).

Fixpoint trimStart (s : string) : string :=
  match s with
  | String c s' => if isWhiteSpace c then trimStart s' else s
  | EmptyString => EmptyString
  end.

(** The value of a character as a digit, in any radix up to 36. *)
Definition digitValue (c : ascii) : option Z :=
  let n := Z.of_nat (nat_of_ascii c) in
  if (48 <=? n)%Z && (n <=? 57)%Z then Some (n - 48)%Z
  else if (97 <=? n)%Z && (n <=? 122)%Z then Some (n - 87)%Z
  else if (65 <=? n)%Z && (n <=? 90)%Z then Some (n - 55)%Z
  else None.

(** The longest prefix of digits of the radix, as a number; [None]
    when it is empty. *)
Fixpoint leadingDigits (radix : Z) (s : string) (acc : option Z) : option Z :=
  match s with
  | String c s' =>
      match digitValue c with
      | Some d =>
          if (d <? radix)%Z
          then leadingDigits radix s' (Some (default 0 acc * radix + d))%Z
          else acc
      | None => acc
      end
  | EmptyString => acc
  end.

(** [parseInt(string)]: leading white space, a sign, a [0x] prefix,
    then digits; [NaN] without a digit. *)
Definition parseInt (s : string) : number :=
  let s := trimStart s in
  let '(sign, s) :=
    match s with
    | String "-"%char s' => ((-1)%Z, s')
    | String "+"%char s' => (1%Z, s')
    | _ => (1%Z, s)
    end in
  let '(radix, s) :=
    match s with
    | String "0"%char (String "x"%char s') => (16%Z, s')
    | String "0"%char (String "X"%char s') => (16%Z, s')
    | _ => (10%Z, s)
    end in
  match leadingDigits radix s None with
  | Some n => Num (sign * n)
  | None => NaN
  end.

(** ** The transport client ([api.ts]) *)

Module Response.
(** What [makeRequest] reads of a [fetch] response: [status], the
    [Retry-After] header ([headers.get] gives [null] when absent),
    the body as text, and the body decoded by [json()], which rejects
    on a body that is not JSON. *)
Record t (T : Type) := mk {
  status : Z;
  retryAfter : option string;
  text : string;
  json : Error.t + T
}.
Arguments mk {T}.
Arguments status {T}.
Arguments retryAfter {T}.
Arguments text {T}.
Arguments json {T}.

(** [response.ok]: the status is in 200..299. *)
Definition ok {T} (r : t T) : bool :=
  (200 <=? status r)%Z && (status r <=? 299)%Z.
End Response.

(** [await fetch(url, ...)] resolves to a response or rejects. *)
Inductive FetchResult (T : Type) :=
  | Rejected (e : Error.t)
  | Resolved (r : Response.t T).
Arguments Rejected {T}.
Arguments Resolved {T}.

(** What a call does to the outside: HTTP attempts and waits. *)
Inductive Effect :=
  | Fetch (attempt : nat)
  | Delay (delayMs : number).

Global Instance Effect_eq_dec : EqDecision Effect.
Proof. solve_decision. Defined.

Definition isFetch (e : Effect) : bool :=
  match e with Fetch _ => true | Delay _ => false end.

(** The number of HTTP attempts in a trace. *)
Definition attempts (trace : list Effect) : nat :=
  length (List.filter isFetch trace).

(** The waits of a trace, in order, and their sum. *)
Definition waits (trace : list Effect) : list number :=
  omap (λ e, match e with Delay d => Some d | Fetch _ => None end) trace.

Definition totalWait (trace : list Effect) : number :=
  foldr number_add (Num 0) (waits trace).

Definition MAX_RETRIES : nat := 3.

Definition INITIAL_RETRY_DELAY : Z := 1000.

(** [INITIAL_RETRY_DELAY * Math.pow(2, attempt)] *)
Definition backoffDelay (attempt : nat) : number :=
  Num (INITIAL_RETRY_DELAY * 2 ^ Z.of_nat attempt).

(** The delay of the 429 branch:
    [retryAfter ? parseInt(retryAfter) * 1000 : INITIAL_RETRY_DELAY * Math.pow(2, attempt)];
    an empty header value is falsy. *)
Definition rateLimitDelay (retryAfter : option string) (attempt : nat) : number :=
  match retryAfter with
  | Some value =>
      if decide (value = "") then backoffDelay attempt
      else number_mul (parseInt value) (Num 1000)
  | None => backoffDelay attempt
  end.

(** The error of the [!response.ok] branch:
    [new Error(`API Error (${response.status}): ${error}`)]. *)
Definition apiError (status : Z) (body : string) : Error.t :=
  Error.mk ("API Error (" +:+ pretty status +:+ "): " +:+ body).

(** A response that is neither 2xx nor 429. *)
Definition rejectedStatus {T} (r : Response.t T) : Prop :=
  Response.ok r = false ∧ Response.status r ≠ 429%Z.

Section makeRequest.
Context {T : Type}.
(** The transport: what the [attempt]-th call of [fetch] gives (the
    loop calls [fetch] once per attempt). *)
Variable fetch : nat → FetchResult T.

(** The [for] loop of [makeRequest], from iteration [attempt] on;
    [remaining] is [MAX_RETRIES - attempt].  It returns what the
    method returns ([inr]) or throws ([inl]), with the trace. *)
Fixpoint retryLoop (remaining attempt : nat) (lastError : option Error.t)
    (trace : list Effect) : (Error.t + T) * list Effect :=
  match remaining with
  | O =>
      (* throw lastError || new Error('Request failed after maximum retries') *)
      (inl (default (Error.mk "Request failed after maximum retries") lastError),
       trace)
  | S remaining' =>
      let trace := trace ++ [Fetch attempt] in
      (* the catch clause *)
      let caught (error : Error.t) :=
        if decide (attempt < MAX_RETRIES - 1)%nat
        then retryLoop remaining' (S attempt) (Some error)
               (trace ++ [Delay (backoffDelay attempt)])
        else retryLoop remaining' (S attempt) (Some error) trace in
      match fetch attempt with
      | Rejected error => caught error
      | Resolved response =>
          if decide (Response.status response = 429%Z) then
            (* await delay(delayMs); continue *)
            retryLoop remaining' (S attempt) lastError
              (trace ++ [Delay (rateLimitDelay (Response.retryAfter response) attempt)])
          else if negb (Response.ok response) then
            caught (apiError (Response.status response) (Response.text response))
          else
            match Response.json response with
            | inr value => (inr value, trace)
            | inl error => caught error
            end
      end
  end.

Definition makeRequest : (Error.t + T) * list Effect :=
  retryLoop MAX_RETRIES 0 None [].
End makeRequest.

(** A transport given by the results of its first calls, then a
    result for every later call. *)
Definition scripted {T} (first : list (FetchResult T)) (later : FetchResult T)
    : nat → FetchResult T :=
  λ attempt, default later (first !! attempt).

(** *** [getModels] *)

Module Model.
(** [interface Model]: the fields the directory reads. *)
Record t := mk {
  id : string;
  name : option string;
  description : option string;
  context_length : option Z
}.
End Model.

Module ModelsResponse.
(** The body of [GET /models]: [{ data: Model[] }], [data] possibly
    missing. *)
Record t := mk { data : option (list Model.t) }.
End ModelsResponse.

(** [getModels]: [return response.data || []] in the [try] block, and
    [console.error(...); return []] in the [catch] clause.  The result
    type keeps a place for a thrown error, as for every method. *)
Definition getModels (fetch : nat → FetchResult ModelsResponse.t)
    : (Error.t + list Model.t) * list Effect :=
  match makeRequest fetch with
  | (inr response, trace) => (inr (default [] (ModelsResponse.data response)), trace)
  | (inl error, trace) => (inr [], trace)
  end.

(** ** The model directory ([models.ts]) *)

Module ModelManager.
(** The fields [models] and [lastFetch] ([number | null]). *)
Record t := mk {
  models : list Model.t;
  lastFetch : option Z
}.

(** [private models: Model[] = []; private lastFetch: number | null = null] *)
Definition initial : t := mk [] None.

Definition cacheTimeout : Z := 300000.

(** The guard of [fetchModels], [force] apart:
    [this.lastFetch && Date.now() - this.lastFetch < this.cacheTimeout];
    [null] and [0] are falsy. *)
Definition cacheIsFresh (self : t) (now : Z) : bool :=
  match lastFetch self with
  | Some fetchedAt => negb (fetchedAt =? 0)%Z && (now - fetchedAt <? cacheTimeout)%Z
  | None => false
  end.

(** [fetchModels(force)].  [now] is what [Date.now()] gives in the
    guard, [fetchedAt] what it gives after the fetch.  The result is
    the returned list or the thrown error, the manager after the call,
    and the trace of the transport. *)
Definition fetchModels (self : t) (force : bool) (now fetchedAt : Z)
    (fetch : nat → FetchResult ModelsResponse.t)
    : (Error.t + list Model.t) * t * list Effect :=
  if negb force && cacheIsFresh self now then (inr (models self), self, [])
  else
    match getModels fetch with
    | (inr fetched, trace) => (inr fetched, mk fetched (Some fetchedAt), trace)
    | (inl error, trace) => (inl error, self, trace)   (* catch: throw error *)
    end.
End ModelManager.

(** ** The streaming request ([streamChat]) *)

Module RequestBody.
(** The object [streamChat] passes to [JSON.stringify]. *)
Record t := mk {
  model : string;
  messages : list ChatMessage.t;
  temperature : Q;
  max_tokens : Z;
  stream : bool
}.
End RequestBody.

(** [options.temperature || 0.7]: [undefined] and [0] are falsy. *)
Definition temperatureOrDefault (temperature : option Q) : Q :=
  match temperature with
  | Some t => if Qeq_bool t 0 then 7 # 10 else t
  | None => 7 # 10
  end.

(** [options.maxTokens || 4000] *)
Definition maxTokensOrDefault (maxTokens : option Z) : Z :=
  match maxTokens with
  | Some n => if (n =? 0)%Z then 4000%Z else n
  | None => 4000%Z
  end.

(** The [body] of [streamChat(messages, model, options)]. *)
Definition streamChatBody (messages : list ChatMessage.t) (model : string)
    (options : ChatOptions.t) : RequestBody.t :=
  {| RequestBody.model := model;
     RequestBody.messages := messages;
     RequestBody.temperature := temperatureOrDefault (ChatOptions.temperature options);
     RequestBody.max_tokens := maxTokensOrDefault (ChatOptions.maxTokens options);
     RequestBody.stream := true |}.

(** The options every engine passes:
    [{ temperature: profile.temperature, maxTokens: profile.maxTokens, stream: true }]. *)
Definition profileOptions (profile : Profile.t) : ChatOptions.t :=
  {| ChatOptions.temperature := Some (Profile.temperature profile);
     ChatOptions.maxTokens := Some (Profile.maxTokens profile);
     ChatOptions.stream := Some true |}.

(** *** Strings of the event stream *)

Definition newline : ascii := ascii_of_nat 10.

(** [s.split('\n')]: never empty. *)
Fixpoint splitLines (s : string) : list string :=
  match s with
  | EmptyString => [EmptyString]
  | String c s' =>
      if decide (c = newline) then EmptyString :: splitLines s'
      else match splitLines s' with
           | line :: lines => String c line :: lines
           | [] => [String c EmptyString]
           end
  end.

(** A string without line feed: a single line. *)
Fixpoint freeOfNewline (s : string) : bool :=
  match s with
  | EmptyString => true
  | String c s' => negb (bool_decide (c = newline)) && freeOfNewline s'
  end.


(** The text a body delivers, whatever its cut into chunks. *)
Definition textOf (chunks : list string) : string :=
  foldr String.append "" chunks.

(** [line.trim() === '']: only white space. *)
Fixpoint isBlank (s : string) : bool :=
  match s with
  | EmptyString => true
  | String c s' => isWhiteSpace c && isBlank s'
  end.

(** [s.startsWith(prefix)] *)
Definition startsWith (s prefix : string) : bool := String.prefix prefix s.

(** [s.slice(n)], for [n] within the string or past its end. *)
Fixpoint slice (s : string) (n : nat) {struct n} : string :=
  match n with
  | O => s
  | S n' =>
      match s with
      | String _ s' => slice s' n'
      | EmptyString => EmptyString
      end
  end.

(** *** Stream fragments *)

Module Delta.
(** [delta: { role?; content? }] *)
Record t := mk { content : option string }.
End Delta.

Module Choice.
(** An element of [choices]; the code tests [delta] before use. *)
Record t := mk { delta : option Delta.t }.
End Choice.

Module StreamChunk.
(** [interface StreamChunk]; the code tests [choices] before use. *)
Record t := mk { choices : option (list Choice.t) }.
End StreamChunk.

(** What the body of the [for] loop over lines does with one line. *)
Inductive LineAction :=
  | Ignore                    (* blank, comment, other field, no content *)
  | Finish                    (* data: [DONE] : return *)
  | Yield (content : string)  (* yield content *)
  | ParseFailure.             (* catch (e): console.error(...) *)

Module Body.
(** A response body as its reader delivers it: the decoded chunks of
    successive [read()] calls, then [done], or a rejected [read()]
    when the connection fails. *)
Record t := mk {
  chunks : list string;
  failure : option Error.t
}.
End Body.

Module StreamResponse.
(** What [streamChat] reads of its response. *)
Record t := mk {
  status : Z;
  text : string;
  body : option Body.t
}.

Definition ok (r : t) : bool := (200 <=? status r)%Z && (status r <=? 299)%Z.
End StreamResponse.

(** How a generator ends: it returns, or it throws. *)
Inductive Ending := Returned | Threw (e : Error.t).

Module Stream.
(** What the consumer of an async generator observes: the values
    yielded, in order, then the ending. *)
Record t := mk {
  yielded : list string;
  ending : Ending
}.
End Stream.

Section streamChat.
(** [JSON.parse(data) as StreamChunk]: [None] when the [try] block
    throws (text that is not JSON, or JSON [null], whose property
    access throws).  Fragments are read at the declared type
    [StreamChunk]. *)
Variable JSON_parse : string → option StreamChunk.t.

(** The body of [for (const line of lines)]. *)
Definition handleLine (line : string) : LineAction :=
  if isBlank line then Ignore
  else if startsWith line ": " then Ignore
  else if startsWith line "data: " then
    let data := slice line 6 in
    if decide (data = "[DONE]") then Finish
    else
      match JSON_parse data with
      | None => ParseFailure
      | Some chunk =>
          match StreamChunk.choices chunk with
          | Some (choice :: _) =>
              match Choice.delta choice with
              | Some delta =>
                  match Delta.content delta with
                  | Some content =>
                      if decide (content = "") then Ignore else Yield content
                  | None => Ignore
                  end
              | None => Ignore
              end
          | _ => Ignore
          end
      end
  else Ignore.

(** [for (const line of lines) { ... }]: the values yielded, and
    whether the loop left the generator by [return]. *)
Fixpoint forLines (lines : list string) : list string * bool :=
  match lines with
  | [] => ([], false)
  | line :: lines' =>
      match handleLine line with
      | Finish => ([], true)
      | Yield content =>
          let '(yielded, returned) := forLines lines' in
          (content :: yielded, returned)
      | Ignore | ParseFailure => forLines lines'
      end
  end.

(** [while (true) { read; split; pop; for ... }] over the chunks still
    to come, with the current [buffer]. *)
Fixpoint readLoop (chunks : list string) (failure : option Error.t)
    (buffer : string) : Stream.t :=
  match chunks with
  | [] =>
      match failure with
      | None => Stream.mk [] Returned          (* done: break *)
      | Some e => Stream.mk [] (Threw e)        (* read() rejects *)
      end
  | value :: chunks' =>
      let lines := splitLines (buffer +:+ value) in
      (* buffer = lines.pop() || '' *)
      let buffer' := List.last lines EmptyString in
      let '(yielded, returned) := forLines (removelast lines) in
      if returned then Stream.mk yielded Returned
      else
        let rest := readLoop chunks' failure buffer' in
        Stream.mk (yielded ++ Stream.yielded rest) (Stream.ending rest)
  end.

(** [streamChat], given what its one [fetch] call resolves to. *)
Definition streamChat (fetched : Error.t + StreamResponse.t) : Stream.t :=
  match fetched with
  | inl e => Stream.mk [] (Threw e)
  | inr response =>
      if negb (StreamResponse.ok response) then
        Stream.mk []
          (Threw (apiError (StreamResponse.status response)
                           (StreamResponse.text response)))
      else
        match StreamResponse.body response with
        | None => Stream.mk [] (Threw (Error.mk "No response body"))
        | Some body => readLoop (Body.chunks body) (Body.failure body) EmptyString
        end
  end.
End streamChat.

(** *** Data lines and the tokens they carry *)

(** A [data:] line of the event stream. *)
Definition dataLine (payload : string) : string := "data: " +:+ payload.

(** The token a decoded fragment carries: [choices[0].delta.content]
    when it is there and not empty. *)
Definition chunkToken (chunk : StreamChunk.t) : option string :=
  choices ← StreamChunk.choices chunk;
  choice ← head choices;
  delta ← Choice.delta choice;
  content ← Delta.content delta;
  if decide (content = "") then None else Some content.

(** A decoder for fragments of one shape,
    [{"choices":[{"delta":{"content":"..."}}]}], to run the model on
    sample streams. *)
Definition doubleQuote : ascii := ascii_of_nat 34.

Definition quoted (s : string) : string :=
  String doubleQuote s +:+ String doubleQuote "".

Definition sampleFragmentPrefix : string :=
  "{" +:+ quoted "choices" +:+ ":[{" +:+ quoted "delta" +:+ ":{" +:+
  quoted "content" +:+ ":" +:+ String doubleQuote "".

Definition sampleFragmentSuffix : string := String doubleQuote "}}]}".


Fixpoint untilQuote (s : string) : string * string :=
  match s with
  | EmptyString => (EmptyString, EmptyString)
  | String c s' =>
      if decide (c = doubleQuote) then (EmptyString, s)
      else let '(before, rest) := untilQuote s' in (String c before, rest)
  end.

Definition sampleParse (data : string) : option StreamChunk.t :=
  if startsWith data sampleFragmentPrefix then
    let '(content, rest) :=
      untilQuote (slice data (String.length sampleFragmentPrefix)) in
    if decide (rest = sampleFragmentSuffix)
    then Some (StreamChunk.mk (Some [Choice.mk (Some (Delta.mk (Some content)))]))
    else None
  else None.

(** ** The requests the engines open *)

(** The request [streamModelResponse] ([chat.ts]) and the tasks of
    [sendMessage] ([parallel-chat.ts]) open for [model]: the
    per-model view, the model, and the profile's settings. *)
Definition requestFor (profile : Profile.t) (conversation : list ChatMessage.t)
    (model : string) : RequestBody.t :=
  streamChatBody (conversationForModel conversation model) model
    (profileOptions profile).

(** A resolved profile as the spec describes it: temperature in [0,2],
    positive [maxTokens]. *)
Definition validProfile (profile : Profile.t) : Prop :=
  (0 <= Profile.temperature profile)%Q ∧ (Profile.temperature profile <= 2)%Q ∧
  (0 < Profile.maxTokens profile)%Z.

(** ** The sequential engine ([chat.ts]) *)

(** [let fullResponse = ''; for await (const chunk of stream) fullResponse += chunk] *)
Definition accumulate (fullResponse : string) (chunks : list string) : string :=
  foldl String.append fullResponse chunks.

Module Chat.
(** [streamModelResponse(model)], given what the stream of the request
    delivers: the conversation afterwards.  The [catch] clause prints
    the error and pushes nothing. *)
Definition streamModelResponse (conversation : list ChatMessage.t)
    (model : string) (stream : Stream.t) : list ChatMessage.t :=
  match Stream.ending stream with
  | Returned =>
      conversation ++ [assistantMessage (accumulate "" (Stream.yielded stream)) model]
  | Threw _ => conversation
  end.

(** [sendMessage(content)]: the user message, then the active models
    one after the other, each with the stream of its request. *)
Definition sendMessage (conversation : list ChatMessage.t) (content : string)
    (streams : list (string * Stream.t)) : list ChatMessage.t :=
  foldl (λ conversation '(model, stream),
           streamModelResponse conversation model stream)
    (conversation ++ [userMessage content]) streams.
End Chat.

(** ** The parallel engine ([parallel-chat.ts]) *)

Module Outcome.
(** What the promise of a task resolves to:
    [{ model, content }] or [{ model, content: '', error }]. *)
Record t := mk {
  model : string;
  content : string;
  error : option string
}.
End Outcome.

Module Task.
(** One call of the async callback of [activeModels.map]: its local
    [fullResponse], and its promise once settled. *)
Record t := mk {
  fullResponse : string;
  settled : option Outcome.t
}.
End Task.

(** What the event loop delivers to a task: a chunk of its stream to
    the body of its [for await], the end of its stream, or the error
    its stream throws.  An event names the task (its index in
    [activeModels]) and the [model] the callback was called with. *)
Inductive Event :=
  | Chunk (task : nat) (model : string) (chunk : string)
  | Closed (task : nat) (model : string)
  | Failed (task : nat) (model : string) (message : string).

Definition eventTask (e : Event) : nat :=
  match e with Chunk i _ _ | Closed i _ | Failed i _ _ => i end.

(** The events of one task, in their order: the chunks its stream
    yields, then its ending. *)
Definition taskEvents (task : nat) (model : string) (stream : Stream.t)
    : list Event :=
  map (Chunk task model) (Stream.yielded stream) ++
  [match Stream.ending stream with
   | Returned => Closed task model
   | Threw e => Failed task model (Error.message e)
   end].

(** The ways two tasks' events can be delivered: each task's events
    in their order, the two sequences interleaved anyhow. *)
Inductive interleave {A : Type} : list A → list A → list A → Prop :=
  | interleave_nil : interleave [] [] []
  | interleave_l x l1 l2 l : interleave l1 l2 l → interleave (x :: l1) l2 (x :: l)
  | interleave_r x l1 l2 l : interleave l1 l2 l → interleave l1 (x :: l2) (x :: l).

Module ParallelChat.
(** The state [sendMessage] works on: [this.conversation], the local
    dictionaries [responses] and [streamingState], the tasks, and the
    requests opened when the tasks were created. *)
Record t := mk {
  conversation : list ChatMessage.t;
  responses : gmap string string;
  streamingState : gmap string bool;
  tasks : list Task.t;
  requests : list RequestBody.t
}.

(** [sendMessage(content)] up to [Promise.all]: the user message is
    pushed, the dictionaries are initialised, and each callback runs
    up to its first suspension: it has built its view and opened its
    request. *)
Definition start (conversation : list ChatMessage.t) (profile : Profile.t)
    (activeModels : list string) (content : string) : t :=
  let conversation := conversation ++ [userMessage content] in
  {| conversation := conversation;
     responses := foldl (λ responses model, <[model := ""]> responses) ∅ activeModels;
     streamingState :=
       foldl (λ streamingState model, <[model := true]> streamingState) ∅ activeModels;
     tasks := map (λ _, Task.mk "" None) activeModels;
     requests := map (requestFor profile conversation) activeModels |}.

(** One event, delivered to its task.  A task that has settled, or
    that does not exist, receives nothing. *)
Definition step (s : t) (e : Event) : t :=
  match tasks s !! eventTask e with
  | Some (Task.mk fullResponse None) =>
      match e with
      | Chunk i model chunk =>
          (* fullResponse += chunk; responses[model] = fullResponse *)
          let fullResponse := fullResponse +:+ chunk in
          {| conversation := conversation s;
             responses := <[model := fullResponse]> (responses s);
             streamingState := streamingState s;
             tasks := <[i := Task.mk fullResponse None]> (tasks s);
             requests := requests s |}
      | Closed i model =>
          (* streamingState[model] = false; this.conversation.push(...);
             return { model, content: fullResponse } *)
          {| conversation :=
               conversation s ++ [assistantMessage fullResponse model];
             responses := responses s;
             streamingState := <[model := false]> (streamingState s);
             tasks :=
               <[i := Task.mk fullResponse
                        (Some (Outcome.mk model fullResponse None))]> (tasks s);
             requests := requests s |}
      | Failed i model message =>
          (* streamingState[model] = false;
             return { model, content: '', error: message } *)
          {| conversation := conversation s;
             responses := responses s;
             streamingState := <[model := false]> (streamingState s);
             tasks :=
               <[i := Task.mk fullResponse
                        (Some (Outcome.mk model "" (Some message)))]> (tasks s);
             requests := requests s |}
      end
  | _ => s
  end.

(** The events of a schedule, delivered in order. *)
Definition run (s : t) (schedule : list Event) : t := foldl step s schedule.

(** [await Promise.all(promises)]: the outcomes, in the order of
    [activeModels], once every task has settled; nothing before. *)
Definition joined (s : t) : option (list Outcome.t) :=
  mapM Task.settled (tasks s).
End ParallelChat.

(** Events of two different tasks for two different models, not both
    the end of a stream. *)
Definition eventModel (e : Event) : string :=
  match e with Chunk _ m _ | Closed _ m | Failed _ m _ => m end.

Definition isClosed (e : Event) : bool :=
  match e with Closed _ _ => true | _ => false end.

Definition isChunk (e : Event) : bool :=
  match e with Chunk _ _ _ => true | _ => false end.

Definition independent (e1 e2 : Event) : Prop :=
  eventTask e1 ≠ eventTask e2 ∧ eventModel e1 ≠ eventModel e2 ∧
  (isClosed e1 && isClosed e2 = false).

(** What a task leaves behind, by the ending of its stream: the reply
    it pushes, and the entry its promise resolves to. *)
Definition taskReply (model : string) (stream : Stream.t) : list ChatMessage.t :=
  match Stream.ending stream with
  | Returned => [assistantMessage (textOf (Stream.yielded stream)) model]
  | Threw _ => []
  end.

Definition taskOutcome (model : string) (stream : Stream.t) : Outcome.t :=
  match Stream.ending stream with
  | Returned => Outcome.mk model (textOf (Stream.yielded stream)) None
  | Threw e => Outcome.mk model "" (Some (Error.message e))
  end.

(** The ends of streams in a schedule, in their order: the order in
    which the models complete. *)
Definition completions (schedule : list Event) : list Event :=
  List.filter isClosed schedule.

(** ** Key obfuscation ([utils.ts]) *)

(** Text is modelled by its UTF-8 encoding: a [string] is the sequence
    of bytes [cipher.update(text, 'utf8', ...)] reads and
    [decipher.update(..., 'utf8')] writes.  Bytes are [ascii]
    characters, eight bits each. *)
Definition xorByte (a b : ascii) : ascii :=
  let '(Ascii a0 a1 a2 a3 a4 a5 a6 a7) := a in
  let '(Ascii b0 b1 b2 b3 b4 b5 b6 b7) := b in
  Ascii (xorb a0 b0) (xorb a1 b1) (xorb a2 b2) (xorb a3 b3)
        (xorb a4 b4) (xorb a5 b5) (xorb a6 b6) (xorb a7 b7).

(** A cipher block: 16 bytes, as four columns of four. *)
Definition column : Type := ascii * ascii * ascii * ascii.

Definition block : Type := column * column * column * column.

Definition xorColumn (x y : column) : column :=
  let '(x0, x1, x2, x3) := x in
  let '(y0, y1, y2, y3) := y in
  (xorByte x0 y0, xorByte x1 y1, xorByte x2 y2, xorByte x3 y3).

Definition xorBlock (x y : block) : block :=
  let '(x0, x1, x2, x3) := x in
  let '(y0, y1, y2, y3) := y in
  (xorColumn x0 y0, xorColumn x1 y1, xorColumn x2 y2, xorColumn x3 y3).

(** [Buffer.alloc(16, 0)] *)
Definition zeroBlock : block :=
  let z := Ascii.zero in
  ((z, z, z, z), (z, z, z, z), (z, z, z, z), (z, z, z, z)).

Definition blockBytes (b : block) : list ascii :=
  let '((a0, a1, a2, a3), (a4, a5, a6, a7),
        (a8, a9, a10, a11), (a12, a13, a14, a15)) := b in
  [a0; a1; a2; a3; a4; a5; a6; a7; a8; a9; a10; a11; a12; a13; a14; a15].

(** The complete blocks at the front of a byte sequence, and the
    bytes that remain (fewer than 16). *)
Fixpoint takeBlocks (bytes : list ascii) : list block * list ascii :=
  match bytes with
  | a0 :: a1 :: a2 :: a3 :: a4 :: a5 :: a6 :: a7 ::
    a8 :: a9 :: a10 :: a11 :: a12 :: a13 :: a14 :: a15 :: rest =>
      let '(blocks, remainder) := takeBlocks rest in
      (((a0, a1, a2, a3), (a4, a5, a6, a7),
        (a8, a9, a10, a11), (a12, a13, a14, a15)) :: blocks, remainder)
  | _ => ([], bytes)
  end.

Definition blocksBytes (blocks : list block) : list ascii :=
  flat_map blockBytes blocks.

(** *** The [hex] encoding *)

Definition hexDigit (n : nat) : ascii :=
  default "0"%char (String.get n "0123456789abcdef").

Definition hexValue (c : ascii) : option nat :=
  let n := nat_of_ascii c in
  if (48 <=? n)%nat && (n <=? 57)%nat then Some (n - 48)%nat
  else if (97 <=? n)%nat && (n <=? 102)%nat then Some (n - 87)%nat
  else if (65 <=? n)%nat && (n <=? 70)%nat then Some (n - 55)%nat
  else None.

(** A buffer written as [hex]: two lower-case digits per byte. *)
Fixpoint hexEncode (bytes : list ascii) : string :=
  match bytes with
  | [] => EmptyString
  | b :: bytes' =>
      String (hexDigit (nat_of_ascii b / 16))
        (String (hexDigit (nat_of_ascii b mod 16)) (hexEncode bytes'))
  end.

(** A [hex] string read as bytes; decoding stops at the first pair
    that is not two hexadecimal digits. *)
Fixpoint hexDecode (s : string) : list ascii :=
  match s with
  | String h (String l s') =>
      match hexValue h, hexValue l with
      | Some x, Some y => ascii_of_nat (16 * x + y) :: hexDecode s'
      | _, _ => []
      end
  | _ => []
  end.

(** *** PKCS#7 padding *)

(** The bytes that complete a last, incomplete block. *)
Definition padding (pending : list ascii) : list ascii :=
  let n := 16 - length pending in replicate n (ascii_of_nat n).

(** The check of the last block of a deciphered text: its last byte
    [n] is between 1 and 16 and its last [n] bytes are all [n]. *)
Definition unpad (bytes : list ascii) : option (list ascii) :=
  match last bytes with
  | Some c =>
      let n := nat_of_ascii c in
      if (1 <=? n)%nat && (n <=? 16)%nat && (n <=? length bytes)%nat &&
         forallb (λ x, bool_decide (x = c)) (drop (length bytes - n) bytes)
      then Some (take (length bytes - n) bytes)
      else None
  | None => None
  end.

Section aes_256_cbc.
(** The block function of AES-256 and its inverse, under the key both
    [encrypt] and [decrypt] derive,
    [crypto.scryptSync(ENCRYPTION_KEY, 'salt', 32)]. *)
Variable aes256 : block → block.
Variable aes256_inverse : block → block.

(** CBC chaining: the ciphertext blocks and the last chaining value. *)
Fixpoint cbcEncrypt (chain : block) (blocks : list block) : list block * block :=
  match blocks with
  | [] => ([], chain)
  | p :: blocks' =>
      let c := aes256 (xorBlock p chain) in
      let '(out, chain') := cbcEncrypt c blocks' in
      (c :: out, chain')
  end.

Fixpoint cbcDecrypt (chain : block) (blocks : list block) : list block * block :=
  match blocks with
  | [] => ([], chain)
  | c :: blocks' =>
      let p := xorBlock (aes256_inverse c) chain in
      let '(out, chain') := cbcDecrypt c blocks' in
      (p :: out, chain')
  end.

(** A cipher object of [createCipheriv('aes-256-cbc', key, iv)]: the
    chaining value and the bytes not yet enciphered. *)
Definition cipherUpdate (cipher : block * list ascii) (data : list ascii)
    : (block * list ascii) * list ascii :=
  let '(chain, pending) := cipher in
  let '(blocks, rest) := takeBlocks (pending ++ data) in
  let '(out, chain') := cbcEncrypt chain blocks in
  ((chain', rest), blocksBytes out).

(** [cipher.final()]: the pending bytes, padded, make the last block. *)
Definition cipherFinal (cipher : block * list ascii) : list ascii :=
  let '(chain, pending) := cipher in
  match takeBlocks (pending ++ padding pending) with
  | ([p], []) => blockBytes (aes256 (xorBlock p chain))
  | _ => []
  end.

(** A decipher object of [createDecipheriv]: with padding on, a whole
    last block is held back for [final]. *)
Definition decipherUpdate (decipher : block * list ascii) (data : list ascii)
    : (block * list ascii) * list ascii :=
  let '(chain, pending) := decipher in
  let '(blocks, rest) := takeBlocks (pending ++ data) in
  match rest, List.last (map Some blocks) None with
  | [], Some held =>
      let '(out, chain') := cbcDecrypt chain (removelast blocks) in
      ((chain', blockBytes held), blocksBytes out)
  | _, _ =>
      let '(out, chain') := cbcDecrypt chain blocks in
      ((chain', rest), blocksBytes out)
  end.

(** [decipher.final()]: the block held back is deciphered and its
    padding removed; it throws ([None]) without exactly one block or
    on a wrong padding. *)
Definition decipherFinal (decipher : block * list ascii) : option (list ascii) :=
  let '(chain, pending) := decipher in
  match takeBlocks pending with
  | ([c], []) => unpad (blockBytes (xorBlock (aes256_inverse c) chain))
  | _ => None
  end.

(** The body of [encrypt(text)], for a cipher object with this block
    function. *)
Definition encryptWith (text : string) : string :=
  let cipher := (zeroBlock, []) in
  let '(cipher, out) := cipherUpdate cipher (list_ascii_of_string text) in
  let encrypted := hexEncode out in
  encrypted +:+ hexEncode (cipherFinal cipher).

(** The body of [decrypt(text)]: any error of the [try] block becomes
    the error [Failed to decrypt API key. It may be corrupted.] *)
Definition decryptWith (text : string) : Error.t + string :=
  let decipher := (zeroBlock, []) in
  let '(decipher, out) := decipherUpdate decipher (hexDecode text) in
  let decrypted := string_of_list_ascii out in
  match decipherFinal decipher with
  | Some final => inr (decrypted +:+ string_of_list_ascii final)
  | None => inl (Error.mk "Failed to decrypt API key. It may be corrupted.")
  end.
End aes_256_cbc.

(** ** AES-256 (FIPS 197), the cipher [createCipheriv] is asked for *)

Module AES.
(** Multiplication by [x] in GF(2^8), modulo [x^8 + x^4 + x^3 + x + 1];
    the first bit of an [ascii] is its least significant one. *)
Definition xtime (a : ascii) : ascii :=
  let '(Ascii a0 a1 a2 a3 a4 a5 a6 a7) := a in
  Ascii a7 (xorb a0 a7) a1 (xorb a2 a7) (xorb a3 a7) a4 a5 a6.

(** Multiplication in GF(2^8). *)
Definition gmul (a b : ascii) : ascii :=
  let '(Ascii b0 b1 b2 b3 b4 b5 b6 b7) := b in
  let term (bit : bool) (x : ascii) := if bit then x else Ascii.zero in
  let x1 := xtime a in
  let x2 := xtime x1 in
  let x3 := xtime x2 in
  let x4 := xtime x3 in
  let x5 := xtime x4 in
  let x6 := xtime x5 in
  let x7 := xtime x6 in
  xorByte (term b0 a) (xorByte (term b1 x1) (xorByte (term b2 x2)
    (xorByte (term b3 x3) (xorByte (term b4 x4) (xorByte (term b5 x5)
      (xorByte (term b6 x6) (term b7 x7))))))).

(** The multiplicative inverse, [a^254]; 0 is sent to 0. *)
Definition ginv (a : ascii) : ascii :=
  let a2 := gmul a a in
  let a4 := gmul a2 a2 in
  let a8 := gmul a4 a4 in
  let a16 := gmul a8 a8 in
  let a32 := gmul a16 a16 in
  let a64 := gmul a32 a32 in
  let a128 := gmul a64 a64 in
  gmul a2 (gmul a4 (gmul a8 (gmul a16 (gmul a32 (gmul a64 a128))))).

(** The affine transformation of the S-box, and its inverse. *)
Definition affine (a : ascii) : ascii :=
  let '(Ascii b0 b1 b2 b3 b4 b5 b6 b7) := a in
  let x (p q r s t : bool) := xorb p (xorb q (xorb r (xorb s t))) in
  Ascii (negb (x b0 b4 b5 b6 b7)) (negb (x b1 b5 b6 b7 b0))
        (x b2 b6 b7 b0 b1) (x b3 b7 b0 b1 b2)
        (x b4 b0 b1 b2 b3) (negb (x b5 b1 b2 b3 b4))
        (negb (x b6 b2 b3 b4 b5)) (x b7 b3 b4 b5 b6).

Definition affineInverse (a : ascii) : ascii :=
  let '(Ascii b0 b1 b2 b3 b4 b5 b6 b7) := a in
  let x (p q r : bool) := xorb p (xorb q r) in
  Ascii (negb (x b2 b5 b7)) (x b3 b6 b0) (negb (x b4 b7 b1)) (x b5 b0 b2)
        (x b6 b1 b3) (x b7 b2 b4) (x b0 b3 b5) (x b1 b4 b6).

Definition sbox (a : ascii) : ascii := affine (ginv a).

Definition invSbox (a : ascii) : ascii := ginv (affineInverse a).

Definition mapColumn (f : ascii → ascii) (c : column) : column :=
  let '(s0, s1, s2, s3) := c in (f s0, f s1, f s2, f s3).

Definition mapBlock (f : column → column) (b : block) : block :=
  let '(c0, c1, c2, c3) := b in (f c0, f c1, f c2, f c3).

Definition subBytes : block → block := mapBlock (mapColumn sbox).

Definition invSubBytes : block → block := mapBlock (mapColumn invSbox).

(** Row [r] of the state moves [r] places to the left. *)
Definition shiftRows (b : block) : block :=
  let '((a0, a1, a2, a3), (a4, a5, a6, a7),
        (a8, a9, a10, a11), (a12, a13, a14, a15)) := b in
  ((a0, a5, a10, a15), (a4, a9, a14, a3),
   (a8, a13, a2, a7), (a12, a1, a6, a11)).

Definition invShiftRows (b : block) : block :=
  let '((a0, a1, a2, a3), (a4, a5, a6, a7),
        (a8, a9, a10, a11), (a12, a13, a14, a15)) := b in
  ((a0, a13, a10, a7), (a4, a1, a14, a11),
   (a8, a5, a2, a15), (a12, a9, a6, a3)).

Definition mul2 (a : ascii) : ascii := xtime a.

Definition mul3 (a : ascii) : ascii := xorByte (xtime a) a.

Definition mul9 (a : ascii) : ascii := xorByte (xtime (xtime (xtime a))) a.

Definition mul11 (a : ascii) : ascii :=
  xorByte (xtime (xtime (xtime a))) (xorByte (xtime a) a).

Definition mul13 (a : ascii) : ascii :=
  xorByte (xtime (xtime (xtime a))) (xorByte (xtime (xtime a)) a).

Definition mul14 (a : ascii) : ascii :=
  xorByte (xtime (xtime (xtime a))) (xorByte (xtime (xtime a)) (xtime a)).

Definition xor4 (a b c d : ascii) : ascii :=
  xorByte a (xorByte b (xorByte c d)).

Definition mixColumn (c : column) : column :=
  let '(s0, s1, s2, s3) := c in
  (xor4 (mul2 s0) (mul3 s1) s2 s3,
   xor4 s0 (mul2 s1) (mul3 s2) s3,
   xor4 s0 s1 (mul2 s2) (mul3 s3),
   xor4 (mul3 s0) s1 s2 (mul2 s3)).

Definition invMixColumn (c : column) : column :=
  let '(s0, s1, s2, s3) := c in
  (xor4 (mul14 s0) (mul11 s1) (mul13 s2) (mul9 s3),
   xor4 (mul9 s0) (mul14 s1) (mul11 s2) (mul13 s3),
   xor4 (mul13 s0) (mul9 s1) (mul14 s2) (mul11 s3),
   xor4 (mul11 s0) (mul13 s1) (mul9 s2) (mul14 s3)).

Definition mixColumns : block → block := mapBlock mixColumn.

Definition invMixColumns : block → block := mapBlock invMixColumn.

(** *** The key schedule for a 256-bit key *)

(** A key: 32 bytes, two blocks, eight words. *)
Definition key256 : Type := block * block.

Definition rotWord (w : column) : column :=
  let '(a0, a1, a2, a3) := w in (a1, a2, a3, a0).

Definition subWord : column → column := mapColumn sbox.

(** The eight words that follow eight words of the schedule. *)
Definition nextWords (rcon : ascii) (previous : key256) : key256 :=
  let '((w0, w1, w2, w3), (w4, w5, w6, w7)) := previous in
  let z := Ascii.zero in
  let n0 := xorColumn w0 (xorColumn (subWord (rotWord w7)) (rcon, z, z, z)) in
  let n1 := xorColumn w1 n0 in
  let n2 := xorColumn w2 n1 in
  let n3 := xorColumn w3 n2 in
  let n4 := xorColumn w4 (subWord n3) in
  let n5 := xorColumn w5 n4 in
  let n6 := xorColumn w6 n5 in
  let n7 := xorColumn w7 n6 in
  ((n0, n1, n2, n3), (n4, n5, n6, n7)).

(** The round constants [01, 02, 04, 08, 10, 20, 40]. *)
Definition roundConstants : list ascii :=
  map ascii_of_nat [1; 2; 4; 8; 16; 32; 64]%nat.

(** The words of the schedule, eight at a time. *)
Fixpoint schedule (rcons : list ascii) (previous : key256) : list block :=
  match rcons with
  | [] => []
  | rcon :: rcons' =>
      let next := nextWords rcon previous in
      next.1 :: next.2 :: schedule rcons' next
  end.

(** The fifteen round keys: the first, the thirteen of the full
    rounds, the last. *)
Definition keyExpansion (key : key256) : block * list block * block :=
  let keys := key.2 :: schedule roundConstants key in
  (key.1, take 13 keys, default zeroBlock (keys !! 13%nat)).

(** *** The cipher and its inverse *)

Definition round (state key : block) : block :=
  xorBlock (mixColumns (shiftRows (subBytes state))) key.

Definition invRound (key state : block) : block :=
  invSubBytes (invShiftRows (invMixColumns (xorBlock state key))).

(** [Cipher]: the first round key, thirteen full rounds, the last
    round without [MixColumns]. *)
Definition cipher (key : key256) (input : block) : block :=
  let '(first, middle, last) := keyExpansion key in
  let state := foldl round (xorBlock input first) middle in
  xorBlock (shiftRows (subBytes state)) last.

(** [InvCipher]: the same steps undone, in the reverse order. *)
Definition invCipher (key : key256) (input : block) : block :=
  let '(first, middle, last) := keyExpansion key in
  let state := invSubBytes (invShiftRows (xorBlock input last)) in
  xorBlock (foldr invRound state middle) first.
End AES.

(** *** [encrypt] and [decrypt] *)

Definition ENCRYPTION_KEY : string := "orb-cli-simple-key-2025".

Section scrypt.
(** [crypto.scryptSync(password, salt, keylen)], the key derivation of
    the platform: a function of its arguments, here asked for 32
    bytes. *)
Variable scryptSync : string → string → nat → AES.key256.

(** [encrypt(text)]: the key is derived, the cipher object is created
    with the all-zero IV, and the text goes through it. *)
Definition encrypt (text : string) : string :=
  let key := scryptSync ENCRYPTION_KEY "salt" 32%nat in
  encryptWith (AES.cipher key) text.

(** [decrypt(text)] *)
Definition decrypt (text : string) : Error.t + string :=
  let key := scryptSync ENCRYPTION_KEY "salt" 32%nat in
  decryptWith (AES.invCipher key) text.
End scrypt.

(** ** The Ink engine ([components/ChatInterface.tsx], [components/App.tsx]) *)

Module StreamingEntry.
(** An entry of [StreamingData]: [{ content, isStreaming, error? }]. *)
Record t := mk {
  content : string;
  isStreaming : bool;
  error : option string
}.
End StreamingEntry.

Module InkResponse.
(** What the promise of a task resolves to:
    [{ role: 'assistant', content, model }], with [error] on failure. *)
Record t := mk {
  content : string;
  model : string;
  error : option string
}.

(** The entry as a message of the conversation: what [role],
    [content] and [model] read of it. *)
Definition message (r : t) : ChatMessage.t := assistantMessage (content r) (model r).
End InkResponse.

Module InkTask.
(** One call of the async callback of [models.map]. *)
Record t := mk {
  fullResponse : string;
  settled : option InkResponse.t
}.
End InkTask.

Module InkChat.
(** The state of [sendMessage]: the [streamingData] of the component,
    the tasks, and the requests opened. *)
Record t := mk {
  streamingData : gmap string StreamingEntry.t;
  tasks : list InkTask.t;
  requests : list RequestBody.t
}.

(** [sendMessage(message)] up to [Promise.all], for the [conversation]
    the component was given. *)
Definition start (conversation : list ChatMessage.t) (profile : Profile.t)
    (models : list string) (message : string) : t :=
  {| streamingData :=
       foldl (λ data model, <[model := StreamingEntry.mk "" true None]> data)
         ∅ models;
     tasks := map (λ _, InkTask.mk "" None) models;
     requests :=
       map (λ model,
              streamChatBody (Ink.conversationForModel conversation message model)
                model (profileOptions profile)) models |}.

(** One event, delivered to its task. *)
Definition step (s : t) (e : Event) : t :=
  match tasks s !! eventTask e with
  | Some (InkTask.mk fullResponse None) =>
      match e with
      | Chunk i model chunk =>
          let fullResponse := fullResponse +:+ chunk in
          {| streamingData :=
               <[model := StreamingEntry.mk fullResponse true None]>
                 (streamingData s);
             tasks := <[i := InkTask.mk fullResponse None]> (tasks s);
             requests := requests s |}
      | Closed i model =>
          {| streamingData :=
               <[model := StreamingEntry.mk fullResponse false None]>
                 (streamingData s);
             tasks :=
               <[i := InkTask.mk fullResponse
                        (Some (InkResponse.mk fullResponse model None))]>
                 (tasks s);
             requests := requests s |}
      | Failed i model message =>
          {| streamingData :=
               <[model := StreamingEntry.mk "" false (Some message)]>
                 (streamingData s);
             tasks :=
               <[i := InkTask.mk fullResponse
                        (Some (InkResponse.mk "" model (Some message)))]>
                 (tasks s);
             requests := requests s |}
      end
  | _ => s
  end.

Definition run (s : t) (schedule : list Event) : t := foldl step s schedule.

(** [const responses = await Promise.all(promises)] *)
Definition joined (s : t) : option (list InkResponse.t) :=
  mapM InkTask.settled (tasks s).

(** [handleComplete] of [App]:
    [setConversation(prev => [...prev, ...responses])]. *)
Definition handleComplete (conversation : list ChatMessage.t)
    (responses : list InkResponse.t) : list ChatMessage.t :=
  conversation ++ map InkResponse.message responses.

(** A whole turn of the app: the user message is appended to the
    conversation, the component runs on that conversation and that
    message, and its responses, if the turn completes, are appended. *)
Definition turn (conversation : list ChatMessage.t) (profile : Profile.t)
    (models : list string) (input : string) (schedule : list Event)
    : option (list ChatMessage.t) :=
  let conversation := conversation ++ [userMessage input] in
  responses ← joined (run (start conversation profile models input) schedule);
  Some (handleComplete conversation responses).
End InkChat.

(** The entry the promise of an Ink task resolves to, by the ending of
    its stream. *)
Definition inkOutcome (model : string) (stream : Stream.t) : InkResponse.t :=
  match Stream.ending stream with
  | Returned => InkResponse.mk (textOf (Stream.yielded stream)) model None
  | Threw e => InkResponse.mk "" model (Some (Error.message e))
  end.


(** Events of two different tasks for two different models. *)
Definition distinctTasks (e1 e2 : Event) : Prop :=
  eventTask e1 ≠ eventTask e2 ∧ eventModel e1 ≠ eventModel e2.

(** ** Text helpers ([utils.ts]) *)

(** [s.split(sep)] for a separator of one character: never empty. *)
Fixpoint split (sep : ascii) (s : string) : list string :=
  match s with
  | EmptyString => [EmptyString]
  | String c s' =>
      if decide (c = sep) then EmptyString :: split sep s'
      else match split sep s' with
           | part :: parts => String c part :: parts
           | [] => [String c EmptyString]
           end
  end.

(** [parts.join(sep)] *)
Fixpoint join (sep : string) (parts : list string) : string :=
  match parts with
  | [] => ""
  | part :: rest =>
      match rest with
      | [] => part
      | _ :: _ => part +:+ sep +:+ join sep rest
      end
  end.

(** A string as a condition: the empty string is falsy. *)
Definition truthy (s : string) : bool :=
  match s with EmptyString => false | String _ _ => true end.

(** [s.length], as the number it is compared with. *)
Definition len (s : string) : Z := Z.of_nat (String.length s).

(** [text.substring(0, end)]: an [end] below 0 counts as 0, one past
    the end as the length. *)
Definition substringTo (text : string) (end_ : Z) : string :=
  String.substring 0 (Z.to_nat end_) text.

(** [truncateText(text, maxLength)] *)
Definition truncateText (text : string) (maxLength : Z) : string :=
  if (len text <=? maxLength)%Z then text
  else substringTo text (maxLength - 3) +:+ "...".

Module Utils.
(** The body of [for (const word of words)] in [wrapText]: the lines
    pushed so far and [currentLine]. *)
Definition wrapWord (width : Z) (state : list string * string) (word : string)
    : list string * string :=
  let '(lines, currentLine) := state in
  if (width <? len currentLine + len word + 1)%Z then
    ((if truthy currentLine then lines ++ [currentLine] else lines), word)
  else
    (lines, if truthy currentLine then currentLine +:+ " " +:+ word else word).

(** The body of [for (const paragraph of paragraphs)]. *)
Definition wrapParagraph (width : Z) (lines : list string) (paragraph : string)
    : list string :=
  if (len paragraph <=? width)%Z then lines ++ [paragraph]
  else
    let '(lines, currentLine) :=
      foldl (wrapWord width) (lines, "") (split " " paragraph) in
    if truthy currentLine then lines ++ [currentLine] else lines.

(** [wrapText(text, width)] *)
Definition wrapText (text : string) (width : Z) : string :=
  join (String newline "") (foldl (wrapParagraph width) [] (splitLines text)).
End Utils.

(** The words of a line, the empty ones left out, and those of a
    text, line after line. *)
Definition lineWords (line : string) : list string :=
  filter (λ word, word ≠ "") (split " " line).

Definition wordsOf (text : string) : list string :=
  splitLines text ≫= lineWords.

(** A text whose words all fit in [width] characters. *)
Definition wordsFit (width : Z) (text : string) : Prop :=
  Forall (λ line, Forall (λ word, (len word <= width)%Z) (split " " line))
         (splitLines text).

(** A string without the character [c]. *)
Fixpoint freeOf (c : ascii) (s : string) : bool :=
  match s with
  | EmptyString => true
  | String c' s' => negb (bool_decide (c' = c)) && freeOf c s'
  end.

(** ** The configuration ([config.ts]) *)

Module File.
(** What [fs.readFile] followed by [JSON.parse] finds at a path: no
    file ([ENOENT]), a file that cannot be read or is not JSON, or the
    JSON text of a value. *)
Inductive t (A : Type) :=
  | Missing
  | Unreadable
  | Holds (data : A).
Arguments Missing {A}.
Arguments Unreadable {A}.
Arguments Holds {A}.
End File.

Module IO.
(** What the platform gives a call that saves: the time
    ([new Date().toISOString()]) and the outcome of [fs.writeFile],
    [None] when the file is written. *)
Record t := mk {
  now : string;
  writeFailure : option Error.t
}.
End IO.

Module PartialProfile.
(** [Partial<Profile>] *)
Record t := mk {
  models : option (list string);
  temperature : option Q;
  maxTokens : option Z
}.
End PartialProfile.

(** [{ ...profile, ...updates }] *)
Definition mergeProfile (profile : Profile.t) (updates : PartialProfile.t)
    : Profile.t :=
  {| Profile.models :=
       default (Profile.models profile) (PartialProfile.models updates);
     Profile.temperature :=
       default (Profile.temperature profile) (PartialProfile.temperature updates);
     Profile.maxTokens :=
       default (Profile.maxTokens profile) (PartialProfile.maxTokens updates) |}.

(** The [profiles] field of a configuration object is a reference:
    either to the object [DEFAULT_CONFIG.profiles], which every
    [{ ...DEFAULT_CONFIG }] shares, or to an object of the
    configuration's own, made by [JSON.parse].  (Profile names are
    taken not to be names of [Object.prototype].) *)
Inductive ProfilesRef :=
  | SharedDefaults
  | Own (profiles : gmap string Profile.t).

Module Config.
(** [interface Config], in memory. *)
Record t := mk {
  apiKey : option string;
  defaultProfile : string;
  profiles : ProfilesRef;
  lastUsed : string
}.
End Config.

Module ConfigJSON.
(** [interface Config], as the JSON text of the file. *)
Record t := mk {
  apiKey : option string;
  defaultProfile : string;
  profiles : gmap string Profile.t;
  lastUsed : string
}.
End ConfigJSON.

(** The profile of [DEFAULT_CONFIG]. *)
Definition DEFAULT_PROFILE : Profile.t :=
  Profile.mk ["anthropic/claude-3-sonnet-20240229"] (7 # 10) 4000.

(** The object [DEFAULT_CONFIG.profiles], as the module creates it. *)
Definition DEFAULT_PROFILES : gmap string Profile.t :=
  {[ "default" := DEFAULT_PROFILE ]}.

Module ConfigManager.
(** A [ConfigManager] in its process: the field [config], the object
    [DEFAULT_CONFIG.profiles] and the date in [DEFAULT_CONFIG.lastUsed]
    of the module, and what is at [CONFIG_FILE]. *)
Record t := mk {
  config : option Config.t;
  DEFAULT_CONFIG_profiles : gmap string Profile.t;
  DEFAULT_CONFIG_lastUsed : string;
  CONFIG_FILE : File.t ConfigJSON.t
}.

(** The module when it is loaded, with its exported instance:
    [private config: Config | null = null]. *)
Definition launch (lastUsed : string) (file : File.t ConfigJSON.t) : t :=
  mk None DEFAULT_PROFILES lastUsed file.

(** [new ConfigManager()], in the process of [self]. *)
Definition new (self : t) : t :=
  mk None (DEFAULT_CONFIG_profiles self) (DEFAULT_CONFIG_lastUsed self)
     (CONFIG_FILE self).

Definition withConfig (self : t) (config : Config.t) : t :=
  mk (Some config) (DEFAULT_CONFIG_profiles self) (DEFAULT_CONFIG_lastUsed self)
     (CONFIG_FILE self).

Definition withFile (self : t) (file : File.t ConfigJSON.t) : t :=
  mk (config self) (DEFAULT_CONFIG_profiles self) (DEFAULT_CONFIG_lastUsed self)
     file.

(** [{ ...DEFAULT_CONFIG }] *)
Definition DEFAULT_CONFIG (self : t) : Config.t :=
  Config.mk None "default" SharedDefaults (DEFAULT_CONFIG_lastUsed self).

Definition notInitialized : Error.t := Error.mk "Config not initialized".

(** The object [config.profiles] refers to. *)
Definition profilesOf (self : t) (config : Config.t) : gmap string Profile.t :=
  match Config.profiles config with
  | SharedDefaults => DEFAULT_CONFIG_profiles self
  | Own profiles => profiles
  end.

(** A write to the object [config.profiles] refers to. *)
Definition setProfiles (self : t) (config : Config.t)
    (profiles : gmap string Profile.t) : t :=
  match Config.profiles config with
  | SharedDefaults =>
      mk (Some config) profiles (DEFAULT_CONFIG_lastUsed self) (CONFIG_FILE self)
  | Own _ =>
      withConfig self
        (Config.mk (Config.apiKey config) (Config.defaultProfile config)
                   (Own profiles) (Config.lastUsed config))
  end.

Section crypto.
Variable scryptSync : string → string → nat → AES.key256.

(** [configToSave], as [JSON.stringify] writes it. *)
Definition configToSave (io : IO.t) (self : t) (config : Config.t) : ConfigJSON.t :=
  {| ConfigJSON.apiKey :=
       match Config.apiKey config with
       | Some apiKey =>
           if truthy apiKey then Some (encrypt scryptSync apiKey) else Some apiKey
       | None => None
       end;
     ConfigJSON.defaultProfile := Config.defaultProfile config;
     ConfigJSON.profiles := profilesOf self config;
     ConfigJSON.lastUsed := IO.now io |}.

(** [save()]: the [catch] clause logs the error and throws it again. *)
Definition save (io : IO.t) (self : t) : (Error.t + unit) * t :=
  match config self with
  | None => (inl notInitialized, self)
  | Some config =>
      match IO.writeFailure io with
      | Some error => (inl error, self)
      | None => (inr (), withFile self (File.Holds (configToSave io self config)))
      end
  end.

(** [load()].  Without a file the defaults are taken and saved; on any
    other failure, that of [decrypt] included, the defaults are taken
    and nothing is written. *)
Definition load (io : IO.t) (self : t) : (Error.t + unit) * t :=
  match CONFIG_FILE self with
  | File.Holds data =>
      let parsed apiKey :=
        Config.mk apiKey (ConfigJSON.defaultProfile data)
                  (Own (ConfigJSON.profiles data)) (ConfigJSON.lastUsed data) in
      match ConfigJSON.apiKey data with
      | Some apiKey =>
          if truthy apiKey then
            match decrypt scryptSync apiKey with
            | inr clear => (inr (), withConfig self (parsed (Some clear)))
            | inl _ => (inr (), withConfig self (DEFAULT_CONFIG self))
            end
          else (inr (), withConfig self (parsed (Some apiKey)))
      | None => (inr (), withConfig self (parsed None))
      end
  | File.Missing => save io (withConfig self (DEFAULT_CONFIG self))
  | File.Unreadable => (inr (), withConfig self (DEFAULT_CONFIG self))
  end.

(** [init()]: [ensureConfigDir] logs a failure of [mkdir] and goes
    on. *)
Definition init (io : IO.t) (self : t) : (Error.t + unit) * t := load io self.

(** [setApiKey(apiKey)] *)
Definition setApiKey (apiKey : string) (io : IO.t) (self : t)
    : (Error.t + unit) * t :=
  match config self with
  | None => (inl notInitialized, self)
  | Some config =>
      save io (withConfig self
                 (Config.mk (Some apiKey) (Config.defaultProfile config)
                            (Config.profiles config) (Config.lastUsed config)))
  end.

(** [removeApiKey()] *)
Definition removeApiKey (io : IO.t) (self : t) : (Error.t + unit) * t :=
  match config self with
  | None => (inl notInitialized, self)
  | Some config =>
      save io (withConfig self
                 (Config.mk None (Config.defaultProfile config)
                            (Config.profiles config) (Config.lastUsed config)))
  end.

(** [createProfile(name, profile)] *)
Definition createProfile (name : string) (profile : Profile.t) (io : IO.t)
    (self : t) : (Error.t + unit) * t :=
  match config self with
  | None => (inl notInitialized, self)
  | Some config =>
      save io (setProfiles self config (<[name := profile]> (profilesOf self config)))
  end.

Definition doesNotExist (name : string) : Error.t :=
  Error.mk ("Profile '" +:+ name +:+ "' does not exist").

(** [updateProfile(name, updates)] *)
Definition updateProfile (name : string) (updates : PartialProfile.t) (io : IO.t)
    (self : t) : (Error.t + unit) * t :=
  match config self with
  | None => (inl notInitialized, self)
  | Some config =>
      match profilesOf self config !! name with
      | None => (inl (doesNotExist name), self)
      | Some profile =>
          save io (setProfiles self config
                     (<[name := mergeProfile profile updates]>
                        (profilesOf self config)))
      end
  end.

(** [deleteProfile(name)] *)
Definition deleteProfile (name : string) (io : IO.t) (self : t)
    : (Error.t + unit) * t :=
  match config self with
  | None => (inl notInitialized, self)
  | Some config =>
      if decide (name = "default") then
        (inl (Error.mk "Cannot delete the default profile"), self)
      else
        let config' :=
          if decide (Config.defaultProfile config = name) then
            Config.mk (Config.apiKey config) "default" (Config.profiles config)
                      (Config.lastUsed config)
          else config in
        save io (setProfiles self config' (delete name (profilesOf self config)))
  end.

(** [setDefaultProfile(name)] *)
Definition setDefaultProfile (name : string) (io : IO.t) (self : t)
    : (Error.t + unit) * t :=
  match config self with
  | None => (inl notInitialized, self)
  | Some config =>
      match profilesOf self config !! name with
      | None => (inl (doesNotExist name), self)
      | Some _ =>
          save io (withConfig self
                     (Config.mk (Config.apiKey config) name
                                (Config.profiles config) (Config.lastUsed config)))
      end
  end.

(** [reset()] *)
Definition reset (io : IO.t) (self : t) : (Error.t + unit) * t :=
  save io (withConfig self (DEFAULT_CONFIG self)).
End crypto.

(** [getApiKey()] *)
Definition getApiKey (self : t) : Error.t + option string :=
  match config self with
  | None => inl notInitialized
  | Some config => inr (Config.apiKey config)
  end.

(** [getProfile(name)]: [undefined] for a name without profile. *)
Definition getProfile (name : string) (self : t) : Error.t + option Profile.t :=
  match config self with
  | None => inl notInitialized
  | Some config => inr (profilesOf self config !! name)
  end.

(** [getDefaultProfile()] *)
Definition getDefaultProfile (self : t) : Error.t + Profile.t :=
  match config self with
  | None => inl notInitialized
  | Some config =>
      match profilesOf self config !! Config.defaultProfile config with
      | Some profile => inr profile
      | None =>
          inl (Error.mk ("Default profile '" +:+ Config.defaultProfile config
                         +:+ "' not found"))
      end
  end.

(** A call of one of the methods that change the configuration. *)
Inductive Call :=
  | Init
  | SetApiKey (apiKey : string)
  | RemoveApiKey
  | CreateProfile (name : string) (profile : Profile.t)
  | UpdateProfile (name : string) (updates : PartialProfile.t)
  | DeleteProfile (name : string)
  | SetDefaultProfile (name : string)
  | Reset.

Definition call (scryptSync : string → string → nat → AES.key256)
    (c : Call) : IO.t → t → (Error.t + unit) * t :=
  match c with
  | Init => init scryptSync
  | SetApiKey apiKey => setApiKey scryptSync apiKey
  | RemoveApiKey => removeApiKey scryptSync
  | CreateProfile name profile => createProfile scryptSync name profile
  | UpdateProfile name updates => updateProfile scryptSync name updates
  | DeleteProfile name => deleteProfile scryptSync name
  | SetDefaultProfile name => setDefaultProfile scryptSync name
  | Reset => reset scryptSync
  end.

(** A sequence of calls, each with what the platform gives it; a call
    that throws leaves the manager as it was at the throw. *)
Definition calls (scryptSync : string → string → nat → AES.key256)
    (sequence : list (Call * IO.t)) (self : t) : t :=
  foldl (λ self '(c, io), (call scryptSync c io self).2) self sequence.


End ConfigManager.

(** ** Batch processing ([batch.ts], and its commands in [index.ts]) *)

Module BatchProcessor.
(** The fields of a [BatchProcessor]: the key its client is made
    with, and its configuration manager. *)
Record t := mk {
  client : option string;
  config : ConfigManager.t
}.

(** [constructor()]:
    [this.config = new ConfigManager();
     this.client = new OpenRouterClient(this.config.getApiKey())],
    in the process of the exported manager. *)
Definition new (configManager : ConfigManager.t) : Error.t + t :=
  let config := ConfigManager.new configManager in
  match ConfigManager.getApiKey config with
  | inl error => inl error
  | inr apiKey => inr (mk apiKey config)
  end.
End BatchProcessor.

(** How the action of a command ends: with the message that no key is
    set, with [Error: message] from its [catch] clause, or with its
    work done. *)
Inductive ActionResult (R : Type) :=
  | NoApiKey
  | ErrorReported (error : Error.t)
  | Finished (result : R).
Arguments NoApiKey {R}.
Arguments ErrorReported {R}.
Arguments Finished {R}.

(** [!apiKey], for [string | null]. *)
Definition noKey (apiKey : option string) : bool :=
  match apiKey with
  | Some apiKey => negb (truthy apiKey)
  | None => true
  end.

Section batch_action.
Context {R : Type}.
Variable scryptSync : string → string → nat → AES.key256.
(** What the action does with its processor: [processFile] and what
    it prints. *)
Variable work : BatchProcessor.t → Error.t + R.

(** The action of [batch <file>]: [configManager.init()], the check of
    the key, then a [new BatchProcessor()] and its work. *)
Definition batchAction (io : IO.t) (configManager : ConfigManager.t)
    : ActionResult R :=
  match ConfigManager.init scryptSync io configManager with
  | (inl error, _) => ErrorReported error
  | (inr _, configManager) =>
      match ConfigManager.getApiKey configManager with
      | inl error => ErrorReported error
      | inr apiKey =>
          if noKey apiKey then NoApiKey
          else
            match BatchProcessor.new configManager with
            | inl error => ErrorReported error
            | inr processor =>
                match work processor with
                | inl error => ErrorReported error
                | inr result => Finished result
                end
            end
      end
  end.
End batch_action.

(** ** Prompt templates ([templates.ts]) *)

Module Template.
(** [interface Template]; the dates as the JSON file holds them. *)
Record t := mk {
  name : string;
  system : option string;
  prompt : option string;
  models : option (list string);
  temperature : option Q;
  maxTokens : option Z;
  createdAt : string;
  updatedAt : string
}.
End Template.

Module TemplateFields.
(** [Omit<Template, 'createdAt' | 'updatedAt'>], the argument of
    [create]. *)
Record t := mk {
  name : string;
  system : option string;
  prompt : option string;
  models : option (list string);
  temperature : option Q;
  maxTokens : option Z
}.
End TemplateFields.

Module TemplateUpdates.
(** [Partial<Omit<Template, 'name' | 'createdAt' | 'updatedAt'>>], the
    argument of [update]: the fields it has. *)
Record t := mk {
  system : option string;
  prompt : option string;
  models : option (list string);
  temperature : option Q;
  maxTokens : option Z
}.
End TemplateUpdates.

Module TemplateManager.
(** What is at [templatesDir]: nothing, or a directory and what is in
    it at [templatesFile]. *)
Inductive Disk :=
  | NoDirectory
  | Directory (templatesFile : File.t (list Template.t)).

(** A template with the name [name]: the test of [find], [findIndex]
    and, negated, [filter]. *)
Definition named (name : string) (template : Template.t) : Prop :=
  Template.name template = name.

#[global] Instance named_dec name template : Decision (named name template).
Proof. unfold named. apply _. Defined.

Definition alreadyExists (name : string) : Error.t :=
  Error.mk ("Template '" +:+ name +:+ "' already exists").

Definition notFound (name : string) : Error.t :=
  Error.mk ("Template '" +:+ name +:+ "' not found").

(** [{ ...template, createdAt: new Date(), updatedAt: new Date() }] *)
Definition newTemplate (template : TemplateFields.t) (createdAt updatedAt : string)
    : Template.t :=
  {| Template.name := TemplateFields.name template;
     Template.system := TemplateFields.system template;
     Template.prompt := TemplateFields.prompt template;
     Template.models := TemplateFields.models template;
     Template.temperature := TemplateFields.temperature template;
     Template.maxTokens := TemplateFields.maxTokens template;
     Template.createdAt := createdAt;
     Template.updatedAt := updatedAt |}.

(** A field of [{ ...existingTemplate, ...updates }]. *)
Definition updated {A} (existing update : option A) : option A :=
  match update with
  | Some value => Some value
  | None => existing
  end.

(** [{ ...existingTemplate, ...updates, name: existingTemplate.name,
       createdAt: existingTemplate.createdAt, updatedAt: new Date() }] *)
Definition updatedTemplate (existing : Template.t) (updates : TemplateUpdates.t)
    (updatedAt : string) : Template.t :=
  {| Template.name := Template.name existing;
     Template.system := updated (Template.system existing) (TemplateUpdates.system updates);
     Template.prompt := updated (Template.prompt existing) (TemplateUpdates.prompt updates);
     Template.models := updated (Template.models existing) (TemplateUpdates.models updates);
     Template.temperature :=
       updated (Template.temperature existing) (TemplateUpdates.temperature updates);
     Template.maxTokens :=
       updated (Template.maxTokens existing) (TemplateUpdates.maxTokens updates);
     Template.createdAt := Template.createdAt existing;
     Template.updatedAt := updatedAt |}.

Section platform.
(** The error of [fs.writeFile] in a directory that does not exist,
    and that of [JSON.parse] on a file that is not JSON. *)
Variable ENOENT : Error.t.
Variable SyntaxError : Error.t.

(** [ensureTemplatesFile()]: when [fs.access] fails, the file is
    written with [[]]. *)
Definition ensureTemplatesFile (disk : Disk) : (Error.t + unit) * Disk :=
  match disk with
  | NoDirectory => (inl ENOENT, disk)
  | Directory File.Missing => (inr (), Directory (File.Holds []))
  | Directory _ => (inr (), disk)
  end.

(** [loadTemplates()] *)
Definition loadTemplates (disk : Disk) : (Error.t + list Template.t) * Disk :=
  match ensureTemplatesFile disk with
  | (inl error, disk) => (inl error, disk)
  | (inr _, disk) =>
      match disk with
      | Directory (File.Holds templates) => (inr templates, disk)
      | _ => (inl SyntaxError, disk)
      end
  end.

(** [saveTemplates(templates)] *)
Definition saveTemplates (templates : list Template.t) (disk : Disk)
    : (Error.t + unit) * Disk :=
  match disk with
  | NoDirectory => (inl ENOENT, disk)
  | Directory _ => (inr (), Directory (File.Holds templates))
  end.

(** [create(template)], with the two dates it reads. *)
Definition create (template : TemplateFields.t) (createdAt updatedAt : string)
    (disk : Disk) : (Error.t + unit) * Disk :=
  match loadTemplates disk with
  | (inl error, disk) => (inl error, disk)
  | (inr templates, disk) =>
      match list_find (named (TemplateFields.name template)) templates with
      | Some _ => (inl (alreadyExists (TemplateFields.name template)), disk)
      | None =>
          saveTemplates (templates ++ [newTemplate template createdAt updatedAt]) disk
      end
  end.

(** [get(name)]: the first template of that name, or [null]. *)
Definition get (name : string) (disk : Disk)
    : (Error.t + option Template.t) * Disk :=
  match loadTemplates disk with
  | (inl error, disk) => (inl error, disk)
  | (inr templates, disk) => (inr (snd <$> list_find (named name) templates), disk)
  end.

(** [update(name, updates)] *)
Definition update (name : string) (updates : TemplateUpdates.t) (updatedAt : string)
    (disk : Disk) : (Error.t + unit) * Disk :=
  match loadTemplates disk with
  | (inl error, disk) => (inl error, disk)
  | (inr templates, disk) =>
      match list_find (named name) templates with
      | None => (inl (notFound name), disk)
      | Some (index, existingTemplate) =>
          saveTemplates
            (<[index := updatedTemplate existingTemplate updates updatedAt]> templates)
            disk
      end
  end.

(** [delete(name)] *)
Definition delete (name : string) (disk : Disk) : (Error.t + unit) * Disk :=
  match loadTemplates disk with
  | (inl error, disk) => (inl error, disk)
  | (inr templates, disk) =>
      let filtered := filter (λ template, ¬ named name template) templates in
      if decide (length filtered = length templates)
      then (inl (notFound name), disk)
      else saveTemplates filtered disk
  end.

(** A call of one of the methods that write the file. *)
Inductive Call :=
  | Create (template : TemplateFields.t) (createdAt updatedAt : string)
  | Update (name : string) (updates : TemplateUpdates.t) (updatedAt : string)
  | Delete (name : string).

Definition call (c : Call) : Disk → (Error.t + unit) * Disk :=
  match c with
  | Create template createdAt updatedAt => create template createdAt updatedAt
  | Update name updates updatedAt => update name updates updatedAt
  | Delete name => delete name
  end.

Definition calls (sequence : list Call) (disk : Disk) : Disk :=
  foldl (λ disk c, (call c disk).2) disk sequence.

(** [list()] *)
Definition list (disk : Disk) : (Error.t + Datatypes.list Template.t) * Disk :=
  loadTemplates disk.
End platform.

(** A disk whose templates, if it has any, have names all different. *)
Definition uniqueNames (disk : Disk) : Prop :=
  match disk with
  | Directory (File.Holds templates) => NoDup (Template.name <$> templates)
  | _ => True
  end.
End TemplateManager.

(** *** [applyTemplate] *)

(** The text a match is replaced with ([GetSubstitution]), for a
    pattern without capture group: in the replacement, [$$] is a
    dollar, [$&] the match, [$`] what precedes the match, [$'] what
    follows it, and every other character stands for itself. *)
Fixpoint getSubstitution (matched before after replacement : string) : string :=
  match replacement with
  | EmptyString => EmptyString
  | String c tail =>
      if decide (c = "$"%char) then
        match tail with
        | String c' rest =>
            if decide (c' = "$"%char) then
              String "$" (getSubstitution matched before after rest)
            else if decide (c' = "&"%char) then
              matched +:+ getSubstitution matched before after rest
            else if decide (c' = "`"%char) then
              before +:+ getSubstitution matched before after rest
            else if decide (c' = "'"%char) then
              after +:+ getSubstitution matched before after rest
            else String "$" (getSubstitution matched before after tail)
        | EmptyString => String "$" EmptyString
        end
      else String c (getSubstitution matched before after tail)
  end.

(** [text.replace(/pattern/g, replacement)] for a pattern that is a
    literal, not empty: the matches are taken from left to right and
    do not overlap.  [before] is the text already read, [rest] the
    text to read, [skip] what is left of a match in [rest]. *)
Fixpoint replaceFrom (pattern replacement before rest : string) (skip : nat)
    : string :=
  match rest with
  | EmptyString => EmptyString
  | String c rest' =>
      match skip with
      | S skip' =>
          replaceFrom pattern replacement (before +:+ String c "") rest' skip'
      | O =>
          if String.prefix pattern rest then
            getSubstitution pattern before
              (slice rest (String.length pattern)) replacement
            +:+ replaceFrom pattern replacement (before +:+ String c "") rest'
                  (String.length pattern - 1)
          else
            String c (replaceFrom pattern replacement (before +:+ String c "")
                        rest' 0)
      end
  end.

Definition replaceAll (text pattern replacement : string) : string :=
  replaceFrom pattern replacement "" text 0.

(** A string that may be missing, as a condition. *)
Definition given (s : option string) : bool :=
  match s with
  | Some s => truthy s
  | None => false
  end.

Module AppliedTemplate.
(** The result of [applyTemplate]. *)
Record t := mk {
  prompt : string;
  models : option (list string);
  temperature : option Q;
  maxTokens : option Z
}.
End AppliedTemplate.

(** [finalPrompt] before the user's prompt is put in: the system text
    and two line feeds, if there is a system text, then the prompt of
    the template, if there is one. *)
Definition templateText (template : Template.t) : string :=
  (if given (Template.system template)
   then default "" (Template.system template)
        +:+ String newline (String newline "")
   else "")
  +:+ (if given (Template.prompt template)
       then default "" (Template.prompt template) else "").

(** [finalPrompt] at the end of [applyTemplate]. *)
Definition finalPrompt (template : Template.t) (userPrompt : option string)
    : string :=
  if given (Template.prompt template) then
    if given userPrompt
    then replaceAll (templateText template) "{prompt}" (default "" userPrompt)
    else templateText template
  else if given userPrompt
    then templateText template +:+ default "" userPrompt
    else templateText template.

(** [applyTemplate(name, userPrompt)] *)
Definition applyTemplate (ENOENT SyntaxError : Error.t) (name : string)
    (userPrompt : option string) (disk : TemplateManager.Disk)
    : (Error.t + AppliedTemplate.t) * TemplateManager.Disk :=
  match TemplateManager.get ENOENT SyntaxError name disk with
  | (inl error, disk) => (inl error, disk)
  | (inr None, disk) => (inl (TemplateManager.notFound name), disk)
  | (inr (Some template), disk) =>
      (inr {| AppliedTemplate.prompt := finalPrompt template userPrompt;
              AppliedTemplate.models := Template.models template;
              AppliedTemplate.temperature := Template.temperature template;
              AppliedTemplate.maxTokens := Template.maxTokens template |},
       disk)
  end.

(** ** The model directory: organizations ([models.ts]) *)

(** [extractOrganization(modelId)] *)
Definition extractOrganization (modelId : string) : string :=
  match split "/" modelId with
  | organization :: _ :: _ => if truthy organization then organization else "other"
  | _ => "other"
  end.

Module JSMap.
(** A [Map] with string keys: its entries in the order of insertion. *)
Definition t (V : Type) : Type := list (string * V).

(** [map.has(key)] *)
Definition has {V} (key : string) (map : t V) : bool :=
  bool_decide (key ∈ map.*1).

(** [map.get(key)] *)
Fixpoint get {V} (key : string) (map : t V) : option V :=
  match map with
  | [] => None
  | (key', value) :: rest => if decide (key' = key) then Some value else get key rest
  end.

(** [map.set(key, value)]: a key the map has keeps its place. *)
Fixpoint set {V} (key : string) (value : V) (map : t V) : t V :=
  match map with
  | [] => [(key, value)]
  | (key', value') :: rest =>
      if decide (key' = key) then (key', value) :: rest
      else (key', value') :: set key value rest
  end.
End JSMap.

Section organizations.
(** A model is known by its [id]; [sort] is [Array.prototype.sort]
    with the comparator of the source, which puts the models without
    price first and orders the others by [localeCompare]. *)
Context {M : Type}.
Variable id : M → string.
Variable sort : list M → list M.

(** The body of [for (const model of models)]:
    [if (!grouped.has(org)) grouped.set(org, []); grouped.get(org)!.push(model)]. *)
Definition groupModel (grouped : JSMap.t (list M)) (model : M) : JSMap.t (list M) :=
  let org := extractOrganization (id model) in
  let grouped := if JSMap.has org grouped then grouped else JSMap.set org [] grouped in
  JSMap.set org (default [] (JSMap.get org grouped) ++ [model]) grouped.

(** [getModelsByOrganization()], from the models [fetchModels] gives:
    the groups, then each group sorted. *)
Definition getModelsByOrganization (models : list M) : JSMap.t (list M) :=
  let grouped := foldl groupModel [] models in
  foldl (λ grouped '(org, orgModels), JSMap.set org (sort orgModels) grouped)
        grouped grouped.
End organizations.

(** ** [validateApiKey] and the command [config set-key] *)

(** [validateApiKey()]: [return models.length > 0], and [false] in the
    [catch] clause. *)
Definition validateApiKey (fetch : nat → FetchResult ModelsResponse.t)
    : (Error.t + bool) * list Effect :=
  match getModels fetch with
  | (inr models, trace) => (inr (bool_decide (0 < length models)), trace)
  | (inl _, trace) => (inr false, trace)
  end.

(** How [config set-key] ends. *)
Inductive SetKeyResult :=
  | InvalidKey
  | KeySet
  | SetKeyError (error : Error.t).

(** The action of [config set-key <key>]: [configManager.init()], the
    validation of the key, then [setApiKey].  The result, the manager
    afterwards, and the trace of the transport. *)
Definition setKeyAction (scryptSync : string → string → nat → AES.key256)
    (key : string) (io io' : IO.t) (fetch : nat → FetchResult ModelsResponse.t)
    (configManager : ConfigManager.t)
    : SetKeyResult * ConfigManager.t * list Effect :=
  match ConfigManager.init scryptSync io configManager with
  | (inl error, configManager) => (SetKeyError error, configManager, [])
  | (inr _, configManager) =>
      match validateApiKey fetch with
      | (inl error, trace) => (SetKeyError error, configManager, trace)
      | (inr false, trace) => (InvalidKey, configManager, trace)
      | (inr true, trace) =>
          match ConfigManager.setApiKey scryptSync key io' configManager with
          | (inl error, configManager) => (SetKeyError error, configManager, trace)
          | (inr _, configManager) => (KeySet, configManager, trace)
          end
      end
  end.

(** ** The streaming box ([utils.ts]) *)

(** [s.repeat(count)]: a [RangeError] for a negative count. *)
Definition repeat (s : string) (count : Z) : Error.t + string :=
  if (count <? 0)%Z then inl (Error.mk ("Invalid count value: " +:+ pretty count))
  else inr (textOf (replicate (Z.to_nat count) s)).

Module StreamingBox.
(** The borders [formatStreamingBox] computes before it returns its
    three printing functions. *)
Record t := mk {
  topBorder : string;
  bottomBorder : string
}.
End StreamingBox.

(** [process.stdout.columns || 80]: [undefined] without a terminal,
    and [0] is falsy. *)
Definition terminalWidth (columns : option Z) : Z :=
  match columns with
  | Some n => if (n =? 0)%Z then 80%Z else n
  | None => 80%Z
  end.

(** [formatStreamingBox(model, width)], as far as the borders: the
    template literals evaluate their [repeat] calls from left to
    right, and the first that throws ends the call. *)
Definition formatStreamingBox (columns : option Z) (model : string) (width : Z)
    : Error.t + StreamingBox.t :=
  let effectiveWidth := Z.min width (terminalWidth columns) in
  let boxWidth := (effectiveWidth - 2)%Z in
  let modelDisplay := " " +:+ model +:+ " " in
  let remainingWidth := (boxWidth - len modelDisplay - 2)%Z in
  let leftPadding := (remainingWidth / 2)%Z in
  let rightPadding := (remainingWidth - leftPadding)%Z in
  match repeat "─" leftPadding with
  | inl error => inl error
  | inr leftBorder =>
      match repeat "─" rightPadding with
      | inl error => inl error
      | inr rightBorder =>
          match repeat "─" (boxWidth - 2) with
          | inl error => inl error
          | inr bottom =>
              inr {| StreamingBox.topBorder := "┌" +:+ leftBorder +:+ modelDisplay +:+ rightBorder +:+ "┐";
                     StreamingBox.bottomBorder := "└" +:+ bottom +:+ "┘" |}
          end
      end
  end.

(** ** The interactive session ([chat.ts]) *)

Module ProfileManager.
(** [getProfile(name?)] of [profiles.ts]: the named profile, or the
    default one for no name or an empty one. *)
Definition getProfile (name : option string) (configManager : ConfigManager.t)
    : Error.t + Profile.t :=
  if given name then
    match ConfigManager.getProfile (default "" name) configManager with
    | inl error => inl error
    | inr None => inl (ConfigManager.doesNotExist (default "" name))
    | inr (Some profile) => inr profile
    end
  else ConfigManager.getDefaultProfile configManager.
End ProfileManager.

(** [getMultilineInput()], on the answers the prompt gives, each a
    line or the error the prompt rejects with: the input and the
    answers left, or nothing while the prompt is still waiting. *)
Fixpoint getMultilineInput (answers : list (Error.t + string))
    (lines : list string) (lineCount : nat)
    : option ((Error.t + string) * list (Error.t + string)) :=
  match answers with
  | [] => None
  | inl error :: answers' => Some (inl error, answers')
  | inr line :: answers' =>
      if bool_decide (lineCount = 0%nat) && startsWith line "/" then
        Some (inr line, answers')
      else if bool_decide (lineCount = 0%nat) && negb (isBlank line) then
        Some (inr line, answers')
      else if bool_decide (line = "") && bool_decide (0 < length lines)%nat then
        Some (inr (join (String newline "") lines), answers')
      else getMultilineInput answers' (lines ++ [line]) (S lineCount)
  end.

Module ChatInterface.
(** The fields of a [ChatInterface] that its commands read and
    write. *)
Record t := mk {
  conversation : list ChatMessage.t;
  activeModels : list string;
  currentProfile : Profile.t;
  currentProfileName : string
}.

Definition noModelSelected : Error.t :=
  Error.mk "No model selected. Cannot start chat.".

(** [constructor(apiKey)]: the default profile, under the name
    ['default']. *)
Definition new (configManager : ConfigManager.t) : Error.t + t :=
  match ProfileManager.getProfile None configManager with
  | inl error => inl error
  | inr profile => inr (mk [] [] profile "default")
  end.

(** [init(options)], with what the confirmation prompt and
    [selectModel()] give if they are called. *)
Definition init (profile model : option string) (useProfileModels : Error.t + bool)
    (selectModel : option string) (configManager : ConfigManager.t) (self : t)
    : Error.t + t :=
  match ConfigManager.config configManager with
  | None => inl ConfigManager.notInitialized
  | Some config =>
      match ProfileManager.getProfile profile configManager with
      | inl error => inl error
      | inr currentProfile =>
          let currentProfileName :=
            if given profile then default "" profile
            else Config.defaultProfile config in
          let started activeModels :=
            inr (mk (conversation self) activeModels currentProfile
                    currentProfileName) in
          if given model then started [default "" model]
          else
            match Profile.models currentProfile with
            | [] =>
                if given selectModel then started [default "" selectModel]
                else inl noModelSelected
            | _ :: _ =>
                match useProfileModels with
                | inl error => inl error
                | inr true => started (Profile.models currentProfile)
                | inr false =>
                    if given selectModel then started [default "" selectModel]
                    else started (Profile.models currentProfile)
                end
            end
      end
  end.

(** The loop of [sendMessage] from the model of index [index] on.
    [formatStreamingBox] is called outside the [try] block of
    [streamModelResponse]: what it throws ends the loop.  The result,
    the conversation, and the requests made. *)
Fixpoint streamModels (columns : option Z) (profile : Profile.t)
    (stream : nat → Stream.t) (index : nat) (models : list string)
    (conversation : list ChatMessage.t)
    : (Error.t + unit) * list ChatMessage.t * list RequestBody.t :=
  match models with
  | [] => (inr (), conversation, [])
  | model :: models' =>
      match formatStreamingBox columns model 80 with
      | inl error => (inl error, conversation, [])
      | inr _ =>
          let request := requestFor profile conversation model in
          let '(result, conversation', requests) :=
            streamModels columns profile stream (S index) models'
              (Chat.streamModelResponse conversation model (stream index)) in
          (result, conversation', request :: requests)
      end
  end.

(** [sendMessage(content)], with the terminal it prints on and the
    stream each active model answers with. *)
Definition sendMessage (content : string) (columns : option Z)
    (stream : nat → Stream.t) (self : t)
    : (Error.t + unit) * t * list RequestBody.t :=
  let '(result, conversation', requests) :=
    streamModels columns (currentProfile self) stream 0 (activeModels self)
      (conversation self ++ [userMessage content]) in
  (result,
   mk conversation' (activeModels self) (currentProfile self)
      (currentProfileName self),
   requests).

(** [switchModel(modelId)], with what [selectModel()] returns if it is
    called. *)
Definition switchModel (modelId : string) (selectModel : option string) (self : t)
    : t :=
  if truthy modelId then
    mk (conversation self) [modelId] (currentProfile self) (currentProfileName self)
  else
    match selectModel with
    | Some selectedModel =>
        if truthy selectedModel then
          mk (conversation self) [selectedModel] (currentProfile self)
             (currentProfileName self)
        else self
    | None => self
    end.

(** [switchProfile(profileName)], with what
    [profileManager.selectProfile()] gives if it is called: a name, or
    the error it throws, which leaves [switchProfile].  The [catch]
    clause prints the error of [getProfile]. *)
Definition switchProfile (profileName : string) (selectProfile : Error.t + string)
    (configManager : ConfigManager.t) (self : t) : Error.t + t :=
  let switchTo profileName :=
    match ProfileManager.getProfile (Some profileName) configManager with
    | inr profile =>
        mk (conversation self) (Profile.models profile) profile profileName
    | inl _ => self
    end in
  if truthy profileName then inr (switchTo profileName)
  else
    match selectProfile with
    | inl error => inl error
    | inr selected => inr (switchTo selected)
    end.

(** What [handleCommand] returns: ['exit'] or [null]. *)
Inductive Handled := Exit | Continue.

(** [handleCommand(command)]: [/help], [/models] and [/save] print or
    write a file, and leave the session as it is. *)
Definition handleCommand (command : string) (selectModel : option string)
    (selectProfile : Error.t + string) (configManager : ConfigManager.t) (self : t)
    : Error.t + Handled * t :=
  match split " " command with
  | [] => inr (Continue, self)
  | cmd :: args =>
      if decide (cmd = "/exit") then inr (Exit, self)
      else if decide (cmd = "/quit") then inr (Exit, self)
      else if decide (cmd = "/switch") then
        inr (Continue, switchModel (join " " args) selectModel self)
      else if decide (cmd = "/profile") then
        match switchProfile (join " " args) selectProfile configManager self with
        | inl error => inl error
        | inr self' => inr (Continue, self')
        end
      else if decide (cmd = "/clear") then
        inr (Continue,
             mk [] (activeModels self) (currentProfile self)
                (currentProfileName self))
      else inr (Continue, self)
  end.
End ChatInterface.

(** ** The parallel session ([parallel-chat.ts]) *)

Module ParallelChatInterface.
(** The fields of a [ParallelChatInterface] that [init] writes. *)
Record t := mk {
  conversation : list ChatMessage.t;
  activeModels : list string;
  currentProfile : Profile.t;
  currentProfileName : string
}.

(** [constructor(apiKey)] *)
Definition new (configManager : ConfigManager.t) : Error.t + t :=
  match ProfileManager.getProfile None configManager with
  | inl error => inl error
  | inr profile => inr (mk [] [] profile "default")
  end.

(** [init(options)], with what [selectModel()] gives if it is called:
    the profile is read only when neither [models] nor [model] is
    given. *)
Definition init (profile model : option string) (models : option (list string))
    (selectModel : option string) (configManager : ConfigManager.t) (self : t)
    : Error.t + t :=
  match ConfigManager.config configManager with
  | None => inl ConfigManager.notInitialized
  | Some config =>
      let chosen :=
        match models with
        | Some (first :: others) =>
            inr (mk (conversation self) (first :: others) (currentProfile self)
                    (currentProfileName self))
        | _ =>
            if given model then
              inr (mk (conversation self) [default "" model] (currentProfile self)
                      (currentProfileName self))
            else
              match ProfileManager.getProfile profile configManager with
              | inl error => inl error
              | inr currentProfile =>
                  inr (mk (conversation self) (Profile.models currentProfile)
                          currentProfile
                          (if given profile then default "" profile
                           else Config.defaultProfile config))
              end
        end in
      match chosen with
      | inl error => inl error
      | inr self =>
          match activeModels self with
          | [] =>
              if given selectModel then
                inr (mk (conversation self) [default "" selectModel]
                        (currentProfile self) (currentProfileName self))
              else inl ChatInterface.noModelSelected
          | _ :: _ => inr self
          end
      end
  end.

(** The body of [for (const word of words)] in the [wrapText] of
    [parallel-chat.ts]. *)
Definition wrapWord (width : Z) (state : list string * string) (word : string)
    : list string * string :=
  let '(lines, currentLine) := state in
  if (len (currentLine +:+ word) <=? width)%Z then
    (lines, currentLine +:+ (if truthy currentLine then " " else "") +:+ word)
  else
    ((if truthy currentLine then lines ++ [currentLine] else lines), word).

(** [wrapText(text, width)]: the lines of the box. *)
Definition wrapText (text : string) (width : Z) : list string :=
  let '(lines, currentLine) :=
    foldl (wrapWord width) ([], "") (split " " text) in
  if truthy currentLine then lines ++ [currentLine] else lines.
End ParallelChatInterface.

(** ** One-time questions ([askQuestion] of [chat.ts], [ask] of [index.ts]) *)



Module AskOptions.
(** The options of the command [ask] that its action reads before the
    files. *)
Record t := mk {
  profile : option string;
  model : option string;
  template : option string
}.
End AskOptions.

Section ask.
Variable scryptSync : string → string → nat → AES.key256.
Variables ENOENT SyntaxError : Error.t.
(** What the action does for [--file] and [--files]: the prompt it
    goes on with, which is the prompt it has when neither option is
    given, or the error of [CodeIntegration]. *)
Variable withFiles : string → Error.t + string.


End ask.

(** ** Imported conversations ([export.ts]: [ConversationImporter]) *)

Module ChatGPTMessage.
(** A message of a ChatGPT export, as far as the importer reads it:
    [author.role] and [content.parts]. *)
Record t := mk {
  role : string;
  parts : list string
}.
End ChatGPTMessage.

Module ChatGPTNode.
(** A node of the [mapping] of a conversation: [message] and
    [children], either of which may be missing. *)
Record t := mk {
  message : option ChatGPTMessage.t;
  children : option (list string)
}.
End ChatGPTNode.







(** * Part II: properties *)

(** ** Views *)



Lemma Ink_history_filter model conversation acc :
  foldl (Ink.pushIfVisible model) acc conversation
  = acc ++ filter (Ink.visibleTo model) conversation.
Proof.
  revert acc. induction conversation as [|msg l IH]; intros acc; simpl.
  - by rewrite app_nil_r.
  - rewrite IH, filter_cons.
    destruct (decide (Ink.visibleTo model msg)) as [Hv|Hv];
      unfold Ink.visibleTo, Ink.pushIfVisible in *;
      destruct (ChatMessage.role msg); try case_decide;
      rewrite <- ?app_assoc; try done; intuition congruence.
Qed.

Section views.
Variables (conversation : list ChatMessage.t) (M : string).





Lemma ink_view_history message :
  Ink.conversationForModel conversation message M
  = filter (Ink.visibleTo M) conversation ++ [userMessage message].
Proof.
  unfold Ink.conversationForModel. by rewrite Ink_history_filter.
Qed.
End views.



(** ** The transport client *)

Example parseInt_seconds : parseInt "120" = Num 120.
Proof. reflexivity. Qed.

Example parseInt_date : parseInt "Wed, 21 Oct 2015 07:28:00 GMT" = NaN.
Proof. reflexivity. Qed.

Example parseInt_prefix : parseInt " 7.5s" = Num 7 ∧ parseInt "0x1f" = Num 31.
Proof. split; reflexivity. Qed.

(** *** The retry loop, one iteration at a time *)

Section retryLoop_steps.
Context {T : Type}.
Variable fetch : nat → FetchResult T.

Lemma retryLoop_done attempt lastError trace :
  retryLoop fetch 0 attempt lastError trace
  = (inl (default (Error.mk "Request failed after maximum retries") lastError),
     trace).
Proof. reflexivity. Qed.

Lemma retryLoop_rate_limited remaining attempt lastError trace r :
  fetch attempt = Resolved r → Response.status r = 429%Z →
  retryLoop fetch (S remaining) attempt lastError trace
  = retryLoop fetch remaining (S attempt) lastError
      (trace ++ [Fetch attempt;
                 Delay (rateLimitDelay (Response.retryAfter r) attempt)]).
Proof.
  intros Hf Hs. simpl. rewrite Hf, decide_True by done.
  by rewrite <- app_assoc.
Qed.

Lemma retryLoop_api_error remaining attempt lastError trace r :
  fetch attempt = Resolved r → rejectedStatus r →
  retryLoop fetch (S remaining) attempt lastError trace
  = retryLoop fetch remaining (S attempt)
      (Some (apiError (Response.status r) (Response.text r)))
      (trace ++ Fetch attempt ::
         (if decide (attempt < MAX_RETRIES - 1)%nat
          then [Delay (backoffDelay attempt)] else [])).
Proof.
  intros Hf [Hok Hs]. simpl. rewrite Hf, decide_False, Hok by done. simpl.
  case_decide; by rewrite <- ?app_assoc.
Qed.

Lemma retryLoop_rejected remaining attempt lastError trace e :
  fetch attempt = Rejected e →
  retryLoop fetch (S remaining) attempt lastError trace
  = retryLoop fetch remaining (S attempt) (Some e)
      (trace ++ Fetch attempt ::
         (if decide (attempt < MAX_RETRIES - 1)%nat
          then [Delay (backoffDelay attempt)] else [])).
Proof.
  intros Hf. simpl. rewrite Hf.
  case_decide; by rewrite <- ?app_assoc.
Qed.

Lemma retryLoop_success remaining attempt lastError trace r value :
  fetch attempt = Resolved r → Response.ok r = true →
  Response.json r = inr value →
  retryLoop fetch (S remaining) attempt lastError trace
  = (inr value, trace ++ [Fetch attempt]).
Proof.
  intros Hf Hok Hj. simpl. rewrite Hf, Hok, Hj.
  rewrite decide_False; [done|].
  intros Hs. unfold Response.ok in Hok. rewrite Hs in Hok. done.
Qed.

(** The trace only grows, and an iteration starts with its attempt. *)
Lemma retryLoop_trace_extends remaining attempt lastError trace :
  ∃ rest, (retryLoop fetch remaining attempt lastError trace).2 = trace ++ rest.
Proof.
  revert attempt lastError trace.
  induction remaining as [|remaining IH]; intros attempt lastError trace.
  - exists []. by rewrite app_nil_r.
  - simpl. destruct (fetch attempt) as [e|r].
    + case_decide.
      * destruct (IH (S attempt) (Some e)
                    ((trace ++ [Fetch attempt]) ++ [Delay (backoffDelay attempt)]))
          as [rest ->].
        eexists. by rewrite <- !app_assoc.
      * destruct (IH (S attempt) (Some e) (trace ++ [Fetch attempt])) as [rest ->].
        eexists. by rewrite <- !app_assoc.
    + repeat case_decide; try destruct (negb _); try destruct (Response.json r);
        try (eexists; simpl; reflexivity);
        match goal with
        | |- ∃ _, (retryLoop _ _ ?a ?l ?t).2 = _ =>
            destruct (IH a l t) as [rest ->]; eexists; by rewrite <- !app_assoc
        end.
Qed.

Lemma retryLoop_first_attempt remaining attempt lastError trace :
  ∃ rest, (retryLoop fetch (S remaining) attempt lastError trace).2
          = trace ++ Fetch attempt :: rest.
Proof.
  simpl. destruct (fetch attempt) as [e|r];
    repeat case_decide; try destruct (negb _); try destruct (Response.json r);
    try (exists []; simpl; reflexivity);
    match goal with
    | |- ∃ _, (retryLoop _ _ ?a ?l ?t).2 = _ =>
        destruct (retryLoop_trace_extends remaining a l t) as [rest ->];
        eexists; rewrite <- !app_assoc; simpl; reflexivity
    end.
Qed.
End retryLoop_steps.

(** [C3], as stated, fails on [makeRequest]: the error of a response
    that is neither 2xx nor 429 is thrown inside the [try] block, so
    the loop's own [catch] takes it, waits and issues the request
    again.  After a 500 the call below waits 1000 ms, makes a second
    attempt and returns that attempt's result. *)
Lemma C3_makeRequest_retries_after_500 :
  let r500 : Response.t Z :=
    Response.mk 500 None "boom" (inl (Error.mk "Unexpected token b")) in
  let r200 : Response.t Z := Response.mk 200 None "7" (inr 7%Z) in
  rejectedStatus r500 ∧
  makeRequest (scripted [Resolved r500] (Resolved r200))
  = (inr 7%Z, [Fetch 0; Delay (Num 1000); Fetch 1]).
Proof. cbv zeta. split; [split; [reflexivity|simpl; lia]|reflexivity]. Qed.

(** [C3], amended.  A response whose status is neither 2xx nor 429
    makes the attempt raise the error [API Error (status): body], which
    the retry loop catches like a transport failure: after such a
    response to the first attempt the call waits 1000 ms and issues the
    request again; when each of the three attempts receives such a
    response the call makes exactly three attempts, waits 1000 ms and
    2000 ms between them, and fails with the error carrying the status
    code and body of the last response. *)
Theorem C3_api_error_retried {T} (fetch : nat → FetchResult T) (r0 : Response.t T) :
  fetch 0%nat = Resolved r0 → rejectedStatus r0 →
  (∃ rest, (makeRequest fetch).2
           = [Fetch 0; Delay (Num 1000); Fetch 1] ++ rest) ∧
  (∀ r1 r2, fetch 1%nat = Resolved r1 → rejectedStatus r1 →
            fetch 2%nat = Resolved r2 → rejectedStatus r2 →
     makeRequest fetch
     = (inl (apiError (Response.status r2) (Response.text r2)),
        [Fetch 0; Delay (Num 1000); Fetch 1; Delay (Num 2000); Fetch 2])).
Proof.
  intros Hf0 Hr0. unfold makeRequest, MAX_RETRIES.
  rewrite (retryLoop_api_error _ _ _ _ _ r0) by done.
  rewrite decide_True by (unfold MAX_RETRIES; lia). simpl app.
  split.
  - destruct (retryLoop_first_attempt fetch 1 1
                (Some (apiError (Response.status r0) (Response.text r0)))
                [Fetch 0; Delay (backoffDelay 0)]) as [rest ->].
    by exists rest.
  - intros r1 r2 Hf1 Hr1 Hf2 Hr2.
    rewrite (retryLoop_api_error _ _ _ _ _ r1) by done.
    rewrite decide_True by (unfold MAX_RETRIES; lia).
    rewrite (retryLoop_api_error _ _ _ _ _ r2) by done.
    rewrite decide_False by (unfold MAX_RETRIES; lia).
    done.
Qed.

Lemma C3_api_error_retried_witness :
  let r (status : Z) : Response.t Z :=
    Response.mk status None "denied" (inl (Error.mk "not JSON")) in
  let fetch :=
    scripted [Resolved (r 401%Z); Resolved (r 403%Z)] (Resolved (r 500%Z)) in
  (∃ rest, (makeRequest fetch).2
           = [Fetch 0; Delay (Num 1000); Fetch 1] ++ rest) ∧
  makeRequest fetch
  = (inl (Error.mk "API Error (500): denied"),
     [Fetch 0; Delay (Num 1000); Fetch 1; Delay (Num 2000); Fetch 2]).
Proof.
  cbv zeta.
  pose (r := λ status : Z,
          Response.mk (T:=Z) status None "denied" (inl (Error.mk "not JSON"))).
  assert (rejectedStatus (r 401%Z)) as H401 by (split; [reflexivity|simpl; lia]).
  assert (rejectedStatus (r 403%Z)) as H403 by (split; [reflexivity|simpl; lia]).
  assert (rejectedStatus (r 500%Z)) as H500 by (split; [reflexivity|simpl; lia]).
  pose proof (C3_api_error_retried
                (scripted [Resolved (r 401%Z); Resolved (r 403%Z)] (Resolved (r 500%Z)))
                (r 401%Z) eq_refl H401) as [Hretry Hfail].
  split; [exact Hretry|].
  exact (Hfail (r 403%Z) (r 500%Z) eq_refl H403 eq_refl H500).
Defined.

(** *** Rate limiting *)

Lemma number_add_0_r d : number_add d (Num 0) = d.
Proof. destruct d; simpl; [f_equal; lia|done]. Qed.

(** Without a usable header the delay is the base delay doubled at
    each attempt; with one it is the header's value, in seconds. *)
Lemma rateLimitDelay_backoff attempt :
  rateLimitDelay None attempt = Num (1000 * 2 ^ Z.of_nat attempt) ∧
  rateLimitDelay (Some "") attempt = Num (1000 * 2 ^ Z.of_nat attempt).
Proof. done. Qed.

Lemma rateLimitDelay_header value attempt :
  value ≠ "" →
  rateLimitDelay (Some value) attempt = number_mul (parseInt value) (Num 1000).
Proof. intros Hv. unfold rateLimitDelay. by rewrite decide_False. Qed.

Lemma backoffDelay_doubles attempt z :
  backoffDelay attempt = Num z → backoffDelay (S attempt) = Num (2 * z).
Proof.
  unfold backoffDelay. intros [= <-]. f_equal.
  rewrite Nat2Z.inj_succ, Z.pow_succ_r by lia. lia.
Qed.

(** [C4], as stated, fails: three 429 responses use up the three
    iterations of the loop, so the fourth call of the transport, the
    one that would succeed, is never made and the operation throws. *)
Lemma C4_three_429_exhaust_the_attempts :
  let r429 : Response.t Z :=
    Response.mk 429 None "slow down" (inl (Error.mk "not JSON")) in
  let r200 : Response.t Z := Response.mk 200 None "7" (inr 7%Z) in
  makeRequest (scripted [Resolved r429; Resolved r429; Resolved r429] (Resolved r200))
  = (inl (Error.mk "Request failed after maximum retries"),
     [Fetch 0; Delay (Num 1000); Fetch 1; Delay (Num 2000);
      Fetch 2; Delay (Num 4000)]).
Proof. reflexivity. Qed.

(** [C4], amended.  When the transport answers 429 to each of the
    three attempts, the request operation makes exactly 3 attempts,
    waits after each of them the computed delay (the [Retry-After]
    value, in seconds, when the header is present and not empty,
    otherwise the base delay doubled at each attempt), so that the
    total wait is the sum of the three delays, and then fails with
    [Request failed after maximum retries]: the success a fourth
    attempt would get is not reached.  When only the first two attempts
    get 429 and the third succeeds, the operation returns that one
    result after 3 attempts and the two computed delays. *)
Theorem C4_rate_limit_backoff {T} (fetch : nat → FetchResult T)
    (r0 r1 : Response.t T) :
  fetch 0%nat = Resolved r0 → Response.status r0 = 429%Z →
  fetch 1%nat = Resolved r1 → Response.status r1 = 429%Z →
  let d0 := rateLimitDelay (Response.retryAfter r0) 0 in
  let d1 := rateLimitDelay (Response.retryAfter r1) 1 in
  (∀ r2, fetch 2%nat = Resolved r2 → Response.status r2 = 429%Z →
     let d2 := rateLimitDelay (Response.retryAfter r2) 2 in
     let out := makeRequest fetch in
     out = (inl (Error.mk "Request failed after maximum retries"),
            [Fetch 0; Delay d0; Fetch 1; Delay d1; Fetch 2; Delay d2]) ∧
     attempts out.2 = 3%nat ∧
     waits out.2 = [d0; d1; d2] ∧
     totalWait out.2 = number_add d0 (number_add d1 d2)) ∧
  (∀ r2 value, fetch 2%nat = Resolved r2 → Response.ok r2 = true →
     Response.json r2 = inr value →
     let out := makeRequest fetch in
     out = (inr value, [Fetch 0; Delay d0; Fetch 1; Delay d1; Fetch 2]) ∧
     attempts out.2 = 3%nat ∧
     totalWait out.2 = number_add d0 d1).
Proof.
  intros Hf0 Hs0 Hf1 Hs1. cbv zeta. unfold makeRequest, MAX_RETRIES.
  rewrite (retryLoop_rate_limited _ _ _ _ _ r0) by done.
  rewrite (retryLoop_rate_limited _ _ _ _ _ r1) by done.
  split.
  - intros r2 Hf2 Hs2.
    rewrite (retryLoop_rate_limited _ _ _ _ _ r2) by done.
    rewrite retryLoop_done. simpl. split_and!; try done.
    unfold totalWait. simpl. by rewrite number_add_0_r.
  - intros r2 value Hf2 Hok Hj.
    rewrite (retryLoop_success _ _ _ _ _ r2 value) by done.
    simpl. split_and!; try done.
    unfold totalWait. simpl. by rewrite number_add_0_r.
Qed.

Lemma C4_rate_limit_backoff_witness :
  let r429 (header : option string) : Response.t Z :=
    Response.mk 429 header "slow down" (inl (Error.mk "not JSON")) in
  let fetch :=
    scripted [Resolved (r429 None); Resolved (r429 (Some "3"))]
             (Resolved (r429 None)) in
  makeRequest fetch
  = (inl (Error.mk "Request failed after maximum retries"),
     [Fetch 0; Delay (Num 1000); Fetch 1; Delay (Num 3000);
      Fetch 2; Delay (Num 4000)]) ∧
  totalWait (makeRequest fetch).2 = Num 8000.
Proof.
  cbv zeta.
  pose (r429 := λ header : option string,
          Response.mk (T:=Z) 429 header "slow down" (inl (Error.mk "not JSON"))).
  pose proof (C4_rate_limit_backoff
                (scripted [Resolved (r429 None); Resolved (r429 (Some "3"))]
                          (Resolved (r429 None)))
                (r429 None) (r429 (Some "3")) eq_refl eq_refl eq_refl eq_refl)
    as [Hfail _].
  destruct (Hfail (r429 None) eq_refl eq_refl) as (Hout & _ & _ & Hwait).
  split; [exact Hout|exact Hwait].
Defined.

(** ** The streaming request *)

(** *** Strings *)

Lemma string_app_cons c s t : String c s +:+ t = String c (s +:+ t).
Proof. reflexivity. Qed.

Lemma string_app_nil_l s : "" +:+ s = s.
Proof. reflexivity. Qed.

Lemma string_app_nil_r s : s +:+ "" = s.
Proof. induction s as [|c s IH]; [done|]. by rewrite string_app_cons, IH. Qed.

Lemma string_app_assoc s t u : (s +:+ t) +:+ u = s +:+ (t +:+ u).
Proof.
  induction s as [|c s IH]; [done|].
  by rewrite !string_app_cons, IH.
Qed.

Lemma splitLines_nonempty s : splitLines s ≠ [].
Proof.
  destruct s as [|c s]; simpl; [done|].
  case_decide; [done|]. by destruct (splitLines s).
Qed.

(** Splitting a text read in two pieces: the complete lines of the
    first piece, then the lines of its last, incomplete line followed
    by the second piece. *)
Lemma splitLines_app a b :
  splitLines (a +:+ b)
  = removelast (splitLines a) ++ splitLines (List.last (splitLines a) "" +:+ b).
Proof.
  induction a as [|c a IH]; [done|].
  rewrite string_app_cons. simpl splitLines.
  pose proof (splitLines_nonempty a) as Ha.
  case_decide.
  - rewrite IH. destruct (splitLines a) as [|l ls]; [done|]. done.
  - rewrite IH. destruct (splitLines a) as [|l [|l' ls]]; [done| |].
    + simpl. by rewrite decide_False by done.
    + done.
Qed.

Lemma splitLines_single s : freeOfNewline s = true → splitLines s = [s].
Proof.
  induction s as [|c s IH]; cbn [splitLines freeOfNewline]; [done|].
  intros [Hc Hs]%andb_prop. apply negb_true_iff, bool_decide_eq_false in Hc.
  by rewrite decide_False, IH.
Qed.

Lemma splitLines_last_free s : freeOfNewline (List.last (splitLines s) "") = true.
Proof.
  induction s as [|c s IH]; cbn [splitLines]; [done|].
  pose proof (splitLines_nonempty s) as Hs.
  case_decide.
  - destruct (splitLines s); [done|]. exact IH.
  - destruct (splitLines s) as [|l [|l' ls]]; [done| |exact IH].
    cbn [List.last freeOfNewline] in *. rewrite IH.
    by rewrite bool_decide_eq_false_2.
Qed.



Section stream_facts.
Variable JSON_parse : string → option StreamChunk.t.

Lemma forLines_app l1 l2 :
  forLines JSON_parse (l1 ++ l2)
  = let '(y1, returned) := forLines JSON_parse l1 in
    if returned then (y1, true)
    else let '(y2, r2) := forLines JSON_parse l2 in (y1 ++ y2, r2).
Proof.
  induction l1 as [|line l1 IH]; simpl.
  - by destruct (forLines JSON_parse l2).
  - destruct (handleLine JSON_parse line); try done.
    rewrite IH. destruct (forLines JSON_parse l1) as [y1 [|]]; [done|].
    by destruct (forLines JSON_parse l2).
Qed.

(** The generator does not depend on how the text is cut into chunks:
    it runs the line loop over the complete lines of the whole text. *)
Lemma readLoop_lines chunks failure buffer :
  freeOfNewline buffer = true →
  readLoop JSON_parse chunks failure buffer
  = let '(yielded, returned) :=
      forLines JSON_parse (removelast (splitLines (buffer +:+ textOf chunks))) in
    Stream.mk yielded
      (if returned then Returned
       else match failure with None => Returned | Some e => Threw e end).
Proof.
  revert buffer. induction chunks as [|value chunks IH]; intros buffer Hbuffer.
  - cbn [readLoop textOf foldr].
    rewrite string_app_nil_r, splitLines_single by done. simpl.
    by destruct failure.
  - simpl readLoop. simpl textOf.
    rewrite <- string_app_assoc, (splitLines_app (buffer +:+ value)).
    rewrite removelast_app by apply splitLines_nonempty.
    rewrite forLines_app.
    destruct (forLines JSON_parse (removelast (splitLines (buffer +:+ value))))
      as [y1 [|]]; [done|].
    rewrite IH by apply splitLines_last_free.
    by destruct (forLines JSON_parse _) as [y2 r2].
Qed.
End stream_facts.

(** *** Lines *)

Section line_facts.
Variable JSON_parse : string → option StreamChunk.t.

Lemma prefix_nil s : String.prefix "" s = true.
Proof. by destruct s. Qed.

(** What the loop body does with a [data:] line. *)
Lemma handleLine_data payload :
  handleLine JSON_parse (dataLine payload)
  = if decide (payload = "[DONE]") then Finish
    else match JSON_parse payload with
         | None => ParseFailure
         | Some chunk =>
             match chunkToken chunk with
             | Some content => Yield content
             | None => Ignore
             end
         end.
Proof.
  unfold handleLine, dataLine, startsWith.
  change ("data: " +:+ payload)
    with (String "d" (String "a" (String "t" (String "a" (String ":"
           (String " " payload)))))).
  cbn [isBlank isWhiteSpace slice String.prefix].
  replace (isWhiteSpace "d") with false by done. cbn [andb].
  destruct (ascii_dec ":" "d") as [|_]; [done|].
  repeat (destruct (ascii_dec _ _) as [_|]; [|done]).
  rewrite prefix_nil.
  case_decide; [done|].
  destruct (JSON_parse payload) as [[[[|[[[[content|]]|]] ?]|]]|]; try done.
  unfold chunkToken. simpl. by case_decide.
Qed.

Lemma handleLine_yields_nonempty line content :
  handleLine JSON_parse line = Yield content → content ≠ "".
Proof.
  unfold handleLine. intros H.
  repeat (case_match; try done). by simplify_eq.
Qed.

Lemma forLines_yields_nonempty lines :
  Forall (λ token, token ≠ "") (forLines JSON_parse lines).1.
Proof.
  induction lines as [|line lines IH]; simpl; [done|].
  destruct (handleLine JSON_parse line) eqn:Hline; try done.
  destruct (forLines JSON_parse lines) as [yielded returned]. simpl in *.
  constructor; [|done]. by eapply handleLine_yields_nonempty.
Qed.



End line_facts.

(** *** The whole generator *)

Section streamChat_facts.
Variable JSON_parse : string → option StreamChunk.t.


(** On a response that is not 2xx the streaming request throws at
    once: it has no retry loop. *)
Lemma streamChat_api_error response :
  StreamResponse.ok response = false →
  streamChat JSON_parse (inr response)
  = Stream.mk []
      (Threw (apiError (StreamResponse.status response)
                       (StreamResponse.text response))).
Proof. intros Hok. unfold streamChat. by rewrite Hok. Qed.

Lemma readLoop_yields_nonempty chunks failure buffer :
  Forall (λ token, token ≠ "")
    (Stream.yielded (readLoop JSON_parse chunks failure buffer)).
Proof.
  revert buffer. induction chunks as [|value chunks IH]; intros buffer.
  - simpl. by destruct failure.
  - cbn [readLoop].
    pose proof (forLines_yields_nonempty JSON_parse
                  (removelast (splitLines (buffer +:+ value)))) as Hlines.
    destruct (forLines JSON_parse _) as [yielded [|]]; [done|].
    cbn [Stream.yielded]. apply Forall_app. split; [done|apply IH].
Qed.
End streamChat_facts.



(** [C9].  Every token the streaming request yields is a non-empty
    string, whatever the response; a data line whose fragment decodes
    to an absent or empty content is consumed without a yield; so the
    chunk events an engine task receives from the request never carry
    an empty text. *)
Theorem C9_yielded_tokens_are_nonempty
    (JSON_parse : string → option StreamChunk.t)
    (fetched : Error.t + StreamResponse.t) (task : nat) (model : string) :
  Forall (λ token, token ≠ "") (Stream.yielded (streamChat JSON_parse fetched)) ∧
  (∀ payload chunk,
     JSON_parse payload = Some chunk → chunkToken chunk = None →
     handleLine JSON_parse (dataLine payload) ≠ ParseFailure ∧
     (∀ token, handleLine JSON_parse (dataLine payload) ≠ Yield token)) ∧
  Forall (λ e, match e with Chunk _ _ chunk => chunk ≠ "" | _ => True end)
    (taskEvents task model (streamChat JSON_parse fetched)).
Proof.
  assert (Forall (λ token, token ≠ "")
            (Stream.yielded (streamChat JSON_parse fetched))) as Hyielded.
  { unfold streamChat. destruct fetched as [e|response]; [done|].
    destruct (negb _); [done|].
    destruct (StreamResponse.body response); [|done].
    apply readLoop_yields_nonempty. }
  split_and!.
  - exact Hyielded.
  - intros payload chunk Hparse Htoken. rewrite handleLine_data, Hparse, Htoken.
    by case_decide.
  - unfold taskEvents. apply Forall_app. split.
    + by apply Forall_map.
    + constructor; [|done]. by destruct (Stream.ending _).
Qed.

(** ** Request bodies *)

(** With a temperature other than 0 the request carries the profile's
    settings and the model's id. *)
Lemma requestFor_carries_profile profile conversation model :
  validProfile profile → ¬ (Profile.temperature profile == 0)%Q →
  let body := requestFor profile conversation model in
  RequestBody.temperature body = Profile.temperature profile ∧
  RequestBody.max_tokens body = Profile.maxTokens profile ∧
  RequestBody.model body = model ∧
  RequestBody.messages body = conversationForModel conversation model ∧
  RequestBody.stream body = true.
Proof.
  intros (_ & _ & Hmax) Htemp. cbv zeta.
  unfold requestFor, streamChatBody, profileOptions. simpl.
  split_and!; try done.
  - destruct (Qeq_bool (Profile.temperature profile) 0) eqn:E; [|done].
    by apply Qeq_bool_iff in E.
  - destruct (Z.eqb_spec (Profile.maxTokens profile) 0); [lia|done].
Qed.

(** [C7] fails at temperature 0: [options.temperature || 0.7] takes 0
    for a missing value, so the request of a valid profile whose
    temperature is 0 carries 0.7 instead, in every request the engines
    open. *)
Theorem C7_temperature_zero_sends_default
    (models : list string) (maxTokens : Z)
    (conversation : list ChatMessage.t) (model content : string)
    (activeModels : list string) :
  let profile := Profile.mk models 0 maxTokens in
  let body := requestFor profile conversation model in
  RequestBody.temperature body = (7 # 10)%Q ∧
  ¬ (RequestBody.temperature body == Profile.temperature profile)%Q ∧
  RequestBody.model body = model ∧
  Forall (λ body, RequestBody.temperature body = (7 # 10)%Q)
    (ParallelChat.requests
       (ParallelChat.start conversation profile activeModels content)).
Proof.
  cbv zeta. split_and!; try done.
  unfold ParallelChat.start. cbn. by apply Forall_map, Forall_true.
Qed.

(** ** The model directory *)

(** [getModels] never throws: an error of [makeRequest] is caught and
    turned into the empty list. *)
Lemma getModels_never_throws fetch : ∃ models, (getModels fetch).1 = inr models.
Proof.
  unfold getModels. destruct (makeRequest fetch) as [[e|response] trace];
    eexists; reflexivity.
Qed.

(** A fresh cache is served without a fetch. *)
Lemma fetchModels_cached self now fetchedAt fetch :
  ModelManager.cacheIsFresh self now = true →
  ModelManager.fetchModels self false now fetchedAt fetch
  = (inr (ModelManager.models self), self, []).
Proof. intros Hfresh. unfold ModelManager.fetchModels. by rewrite Hfresh. Qed.

(** The cache is fresh when it was filled less than 5 minutes ago. *)
Lemma cacheIsFresh_iff self now :
  ModelManager.cacheIsFresh self now = true ↔
  ∃ fetchedAt, ModelManager.lastFetch self = Some fetchedAt ∧
               fetchedAt ≠ 0%Z ∧ (now - fetchedAt < 300000)%Z.
Proof.
  unfold ModelManager.cacheIsFresh, ModelManager.cacheTimeout.
  destruct (ModelManager.lastFetch self) as [t|].
  - rewrite andb_true_iff, negb_true_iff, Z.eqb_neq, Z.ltb_lt.
    split; [intros [? ?]; eauto|intros (? & [= <-] & ? & ?); done].
  - split; [done|intros (? & ? & _); done].
Qed.

(** Otherwise, or on a forced refresh, the directory goes to the
    transport, whose first effect is an HTTP attempt. *)
Lemma fetchModels_refetches self force now fetchedAt fetch :
  force = true ∨ ModelManager.cacheIsFresh self now = false →
  ∃ rest, (ModelManager.fetchModels self force now fetchedAt fetch).2
          = Fetch 0 :: rest.
Proof.
  intros Hstale. unfold ModelManager.fetchModels.
  assert (negb force && ModelManager.cacheIsFresh self now = false) as ->
    by (destruct Hstale as [->| ->]; [done|by rewrite andb_false_r]).
  unfold getModels, makeRequest, MAX_RETRIES.
  destruct (retryLoop_first_attempt fetch 2 0 None []) as [rest Hrest].
  destruct (retryLoop fetch 3 0 None []) as [[e|response] trace];
    simpl in *; subst; eauto.
Qed.

(** [C8] fails on a failing fetch: [getModels] swallows the error, so
    the [catch] clause of [fetchModels] is never reached.  When every
    attempt of the transport is rejected, a forced refresh returns the
    empty list as a result, stores it as the cached list with a new
    time stamp, and the next call within the 5 minutes serves that
    empty list from the cache. *)
Theorem C8_fetch_failure_returns_empty_list
    (self : ModelManager.t) (e : Error.t) (now fetchedAt : Z) :
  let failing : nat → FetchResult ModelsResponse.t := λ _, Rejected e in
  let poisoned := ModelManager.mk [] (Some fetchedAt) in
  ModelManager.fetchModels self true now fetchedAt failing
  = (inr [], poisoned,
     [Fetch 0; Delay (Num 1000); Fetch 1; Delay (Num 2000); Fetch 2]) ∧
  (∀ later fetchedLater fetch,
     fetchedAt ≠ 0%Z → (later - fetchedAt < 300000)%Z →
     ModelManager.fetchModels poisoned false later fetchedLater fetch
     = (inr [], poisoned, [])) ∧
  (∀ force later fetchedLater fetch,
     ∃ models, (ModelManager.fetchModels self force later fetchedLater fetch).1.1
               = inr models).
Proof.
  cbv zeta. split_and!; [reflexivity| |].
  - intros later fetchedLater fetch Hne Hlt. apply fetchModels_cached.
    apply cacheIsFresh_iff. by exists fetchedAt.
  - intros force later fetchedLater fetch. unfold ModelManager.fetchModels.
    destruct (negb force && _); [by eexists|].
    destruct (getModels_never_throws fetch) as [models Hm].
    destruct (getModels fetch) as [[e'|ms] trace]; simpl in *; [done|by eexists].
Qed.

(** ** The parallel engine *)

Lemma accumulate_textOf fullResponse chunks :
  accumulate fullResponse chunks = fullResponse +:+ textOf chunks.
Proof.
  revert fullResponse. induction chunks as [|chunk chunks IH]; intros f; simpl.
  - by rewrite string_app_nil_r.
  - unfold accumulate in *. rewrite IH. apply string_app_assoc.
Qed.

(** *** Independent events commute *)

Lemma step_commute e1 e2 s :
  independent e1 e2 →
  ParallelChat.step (ParallelChat.step s e1) e2
  = ParallelChat.step (ParallelChat.step s e2) e1.
Proof.
  intros (Htask & Hmodel & Hclosed). destruct s as [conv resp streaming ts reqs].
  unfold ParallelChat.step.
  destruct e1 as [i m c|i m|i m x], e2 as [j n d|j n|j n y]; simpl in *;
    try done;
    destruct (ts !! i) as [[f1 [o1|]]|] eqn:E1;
    destruct (ts !! j) as [[f2 [o2|]]|] eqn:E2; simpl;
    rewrite ?list_lookup_insert_ne by done; rewrite ?E1, ?E2; simpl;
    try done;
    f_equal;
    try (by apply insert_insert_ne);
    try (by apply list_insert_insert_ne).
Qed.

Lemma run_app s l1 l2 :
  ParallelChat.run s (l1 ++ l2) = ParallelChat.run (ParallelChat.run s l1) l2.
Proof. apply foldl_app. Qed.

Lemma run_cons s e l :
  ParallelChat.run s (e :: l) = ParallelChat.run (ParallelChat.step s e) l.
Proof. reflexivity. Qed.

(** Folding a step function whose independent events commute. *)
Section commuting_events.
Context {S E : Type} (step : S → E → S) (indep : E → E → Prop).
Hypothesis step_commutes :
  ∀ e1 e2 s, indep e1 e2 → step (step s e1) e2 = step (step s e2) e1.

(** An event moves past events it is independent of. *)
Lemma foldl_move x l rest s :
  Forall (λ a, indep a x) l →
  foldl step s (x :: l ++ rest) = foldl step s (l ++ x :: rest).
Proof.
  intros Hl. revert s. induction Hl as [|a l Ha _ IH]; intros s; [done|].
  cbn [app foldl]. rewrite <- step_commutes by done. apply (IH (step s a)).
Qed.

(** A schedule of two sequences of mutually independent events does
    what the first sequence followed by the second does. *)
Lemma foldl_interleave la lb schedule s :
  interleave la lb schedule →
  Forall (λ a, Forall (indep a) lb) la →
  foldl step s schedule = foldl step s (la ++ lb).
Proof.
  intros Hi. revert s. induction Hi as [|x l1 l2 l _ IH|x l1 l2 l _ IH];
    intros s Hind.
  - done.
  - apply Forall_cons in Hind as [_ Hind]. cbn [app foldl]. apply IH, Hind.
  - cbn [foldl]. rewrite IH.
    + apply (foldl_move x l1 l2 s).
      eapply Forall_impl; [exact Hind|]. by intros a [? _]%Forall_cons.
    + eapply Forall_impl; [exact Hind|]. by intros a [_ ?]%Forall_cons.
Qed.
End commuting_events.

Lemma run_interleave la lb schedule s :
  interleave la lb schedule →
  Forall (λ a, Forall (independent a) lb) la →
  ParallelChat.run s schedule = ParallelChat.run s (la ++ lb).
Proof.
  apply (foldl_interleave ParallelChat.step independent).
  intros e1 e2 s'. apply step_commute.
Qed.

(** *** One task at a time *)

(** The chunks of a stream, delivered to a task that has not settled
    and whose entry of [responses] holds its [fullResponse]. *)
Lemma run_chunks chunks s i m f :
  ParallelChat.tasks s !! i = Some (Task.mk f None) →
  ParallelChat.responses s !! m = Some f →
  ParallelChat.run s (map (Chunk i m) chunks)
  = {| ParallelChat.conversation := ParallelChat.conversation s;
       ParallelChat.responses :=
         <[m := accumulate f chunks]> (ParallelChat.responses s);
       ParallelChat.streamingState := ParallelChat.streamingState s;
       ParallelChat.tasks :=
         <[i := Task.mk (accumulate f chunks) None]> (ParallelChat.tasks s);
       ParallelChat.requests := ParallelChat.requests s |}.
Proof.
  revert s f. induction chunks as [|chunk chunks IH]; intros s f Htask Hresp.
  - destruct s. simpl in *. by rewrite insert_id, list_insert_id.
  - cbn [map]. rewrite run_cons.
    assert (i < length (ParallelChat.tasks s))%nat by by eapply lookup_lt_Some.
    unfold ParallelChat.step at 1. cbn [eventTask]. rewrite Htask.
    rewrite (IH _ (f +:+ chunk)); cbn.
    + by rewrite insert_insert_eq, list_insert_insert_eq.
    + by apply list_lookup_insert_eq.
    + by apply lookup_insert_eq.
Qed.

(** All the events of a task whose stream returns. *)
Lemma run_task_returned s i m stream :
  ParallelChat.tasks s !! i = Some (Task.mk "" None) →
  ParallelChat.responses s !! m = Some "" →
  Stream.ending stream = Returned →
  let content := textOf (Stream.yielded stream) in
  ParallelChat.run s (taskEvents i m stream)
  = {| ParallelChat.conversation :=
         ParallelChat.conversation s ++ [assistantMessage content m];
       ParallelChat.responses := <[m := content]> (ParallelChat.responses s);
       ParallelChat.streamingState :=
         <[m := false]> (ParallelChat.streamingState s);
       ParallelChat.tasks :=
         <[i := Task.mk content (Some (Outcome.mk m content None))]>
           (ParallelChat.tasks s);
       ParallelChat.requests := ParallelChat.requests s |}.
Proof.
  intros Htask Hresp Hend. cbv zeta. unfold taskEvents.
  assert (i < length (ParallelChat.tasks s))%nat by by eapply lookup_lt_Some.
  rewrite Hend, run_app, (run_chunks _ _ _ _ "") by done.
  rewrite accumulate_textOf, string_app_nil_l.
  unfold ParallelChat.run, ParallelChat.step. cbn.
  rewrite list_lookup_insert_eq by done. cbn.
  by rewrite list_insert_insert_eq.
Qed.

(** All the events of a task whose stream throws: nothing is pushed,
    [responses] keeps what had arrived. *)
Lemma run_task_threw s i m stream e :
  ParallelChat.tasks s !! i = Some (Task.mk "" None) →
  ParallelChat.responses s !! m = Some "" →
  Stream.ending stream = Threw e →
  let partial := textOf (Stream.yielded stream) in
  ParallelChat.run s (taskEvents i m stream)
  = {| ParallelChat.conversation := ParallelChat.conversation s;
       ParallelChat.responses := <[m := partial]> (ParallelChat.responses s);
       ParallelChat.streamingState :=
         <[m := false]> (ParallelChat.streamingState s);
       ParallelChat.tasks :=
         <[i := Task.mk partial
                  (Some (Outcome.mk m "" (Some (Error.message e))))]>
           (ParallelChat.tasks s);
       ParallelChat.requests := ParallelChat.requests s |}.
Proof.
  intros Htask Hresp Hend. cbv zeta. unfold taskEvents.
  assert (i < length (ParallelChat.tasks s))%nat by by eapply lookup_lt_Some.
  rewrite Hend, run_app, (run_chunks _ _ _ _ "") by done.
  rewrite accumulate_textOf, string_app_nil_l.
  unfold ParallelChat.run, ParallelChat.step. cbn.
  rewrite list_lookup_insert_eq by done. cbn.
  by rewrite list_insert_insert_eq.
Qed.

(** *** The join *)

Lemma interleave_app_inv {A} (la lb delivered pending : list A) :
  interleave la lb (delivered ++ pending) →
  ∃ pa ra pb rb, la = pa ++ ra ∧ lb = pb ++ rb ∧
                 interleave pa pb delivered ∧ interleave ra rb pending.
Proof.
  revert la lb. induction delivered as [|x delivered IH]; intros la lb Hi.
  - exists [], la, [], lb. split_and!; [done|done|constructor|done].
  - simpl in Hi. inversion Hi as [|? l1 ? ? Hi'|? ? l2 ? Hi']; subst.
    + destruct (IH _ _ Hi') as (pa & ra & pb & rb & -> & -> & ? & ?).
      exists (x :: pa), ra, pb, rb. split_and!; try done. by constructor.
    + destruct (IH _ _ Hi') as (pa & ra & pb & rb & -> & -> & ? & ?).
      exists pa, ra, (x :: pb), rb. split_and!; try done. by constructor.
Qed.


Lemma interleave_nil_inv {A} (la lb : list A) :
  interleave la lb [] → la = [] ∧ lb = [].
Proof. by inversion 1. Qed.




Lemma taskEvents_task i m stream :
  Forall (λ e, eventTask e = i ∧ eventModel e = m) (taskEvents i m stream).
Proof.
  unfold taskEvents. apply Forall_app. split.
  - by apply Forall_map, Forall_true.
  - constructor; [|done]. by destruct (Stream.ending stream).
Qed.


(** *** A turn over two models *)

Lemma taskEvents_independent A B streamA streamB :
  A ≠ B →
  Stream.ending streamA ≠ Returned ∨ Stream.ending streamB ≠ Returned →
  Forall (λ a, Forall (independent a) (taskEvents 1 B streamB))
    (taskEvents 0 A streamA).
Proof.
  intros HAB Hend.
  assert (∀ a b, a ∈ taskEvents 0 A streamA → b ∈ taskEvents 1 B streamB →
                 independent a b) as Hind; [|
    apply Forall_forall; intros a Ha; apply Forall_forall; intros b Hb; auto].
  intros a b Ha Hb.
  pose proof (taskEvents_task 0 A streamA) as HtA.
  pose proof (taskEvents_task 1 B streamB) as HtB.
  eapply Forall_forall in HtA as [Ha1 Ha2]; [|exact Ha].
  eapply Forall_forall in HtB as [Hb1 Hb2]; [|exact Hb].
  split_and!; [congruence|congruence|].
  unfold taskEvents in Ha, Hb.
  apply elem_of_app in Ha as [Ha|Ha%list_elem_of_singleton].
  { apply list_elem_of_fmap in Ha as (? & -> & _). done. }
  apply elem_of_app in Hb as [Hb|Hb%list_elem_of_singleton].
  { apply list_elem_of_fmap in Hb as (? & -> & _). apply andb_false_r. }
  subst. destruct Hend as [Hend|Hend].
  - by destruct (Stream.ending streamA).
  - destruct (Stream.ending streamB); [done|apply andb_false_r].
Qed.

Lemma start_two_models conversation profile A B content :
  let s := ParallelChat.start conversation profile [A; B] content in
  ParallelChat.conversation s = conversation ++ [userMessage content] ∧
  ParallelChat.tasks s = [Task.mk "" None; Task.mk "" None] ∧
  ParallelChat.responses s = <[B := ""]> (<[A := ""]> ∅) ∧
  ParallelChat.streamingState s = <[B := true]> (<[A := true]> ∅).
Proof. done. Qed.




(** *** Any two streams *)

(** All the events of a task, whatever the ending of its stream. *)
Lemma run_task s i m stream :
  ParallelChat.tasks s !! i = Some (Task.mk "" None) →
  ParallelChat.responses s !! m = Some "" →
  let text := textOf (Stream.yielded stream) in
  ParallelChat.run s (taskEvents i m stream)
  = {| ParallelChat.conversation :=
         ParallelChat.conversation s ++ taskReply m stream;
       ParallelChat.responses := <[m := text]> (ParallelChat.responses s);
       ParallelChat.streamingState :=
         <[m := false]> (ParallelChat.streamingState s);
       ParallelChat.tasks :=
         <[i := Task.mk text (Some (taskOutcome m stream))]>
           (ParallelChat.tasks s);
       ParallelChat.requests := ParallelChat.requests s |}.
Proof.
  intros Htask Hresp. cbv zeta. unfold taskReply, taskOutcome.
  destruct (Stream.ending stream) as [|e] eqn:Hend.
  - by rewrite run_task_returned.
  - rewrite (run_task_threw _ _ _ _ e) by done. by rewrite app_nil_r.
Qed.

(** The two sequential orders of a turn over [A] and [B]. *)
Lemma run_A_then_B conversation profile A B content streamA streamB :
  A ≠ B →
  let s := ParallelChat.start conversation profile [A; B] content in
  let textA := textOf (Stream.yielded streamA) in
  let textB := textOf (Stream.yielded streamB) in
  ParallelChat.run s (taskEvents 0 A streamA ++ taskEvents 1 B streamB)
  = {| ParallelChat.conversation :=
         ((conversation ++ [userMessage content]) ++ taskReply A streamA)
         ++ taskReply B streamB;
       ParallelChat.responses :=
         <[B := textB]> (<[A := textA]> (<[B := ""]> (<[A := ""]> ∅)));
       ParallelChat.streamingState :=
         <[B := false]> (<[A := false]> (<[B := true]> (<[A := true]> ∅)));
       ParallelChat.tasks :=
         [Task.mk textA (Some (taskOutcome A streamA));
          Task.mk textB (Some (taskOutcome B streamB))];
       ParallelChat.requests := ParallelChat.requests s |}.
Proof.
  intros HAB. cbv zeta. rewrite run_app.
  rewrite (run_task _ 0 A streamA); [|done|].
  2:{ cbn. by rewrite lookup_insert_ne, lookup_insert_eq. }
  rewrite (run_task _ 1 B streamB); [done|done|].
  cbn. by rewrite lookup_insert_ne, lookup_insert_eq.
Qed.

Lemma run_B_then_A conversation profile A B content streamA streamB :
  A ≠ B →
  let s := ParallelChat.start conversation profile [A; B] content in
  let textA := textOf (Stream.yielded streamA) in
  let textB := textOf (Stream.yielded streamB) in
  ParallelChat.run s (taskEvents 1 B streamB ++ taskEvents 0 A streamA)
  = {| ParallelChat.conversation :=
         ((conversation ++ [userMessage content]) ++ taskReply B streamB)
         ++ taskReply A streamA;
       ParallelChat.responses :=
         <[B := textB]> (<[A := textA]> (<[B := ""]> (<[A := ""]> ∅)));
       ParallelChat.streamingState :=
         <[B := false]> (<[A := false]> (<[B := true]> (<[A := true]> ∅)));
       ParallelChat.tasks :=
         [Task.mk textA (Some (taskOutcome A streamA));
          Task.mk textB (Some (taskOutcome B streamB))];
       ParallelChat.requests := ParallelChat.requests s |}.
Proof.
  intros HAB. cbv zeta. rewrite run_app.
  rewrite (run_task _ 1 B streamB); [|done|].
  2:{ cbn. by rewrite lookup_insert_eq. }
  rewrite (run_task _ 0 A streamA); [|done|].
  2:{ cbn. rewrite lookup_insert_ne by done.
      by rewrite lookup_insert_ne, lookup_insert_eq. }
  cbn. f_equal; by apply insert_insert_ne.
Qed.

(** *** Interleavings *)

Lemma interleave_sym {A} (la lb l : list A) :
  interleave la lb l → interleave lb la l.
Proof. induction 1; by constructor. Qed.

Lemma interleave_nil_r {A} (la l : list A) : interleave la [] l → l = la.
Proof.
  revert la. induction l as [|x l IH]; intros la Hi.
  - by apply interleave_nil_inv in Hi as [-> _].
  - inversion Hi; subst. f_equal. by apply IH.
Qed.

Lemma interleave_filter {A} (P : A → bool) (la lb l : list A) :
  interleave la lb l →
  interleave (List.filter P la) (List.filter P lb) (List.filter P l).
Proof.
  induction 1 as [|x l1 l2 l _ IH|x l1 l2 l _ IH]; simpl.
  - constructor.
  - destruct (P x); [by constructor|done].
  - destruct (P x); [by constructor|done].
Qed.

(** The last event of a schedule is the last event of one of the two
    tasks. *)
Lemma interleave_last_inv {A} (xs ys s : list A) a b :
  interleave (xs ++ [a]) (ys ++ [b]) s →
  (∃ s', s = s' ++ [b] ∧ interleave (xs ++ [a]) ys s') ∨
  (∃ s', s = s' ++ [a] ∧ interleave xs (ys ++ [b]) s').
Proof.
  intros Hi. destruct s as [|z s' _] using rev_ind.
  { apply interleave_nil_inv in Hi as [Hx _]. by destruct xs. }
  apply interleave_app_inv in Hi as (pa & ra & pb & rb & Ha & Hb & Hd & Hp).
  inversion Hp as [|? ? ? ? Hp'|? ? ? ? Hp']; subst;
    apply interleave_nil_inv in Hp' as [-> ->].
  - apply app_inj_tail in Ha as [-> ->]. rewrite app_nil_r in Hb. subst pb.
    right. by exists s'.
  - apply app_inj_tail in Hb as [-> ->]. rewrite app_nil_r in Ha. subst pa.
    left. by exists s'.
Qed.

Lemma events_independent la lb i m j n :
  i ≠ j → m ≠ n →
  Forall (λ e, eventTask e = i ∧ eventModel e = m) la →
  Forall (λ e, eventTask e = j ∧ eventModel e = n ∧ isClosed e = false) lb →
  Forall (λ a, Forall (independent a) lb) la.
Proof.
  intros Hij Hmn Hla Hlb.
  eapply Forall_impl; [exact Hla|]. intros a [Ha1 Ha2]. cbn beta.
  eapply Forall_impl; [exact Hlb|]. intros b (Hb1 & Hb2 & Hb3). cbn beta.
  split_and!; [congruence|congruence|]. rewrite Hb3. apply andb_false_r.
Qed.

Lemma chunks_not_closed j n chunks :
  Forall (λ e, eventTask e = j ∧ eventModel e = n ∧ isClosed e = false)
    (map (Chunk j n) chunks).
Proof. by apply Forall_map, Forall_true. Qed.

Lemma completions_chunks j n chunks : completions (map (Chunk j n) chunks) = [].
Proof. unfold completions. by induction chunks. Qed.

Lemma completions_app l1 l2 :
  completions (l1 ++ l2) = completions l1 ++ completions l2.
Proof. apply List.filter_app. Qed.

(** A schedule in which the stream of the second task is the last to
    end does what the first task followed by the second does. *)
Lemma run_closed_last s i m j n stream chunks schedule :
  i ≠ j → m ≠ n →
  interleave (taskEvents i m stream) (map (Chunk j n) chunks) schedule →
  ParallelChat.run s (schedule ++ [Closed j n])
  = ParallelChat.run s
      (taskEvents i m stream ++ map (Chunk j n) chunks ++ [Closed j n]) ∧
  completions (schedule ++ [Closed j n])
  = completions (taskEvents i m stream) ++ [Closed j n].
Proof.
  intros Hij Hmn Hi. split.
  - rewrite run_app, (run_interleave _ _ _ _ Hi).
    + by rewrite <- run_app, <- app_assoc.
    + eapply events_independent;
        [exact Hij|exact Hmn|apply taskEvents_task|apply chunks_not_closed].
  - rewrite completions_app. f_equal.
    apply (interleave_filter isClosed) in Hi.
    fold (completions (map (Chunk j n) chunks)) in Hi.
    rewrite completions_chunks in Hi. by apply interleave_nil_r in Hi.
Qed.

Lemma completions_returned i m stream :
  Stream.ending stream = Returned →
  completions (taskEvents i m stream) = [Closed i m].
Proof.
  intros Hend. unfold taskEvents.
  by rewrite completions_app, completions_chunks, Hend.
Qed.

(** Every schedule of a turn over two models does what one of the two
    sequential orders does; when both streams return it is the order
    in which they end. *)
Lemma run_two_tasks s A B streamA streamB schedule :
  A ≠ B →
  interleave (taskEvents 0 A streamA) (taskEvents 1 B streamB) schedule →
  (ParallelChat.run s schedule
   = ParallelChat.run s (taskEvents 0 A streamA ++ taskEvents 1 B streamB) ∧
   (Stream.ending streamA = Returned → Stream.ending streamB = Returned →
    completions schedule = [Closed 0 A; Closed 1 B])) ∨
  (ParallelChat.run s schedule
   = ParallelChat.run s (taskEvents 1 B streamB ++ taskEvents 0 A streamA) ∧
   Stream.ending streamA = Returned ∧ Stream.ending streamB = Returned ∧
   completions schedule = [Closed 1 B; Closed 0 A]).
Proof.
  intros HAB Hi.
  destruct (Stream.ending streamA) as [|eA] eqn:HendA;
    [destruct (Stream.ending streamB) as [|eB] eqn:HendB|].
  - (* both return: the last event decides *)
    pose proof Hi as Hi'. unfold taskEvents in Hi'. rewrite HendA, HendB in Hi'.
    apply interleave_last_inv in Hi' as [(s' & -> & Hs')|(s' & -> & Hs')].
    + left.
      assert (interleave (taskEvents 0 A streamA)
                (map (Chunk 1 B) (Stream.yielded streamB)) s') as Hs
        by (unfold taskEvents; by rewrite HendA).
      destruct (run_closed_last s 0 A 1 B streamA _ _ ltac:(done) HAB Hs)
        as [Hrun Hcompl].
      split.
      * rewrite Hrun. unfold taskEvents at 3. by rewrite HendB.
      * intros _ _. by rewrite Hcompl, completions_returned.
    + right.
      assert (interleave (taskEvents 1 B streamB)
                (map (Chunk 0 A) (Stream.yielded streamA)) s') as Hs
        by (unfold taskEvents; rewrite HendB; by apply interleave_sym).
      destruct (run_closed_last s 1 B 0 A streamB _ _ ltac:(done)
                  ltac:(congruence) Hs) as [Hrun Hcompl].
      split_and!; try done.
      * rewrite Hrun. unfold taskEvents at 3. by rewrite HendA.
      * by rewrite Hcompl, completions_returned.
  - left. split; [|done].
    apply run_interleave; [done|]. apply taskEvents_independent; [done|].
    right. by rewrite HendB.
  - left. split; [|done].
    apply run_interleave; [done|]. apply taskEvents_independent; [done|].
    left. by rewrite HendA.
Qed.

(** *** The order of completion *)

Lemma taskReply_view M model stream :
  filter (keptFor M) (taskReply model stream)
  = if decide (M = model) then taskReply model stream else [].
Proof.
  unfold taskReply. destruct (Stream.ending stream); [|by case_decide].
  rewrite filter_cons, filter_nil. unfold keptFor. cbn.
  destruct (decide (M = model)) as [->|Hne].
  - rewrite decide_True; [done|by right].
  - rewrite decide_False; [done|]. intros [?|?]; congruence.
Qed.

(** [C6], as stated, fails: each task pushes its reply when its own
    stream ends, so the two replies stand in the conversation in the
    order of completion.  The same two streams, [A] ending first and
    [B] ending first, give two different conversations. *)
Lemma C6_replies_stand_in_completion_order :
  let profile := Profile.mk ["a/x"; "b/y"] (1 # 2) 100 in
  let eventsA := taskEvents 0 "a/x" (Stream.mk ["x"] Returned) in
  let eventsB := taskEvents 1 "b/y" (Stream.mk ["y"] Returned) in
  let s := ParallelChat.start [] profile ["a/x"; "b/y"] "hi" in
  interleave eventsA eventsB (eventsA ++ eventsB) ∧
  interleave eventsA eventsB (eventsB ++ eventsA) ∧
  ParallelChat.conversation (ParallelChat.run s (eventsA ++ eventsB))
  = [userMessage "hi"; assistantMessage "x" "a/x"; assistantMessage "y" "b/y"] ∧
  ParallelChat.conversation (ParallelChat.run s (eventsB ++ eventsA))
  = [userMessage "hi"; assistantMessage "y" "b/y"; assistantMessage "x" "a/x"] ∧
  ParallelChat.conversation (ParallelChat.run s (eventsA ++ eventsB))
  ≠ ParallelChat.conversation (ParallelChat.run s (eventsB ++ eventsA)).
Proof.
  cbv zeta. split_and!; [repeat constructor|repeat constructor|done|done|].
  by vm_compute.
Qed.

(** [C6], amended.  For every turn of the parallel engine over two
    models [A] and [B], and any two orders in which the events of
    their streams are delivered: the two final conversations hold the
    same messages (they are permutations of one another, the replies of
    the turn standing in the order of completion), every per-model
    view of the two is identical, the accumulated responses, the
    streaming flags and the outcomes of the turn are identical, and when
    the streams end in the same order the two final states are
    identical, whatever the order of the chunks. *)
Theorem C6_completion_order
    (conversation : list ChatMessage.t) (profile : Profile.t)
    (content A B : string) (streamA streamB : Stream.t)
    (schedule1 schedule2 : list Event) :
  A ≠ B →
  interleave (taskEvents 0 A streamA) (taskEvents 1 B streamB) schedule1 →
  interleave (taskEvents 0 A streamA) (taskEvents 1 B streamB) schedule2 →
  let s := ParallelChat.start conversation profile [A; B] content in
  let final1 := ParallelChat.run s schedule1 in
  let final2 := ParallelChat.run s schedule2 in
  ParallelChat.conversation final1 ≡ₚ ParallelChat.conversation final2 ∧
  (∀ M, conversationForModel (ParallelChat.conversation final1) M
        = conversationForModel (ParallelChat.conversation final2) M) ∧
  ParallelChat.responses final1 = ParallelChat.responses final2 ∧
  ParallelChat.streamingState final1 = ParallelChat.streamingState final2 ∧
  ParallelChat.joined final1 = ParallelChat.joined final2 ∧
  (completions schedule1 = completions schedule2 → final1 = final2).
Proof.
  intros HAB Hi1 Hi2. cbv zeta.
  set (s := ParallelChat.start conversation profile [A; B] content).
  pose proof (run_A_then_B conversation profile A B content streamA streamB HAB)
    as HAB_run.
  pose proof (run_B_then_A conversation profile A B content streamA streamB HAB)
    as HBA_run.
  cbv zeta in HAB_run, HBA_run. fold s in HAB_run, HBA_run.
  assert (∀ base rA rB M,
            (rA = taskReply A streamA) → (rB = taskReply B streamB) →
            conversationForModel ((base ++ rA) ++ rB) M
            = conversationForModel ((base ++ rB) ++ rA) M) as Hview.
  { intros base rA rB M -> ->. unfold conversationForModel.
    rewrite !filter_app, !taskReply_view, <- !app_assoc. f_equal.
    repeat case_decide; subst; rewrite ?app_nil_r; done. }
  assert (∀ base rA rB : list ChatMessage.t,
            (base ++ rA) ++ rB ≡ₚ (base ++ rB) ++ rA) as Hperm.
  { intros. rewrite <- !app_assoc. f_equiv. apply Permutation_app_comm. }
  destruct (run_two_tasks s A B streamA streamB schedule1 HAB Hi1)
    as [[-> Hc1]|(-> & HendA & HendB & Hc1)];
  destruct (run_two_tasks s A B streamA streamB schedule2 HAB Hi2)
    as [[-> Hc2]|(-> & HendA' & HendB' & Hc2)];
    rewrite ?HAB_run, ?HBA_run; cbn;
    (split_and!; [done || (symmetry; apply Hperm) || apply Hperm
                 |intros M; done || (symmetry; by apply Hview) || by apply Hview
                 |done|done|done|]).
  - done.
  - rewrite Hc1, Hc2 by done. intros [= ?]. 
  - rewrite Hc1, Hc2 by done. intros [= ?].
  - done.
Qed.

Lemma C6_completion_order_witness :
  let profile := Profile.mk ["a/x"; "b/y"] (1 # 2) 100 in
  let streamA := Stream.mk ["x1"; "x2"] Returned in
  let streamB := Stream.mk ["y1"; "y2"] Returned in
  let s := ParallelChat.start [] profile ["a/x"; "b/y"] "hi" in
  let schedule1 :=
    [Chunk 0 "a/x" "x1"; Chunk 1 "b/y" "y1"; Chunk 0 "a/x" "x2";
     Closed 0 "a/x"; Chunk 1 "b/y" "y2"; Closed 1 "b/y"] in
  let schedule2 :=
    [Chunk 1 "b/y" "y1"; Chunk 1 "b/y" "y2"; Chunk 0 "a/x" "x1";
     Chunk 0 "a/x" "x2"; Closed 0 "a/x"; Closed 1 "b/y"] in
  ParallelChat.run s schedule1 = ParallelChat.run s schedule2.
Proof.
  cbv zeta.
  exact (proj2 (proj2 (proj2 (proj2 (proj2
    (C6_completion_order []
       (Profile.mk ["a/x"; "b/y"] (1 # 2) 100) "hi" "a/x" "b/y"
       (Stream.mk ["x1"; "x2"] Returned) (Stream.mk ["y1"; "y2"] Returned)
       [Chunk 0 "a/x" "x1"; Chunk 1 "b/y" "y1"; Chunk 0 "a/x" "x2";
        Closed 0 "a/x"; Chunk 1 "b/y" "y2"; Closed 1 "b/y"]
       [Chunk 1 "b/y" "y1"; Chunk 1 "b/y" "y2"; Chunk 0 "a/x" "x1";
        Chunk 0 "a/x" "x2"; Closed 0 "a/x"; Closed 1 "b/y"]
       ltac:(discriminate) ltac:(repeat constructor) ltac:(repeat constructor))))))
    eq_refl).
Defined.

(** ** Key obfuscation *)

(** *** Bytes and blocks *)






(** *** Hexadecimal text *)





(** *** The cipher in CBC mode *)

Section cbc_facts.
Variable aes256 : block → block.
Variable aes256_inverse : block → block.
Hypothesis aes256_inverts : ∀ b, aes256_inverse (aes256 b) = b.




End cbc_facts.

(** ** AES-256 *)

(** The cipher agrees with the example of FIPS 197, appendix C.3. *)
Example aes256_fips197_C3 :
  let block_of (s : string) : block :=
    default zeroBlock (head (takeBlocks (hexDecode s)).1) in
  let key := (block_of "000102030405060708090a0b0c0d0e0f",
              block_of "101112131415161718191a1b1c1d1e1f") in
  hexEncode (blockBytes (AES.cipher key (block_of "00112233445566778899aabbccddeeff")))
  = "8ea2b7ca516745bfeafc49904b496089".
Proof. vm_compute. reflexivity. Qed.









(** ** [encrypt] and [decrypt] *)


(** ** The Ink engine *)

Lemma ink_step_commute e1 e2 s :
  distinctTasks e1 e2 →
  InkChat.step (InkChat.step s e1) e2 = InkChat.step (InkChat.step s e2) e1.
Proof.
  intros [Htask Hmodel]. destruct s as [data ts reqs].
  unfold InkChat.step.
  destruct e1 as [i m c|i m|i m x], e2 as [j n d|j n|j n y]; simpl in *;
    destruct (ts !! i) as [[f1 [o1|]]|] eqn:E1;
    destruct (ts !! j) as [[f2 [o2|]]|] eqn:E2; simpl;
    rewrite ?list_lookup_insert_ne by done; rewrite ?E1, ?E2; simpl;
    try done;
    f_equal;
    try (by apply insert_insert_ne);
    try (by apply list_insert_insert_ne).
Qed.

Lemma ink_run_chunks chunks s i m f :
  InkChat.tasks s !! i = Some (InkTask.mk f None) →
  InkChat.tasks (InkChat.run s (map (Chunk i m) chunks))
  = <[i := InkTask.mk (accumulate f chunks) None]> (InkChat.tasks s).
Proof.
  revert s f. induction chunks as [|chunk chunks IH]; intros s f Htask.
  - cbn. by rewrite list_insert_id.
  - cbn [map]. unfold InkChat.run in *. cbn [foldl].
    assert (i < length (InkChat.tasks s))%nat by by eapply lookup_lt_Some.
    unfold InkChat.step at 2. cbn [eventTask]. rewrite Htask.
    rewrite (IH _ (f +:+ chunk)); cbn.
    + by rewrite list_insert_insert_eq.
    + by apply list_lookup_insert_eq.
Qed.

(** All the events of an Ink task: whatever the ending of its stream,
    its promise resolves to an entry. *)
Lemma ink_run_task s i m stream :
  InkChat.tasks s !! i = Some (InkTask.mk "" None) →
  InkChat.tasks (InkChat.run s (taskEvents i m stream))
  = <[i := InkTask.mk (textOf (Stream.yielded stream))
             (Some (inkOutcome m stream))]> (InkChat.tasks s).
Proof.
  intros Htask. unfold taskEvents, InkChat.run. rewrite foldl_app.
  fold (InkChat.run s (map (Chunk i m) (Stream.yielded stream))).
  pose proof (ink_run_chunks (Stream.yielded stream) s i m "" Htask) as Hchunks.
  assert (i < length (InkChat.tasks s))%nat by by eapply lookup_lt_Some.
  rewrite accumulate_textOf, string_app_nil_l in Hchunks.
  unfold inkOutcome.
  destruct (Stream.ending stream); cbn [foldl]; unfold InkChat.step;
    cbn [eventTask]; rewrite Hchunks, list_lookup_insert_eq by done; cbn;
    by rewrite list_insert_insert_eq.
Qed.

(** A turn of the Ink app over two models: whatever the order of the
    events, and whether the streams return or throw, the entries of
    both models are appended to the conversation, in the order of the
    models. *)
Lemma ink_turn_two_models conversation profile A B input streamA streamB schedule :
  A ≠ B →
  interleave (taskEvents 0 A streamA) (taskEvents 1 B streamB) schedule →
  InkChat.turn conversation profile [A; B] input schedule
  = Some (conversation ++
          [userMessage input;
           InkResponse.message (inkOutcome A streamA);
           InkResponse.message (inkOutcome B streamB)]).
Proof.
  intros HAB Hi. unfold InkChat.turn, InkChat.joined, InkChat.run.
  rewrite (foldl_interleave InkChat.step distinctTasks
             (λ e1 e2 s, ink_step_commute e1 e2 s) _ _ _ _ Hi).
  2:{ eapply Forall_impl; [apply (taskEvents_task 0 A streamA)|].
      intros a [Ha1 Ha2]. cbn beta.
      eapply Forall_impl; [apply (taskEvents_task 1 B streamB)|].
      intros b [Hb1 Hb2]. split; congruence. }
  rewrite foldl_app.
  fold (InkChat.run
          (InkChat.start (conversation ++ [userMessage input]) profile [A; B] input)
          (taskEvents 0 A streamA)).
  set (s1 := InkChat.run _ (taskEvents 0 A streamA)).
  fold (InkChat.run s1 (taskEvents 1 B streamB)).
  assert (InkChat.tasks s1
          = [InkTask.mk (textOf (Stream.yielded streamA))
               (Some (inkOutcome A streamA)); InkTask.mk "" None]) as Hs1.
  { unfold s1. by rewrite ink_run_task. }
  rewrite ink_run_task by (by rewrite Hs1). rewrite Hs1. cbn.
  unfold InkChat.handleComplete. by rewrite <- app_assoc.
Qed.

(** ** Further properties of the code *)

(** [X1].  In the Ink app a turn over two models appends to the
    conversation, once both tasks have settled, one entry per model in
    the order of the models, whatever the order in which the events of
    the streams are delivered; a model whose stream threw gets an
    assistant entry with an empty content. *)
Theorem X1_ink_turn_appends_every_entry
    (conversation : list ChatMessage.t) (profile : Profile.t)
    (A B input : string) (streamA streamB : Stream.t) (e : Error.t)
    (schedule : list Event) :
  A ≠ B →
  Stream.ending streamA = Threw e →
  interleave (taskEvents 0 A streamA) (taskEvents 1 B streamB) schedule →
  InkChat.turn conversation profile [A; B] input schedule
  = Some (conversation ++
          [userMessage input; assistantMessage "" A;
           InkResponse.message (inkOutcome B streamB)]).
Proof.
  intros HAB Hend Hi. rewrite (ink_turn_two_models _ _ _ _ _ streamA streamB) by done.
  unfold inkOutcome at 1. by rewrite Hend.
Qed.

Lemma X1_ink_turn_appends_every_entry_witness :
  InkChat.turn [] (Profile.mk ["a/x"; "b/y"] (1 # 2) 100) ["a/x"; "b/y"] "hi"
    [Chunk 1 "b/y" "Good "; Chunk 0 "a/x" "He";
     Failed 0 "a/x" "socket hang up"; Chunk 1 "b/y" "day"; Closed 1 "b/y"]
  = Some [userMessage "hi"; assistantMessage "" "a/x";
          assistantMessage "Good day" "b/y"].
Proof.
  exact (X1_ink_turn_appends_every_entry []
           (Profile.mk ["a/x"; "b/y"] (1 # 2) 100) "a/x" "b/y" "hi"
           (Stream.mk ["He"] (Threw (Error.mk "socket hang up")))
           (Stream.mk ["Good "; "day"] Returned) (Error.mk "socket hang up")
           [Chunk 1 "b/y" "Good "; Chunk 0 "a/x" "He";
            Failed 0 "a/x" "socket hang up"; Chunk 1 "b/y" "day";
            Closed 1 "b/y"]
           ltac:(discriminate) eq_refl ltac:(repeat constructor)).
Defined.

(** [X2].  The Ink app appends the user message to the conversation
    before the component runs, and the component pushes it once more:
    every request of the turn ends with the user message twice. *)
Theorem X2_ink_request_repeats_the_user_message
    (conversation : list ChatMessage.t) (profile : Profile.t)
    (models : list string) (input : string) :
  Forall (λ body,
            ∃ history,
              history `sublist_of` conversation ∧
              RequestBody.messages body
              = history ++ [userMessage input; userMessage input])
    (InkChat.requests
       (InkChat.start (conversation ++ [userMessage input]) profile models input)).
Proof.
  unfold InkChat.start. cbn. apply Forall_map, Forall_true. intros model.
  exists (filter (Ink.visibleTo model) conversation). split.
  - apply sublist_filter.
  - cbn. rewrite ink_view_history, filter_app, <- app_assoc. by f_equal.
Qed.

(** [X3].  What the streaming request yields depends on the text of
    the body only, not on how the transport cuts it into chunks. *)
Theorem X3_stream_is_independent_of_chunking
    (JSON_parse : string → option StreamChunk.t) (status : Z) (text : string)
    (chunks1 chunks2 : list string) (failure : option Error.t) :
  textOf chunks1 = textOf chunks2 →
  streamChat JSON_parse
    (inr (StreamResponse.mk status text (Some (Body.mk chunks1 failure))))
  = streamChat JSON_parse
      (inr (StreamResponse.mk status text (Some (Body.mk chunks2 failure)))).
Proof.
  intros Htext. unfold streamChat. cbn.
  destruct (negb _); [done|].
  by rewrite !readLoop_lines, Htext.
Qed.

Lemma X3_stream_is_independent_of_chunking_witness :
  streamChat sampleParse
    (inr (StreamResponse.mk 200 ""
            (Some (Body.mk ["data: [DO"; "NE]" +:+ String newline ""] None))))
  = streamChat sampleParse
      (inr (StreamResponse.mk 200 ""
              (Some (Body.mk ["data: [DONE]" +:+ String newline ""] None)))).
Proof.
  exact (X3_stream_is_independent_of_chunking sampleParse 200 ""
           ["data: [DO"; "NE]" +:+ String newline ""]
           ["data: [DONE]" +:+ String newline ""] None eq_refl).
Defined.

(** [X4].  On a response that is not 2xx, 429 included, the streaming
    request throws [API Error (status): body] at once: nothing is
    yielded and there is no second attempt to wait for. *)
Theorem X4_streaming_request_does_not_retry
    (JSON_parse : string → option StreamChunk.t) (response : StreamResponse.t) :
  StreamResponse.ok response = false →
  streamChat JSON_parse (inr response)
  = Stream.mk []
      (Threw (apiError (StreamResponse.status response)
                       (StreamResponse.text response))).
Proof. apply streamChat_api_error. Qed.

Lemma X4_streaming_request_does_not_retry_witness :
  streamChat sampleParse (inr (StreamResponse.mk 429 "slow down" None))
  = Stream.mk [] (Threw (Error.mk "API Error (429): slow down")).
Proof.
  exact (X4_streaming_request_does_not_retry sampleParse
           (StreamResponse.mk 429 "slow down" None) eq_refl).
Defined.

(** [X5].  When the transport rejects the three attempts of
    [makeRequest], the call waits 1000 ms after the first and 2000 ms
    after the second, does not wait after the third, and throws the
    error of the third attempt. *)
Theorem X5_transport_failure_exhausts_the_retries
    {T : Type} (fetch : nat → FetchResult T) (e0 e1 e2 : Error.t) :
  fetch 0%nat = Rejected e0 → fetch 1%nat = Rejected e1 →
  fetch 2%nat = Rejected e2 →
  makeRequest fetch
  = (inl e2, [Fetch 0; Delay (Num 1000); Fetch 1; Delay (Num 2000); Fetch 2]).
Proof.
  intros H0 H1 H2. unfold makeRequest, MAX_RETRIES.
  rewrite (retryLoop_rejected fetch _ _ _ _ _ H0).
  rewrite (retryLoop_rejected fetch _ _ _ _ _ H1).
  by rewrite (retryLoop_rejected fetch _ _ _ _ _ H2).
Qed.

Lemma X5_transport_failure_exhausts_the_retries_witness :
  makeRequest (T:=Z)
    (scripted [Rejected (Error.mk "ECONNRESET")] (Rejected (Error.mk "ENOTFOUND")))
  = (inl (Error.mk "ENOTFOUND"),
     [Fetch 0; Delay (Num 1000); Fetch 1; Delay (Num 2000); Fetch 2]).
Proof.
  exact (X5_transport_failure_exhausts_the_retries
           (scripted [Rejected (Error.mk "ECONNRESET")]
                     (Rejected (Error.mk "ENOTFOUND")))
           (Error.mk "ECONNRESET") (Error.mk "ENOTFOUND") (Error.mk "ENOTFOUND")
           eq_refl eq_refl eq_refl).
Defined.

(** [X6].  A cache filled less than 5 minutes ago is served without
    any fetch when no refresh is forced, and leaves the directory
    unchanged. *)
Theorem X6_fresh_cache_is_served_without_fetch
    (self : ModelManager.t) (fetchedAt now later : Z)
    (fetch : nat → FetchResult ModelsResponse.t) :
  ModelManager.lastFetch self = Some fetchedAt →
  fetchedAt ≠ 0%Z → (now - fetchedAt < 300000)%Z →
  ModelManager.fetchModels self false now later fetch
  = (inr (ModelManager.models self), self, []).
Proof.
  intros Hlast Hne Hlt. apply fetchModels_cached, cacheIsFresh_iff. eauto.
Qed.

Lemma X6_fresh_cache_is_served_without_fetch_witness :
  let m := Model.mk "a/x" None None None in
  ModelManager.fetchModels (ModelManager.mk [m] (Some 1000%Z)) false 300999 301000
    (λ _, Rejected (Error.mk "offline"))
  = (inr [m], ModelManager.mk [m] (Some 1000%Z), []).
Proof.
  cbv zeta.
  exact (X6_fresh_cache_is_served_without_fetch
           (ModelManager.mk [Model.mk "a/x" None None None] (Some 1000%Z))
           1000 300999 301000 (λ _, Rejected (Error.mk "offline"))
           eq_refl ltac:(lia) ltac:(lia)).
Defined.

(** [X7].  For a valid profile whose temperature is not 0, the request
    an engine opens for a model carries the profile's temperature and
    [maxTokens], the model's id, the per-model view as messages, and
    [stream: true]. *)
Theorem X7_request_carries_the_profile
    (profile : Profile.t) (conversation : list ChatMessage.t) (model : string) :
  validProfile profile → ¬ (Profile.temperature profile == 0)%Q →
  let body := requestFor profile conversation model in
  RequestBody.temperature body = Profile.temperature profile ∧
  RequestBody.max_tokens body = Profile.maxTokens profile ∧
  RequestBody.model body = model ∧
  RequestBody.messages body = conversationForModel conversation model ∧
  RequestBody.stream body = true.
Proof. apply requestFor_carries_profile. Qed.

Lemma X7_request_carries_the_profile_witness :
  let body := requestFor (Profile.mk ["a/x"] (7 # 10) 4000) [] "a/x" in
  RequestBody.temperature body = (7 # 10)%Q ∧
  RequestBody.max_tokens body = 4000%Z ∧
  RequestBody.model body = "a/x" ∧
  RequestBody.messages body = conversationForModel [] "a/x" ∧
  RequestBody.stream body = true.
Proof.
  exact (X7_request_carries_the_profile (Profile.mk ["a/x"] (7 # 10) 4000) [] "a/x"
           ltac:(by vm_compute) ltac:(by vm_compute)).
Defined.

(** [X8].  As long as only chunks are delivered, the parallel engine
    does not touch the conversation: a turn interrupted before a
    stream ends has committed nothing for its model. *)
Theorem X8_chunks_commit_nothing (s : ParallelChat.t) (schedule : list Event) :
  Forall (λ e, isChunk e = true) schedule →
  ParallelChat.conversation (ParallelChat.run s schedule)
  = ParallelChat.conversation s.
Proof.
  intros Hchunks. revert s. induction Hchunks as [|e schedule He _ IH];
    intros s; [done|].
  rewrite run_cons, IH. unfold ParallelChat.step.
  destruct (ParallelChat.tasks s !! eventTask e) as [[f [o|]]|]; try done.
  by destruct e.
Qed.

Lemma X8_chunks_commit_nothing_witness :
  let s := ParallelChat.start [] (Profile.mk ["a/x"] (1 # 2) 100) ["a/x"] "hi" in
  ParallelChat.conversation
    (ParallelChat.run s [Chunk 0 "a/x" "He"; Chunk 0 "a/x" "llo"])
  = [userMessage "hi"].
Proof.
  cbv zeta.
  exact (X8_chunks_commit_nothing
           (ParallelChat.start [] (Profile.mk ["a/x"] (1 # 2) 100) ["a/x"] "hi")
           [Chunk 0 "a/x" "He"; Chunk 0 "a/x" "llo"]
           ltac:(repeat constructor)).
Defined.

(** ** Text helpers *)

Lemma len_app a b : len (a +:+ b) = (len a + len b)%Z.
Proof.
  unfold len. induction a as [|c a IH]; [done|].
  rewrite string_app_cons. cbn [String.length]. lia.
Qed.

Lemma len_nonneg s : (0 <= len s)%Z.
Proof. unfold len. lia. Qed.

Lemma truthy_false s : truthy s = false ↔ s = "".
Proof. by destruct s. Qed.

Lemma substring_slice s n : String.substring 0 n s +:+ slice s n = s.
Proof.
  revert s. induction n as [|n IH]; intros [|c s];
    cbn [String.substring slice]; try done.
  by rewrite string_app_cons, IH.
Qed.

Lemma len_substringTo text n :
  len (substringTo text n) = Z.min (Z.max n 0) (len text).
Proof.
  unfold substringTo, len.
  assert (H : ∀ k s, String.length (String.substring 0 k s)
                     = Nat.min k (String.length s)).
  { induction k as [|k IH]; intros [|c s]; cbn; try done. by rewrite IH. }
  rewrite H. lia.
Qed.

Lemma split_nonempty sep s : split sep s ≠ [].
Proof.
  destruct s as [|c s]; cbn [split]; [done|].
  case_decide; [done|]. by destruct (split sep s).
Qed.

Lemma splitLines_split s : splitLines s = split newline s.
Proof.
  induction s as [|c s IH]; cbn [splitLines split]; [done|]. by rewrite IH.
Qed.

Lemma freeOf_cons c c' s :
  freeOf c (String c' s) = true ↔ c' ≠ c ∧ freeOf c s = true.
Proof.
  cbn [freeOf]. rewrite andb_true_iff, negb_true_iff, bool_decide_eq_false. done.
Qed.

Lemma freeOf_app c a b :
  freeOf c (a +:+ b) = true ↔ freeOf c a = true ∧ freeOf c b = true.
Proof.
  induction a as [|c' a IH]; [rewrite string_app_nil_l; cbn; tauto|].
  rewrite string_app_cons, !freeOf_cons, IH. tauto.
Qed.

Lemma split_free sep s : freeOf sep s = true → split sep s = [s].
Proof.
  induction s as [|c s IH]; [done|].
  intros [Hc Hs]%freeOf_cons. cbn [split]. by rewrite decide_False, IH.
Qed.

Lemma split_app_sep sep a b :
  split sep (a +:+ String sep b) = split sep a ++ split sep b.
Proof.
  induction a as [|c a IH].
  - rewrite string_app_nil_l. cbn [split]. by rewrite decide_True.
  - rewrite string_app_cons. cbn [split]. rewrite IH.
    case_decide; [done|].
    pose proof (split_nonempty sep a). by destruct (split sep a).
Qed.

Lemma split_parts_free c sep s :
  (c = sep ∨ freeOf c s = true) →
  Forall (λ part, freeOf c part = true) (split sep s).
Proof.
  induction s as [|c' s IH]; intros Hc; cbn [split].
  - by repeat constructor.
  - assert (Hs : c = sep ∨ freeOf c s = true).
    { destruct Hc as [?|[? ?]%freeOf_cons]; auto. }
    specialize (IH Hs). case_decide as Hsep.
    + by constructor.
    + pose proof (split_nonempty sep s).
      destruct (split sep s) as [|part parts]; [done|].
      inversion_clear IH as [|? ? Hpart Hparts]. constructor; [|done].
      apply freeOf_cons. split; [|done].
      destruct Hc as [->|[? ?]%freeOf_cons]; done.
Qed.

Lemma join_cons sep part part' parts :
  join sep (part :: part' :: parts) = part +:+ sep +:+ join sep (part' :: parts).
Proof. reflexivity. Qed.

Lemma join_split sep s : join (String sep "") (split sep s) = s.
Proof.
  induction s as [|c s IH]; cbn [split]; [done|].
  pose proof (split_nonempty sep s) as Hs. case_decide as Hc.
  - destruct (split sep s) as [|part parts]; [done|].
    rewrite join_cons, IH. by subst.
  - destruct (split sep s) as [|part [|part' parts]]; [done|..].
    + cbn in IH |- *. by rewrite IH.
    + rewrite !join_cons in IH |- *. by rewrite string_app_cons, IH.
Qed.

Lemma split_join sep parts :
  parts ≠ [] → Forall (λ part, freeOf sep part = true) parts →
  split sep (join (String sep "") parts) = parts.
Proof.
  intros Hne Hfree. induction Hfree as [|part parts Hpart Hparts IH]; [done|].
  destruct parts as [|part' parts].
  - by apply split_free.
  - rewrite join_cons, string_app_cons, string_app_nil_l, split_app_sep.
    rewrite split_free by done. by rewrite IH.
Qed.

(** [X9].  [truncateText] returns a text that fits unchanged, and cuts
    a longer one to a prefix followed by [...]: exactly [maxLength]
    characters when [maxLength] is at least 3.  Below 3 the prefix is
    empty and the result is [...] alone, three characters whatever
    the limit: the result is never longer than the larger of
    [maxLength] and 3. *)
Theorem X9_truncateText_never_exceeds_the_limit (text : string) (maxLength : Z) :
  (len (truncateText text maxLength) <= Z.max maxLength 3)%Z ∧
  ((len text <= maxLength)%Z → truncateText text maxLength = text) ∧
  ((3 <= maxLength < len text)%Z →
     len (truncateText text maxLength) = maxLength ∧
     ∃ kept dropped, text = kept +:+ dropped ∧
                     truncateText text maxLength = kept +:+ "...") ∧
  ((maxLength < 3)%Z → (maxLength < len text)%Z →
     ∃ kept, truncateText text maxLength = kept +:+ "..." ∧
             (maxLength < len (truncateText text maxLength))%Z).
Proof.
  unfold truncateText.
  destruct (Z.leb_spec (len text) maxLength) as [Hfit|Hlong].
  - split; [lia|]. split; [done|]. split; intros; lia.
  - pose proof (len_substringTo text (maxLength - 3)) as Hlen.
    pose proof (len_nonneg text).
    repeat split.
    + rewrite len_app, Hlen. change (len "...") with 3%Z. lia.
    + lia.
    + rewrite len_app, Hlen. change (len "...") with 3%Z. lia.
    + exists (substringTo text (maxLength - 3)),
             (slice text (Z.to_nat (maxLength - 3))).
      split; [|done]. unfold substringTo. by rewrite substring_slice.
    + intros Hsmall _. eexists. split; [done|].
      rewrite len_app, Hlen. change (len "...") with 3%Z. lia.
Qed.

(** *** [wrapText] *)

Lemma wrapWord_bound width words :
  Forall (λ word, (len word <= width)%Z) words →
  ∀ lines currentLine,
    Forall (λ line, (len line <= width)%Z) lines →
    (len currentLine <= width)%Z →
    Forall (λ line, (len line <= width)%Z)
           (foldl (Utils.wrapWord width) (lines, currentLine) words).1 ∧
    (len (foldl (Utils.wrapWord width) (lines, currentLine) words).2 <= width)%Z.
Proof.
  induction 1 as [|word words Hword _ IH]; intros lines currentLine Hlines Hcur;
    [done|].
  cbn [foldl]. unfold Utils.wrapWord at 2 4.
  destruct (Z.ltb_spec width (len currentLine + len word + 1)).
  - apply IH; [|done]. destruct (truthy currentLine); [|done].
    apply Forall_app. by repeat constructor.
  - apply IH; [done|]. destruct (truthy currentLine); [|done].
    rewrite !len_app. change (len " ") with 1%Z. lia.
Qed.

Lemma wrapParagraph_bound width lines paragraph :
  Forall (λ line, (len line <= width)%Z) lines →
  Forall (λ word, (len word <= width)%Z) (split " " paragraph) →
  Forall (λ line, (len line <= width)%Z) (Utils.wrapParagraph width lines paragraph).
Proof.
  intros Hlines Hwords. unfold Utils.wrapParagraph.
  destruct (Z.leb_spec (len paragraph) width).
  - apply Forall_app. by repeat constructor.
  - assert (0 <= width)%Z as Hwidth.
    { pose proof (split_nonempty " " paragraph).
      destruct Hwords as [|word ? Hword _]; [done|].
      pose proof (len_nonneg word). lia. }
    destruct (wrapWord_bound width _ Hwords lines "" Hlines Hwidth) as [HL Hc].
    destruct (foldl _ _ _) as [lines' currentLine]. cbn [fst snd] in HL, Hc.
    destruct (truthy currentLine); [|done].
    apply Forall_app. by repeat constructor.
Qed.

Lemma lineWords_empty : lineWords "" = [].
Proof. reflexivity. Qed.

Lemma lineWords_word word :
  freeOf " " word = true → lineWords word = filter (λ word, word ≠ "") [word].
Proof. intros Hword. unfold lineWords. by rewrite split_free. Qed.

Lemma lineWords_app line word :
  freeOf " " word = true →
  lineWords (line +:+ " " +:+ word)
  = lineWords line ++ filter (λ word, word ≠ "") [word].
Proof.
  intros Hword. unfold lineWords.
  rewrite string_app_cons, string_app_nil_l, split_app_sep, filter_app.
  by rewrite (split_free _ word).
Qed.

Lemma wrapWord_words width words :
  Forall (λ word, freeOf " " word = true ∧ freeOf newline word = true) words →
  ∀ lines currentLine,
    freeOf newline currentLine = true →
    ∃ pushed last,
      foldl (Utils.wrapWord width) (lines, currentLine) words
      = (lines ++ pushed, last) ∧
      (pushed ≫= lineWords) ++ lineWords last
      = lineWords currentLine ++ filter (λ word, word ≠ "") words ∧
      Forall (λ line, freeOf newline line = true) pushed ∧
      freeOf newline last = true.
Proof.
  induction 1 as [|word words [Hword Hnl] _ IH]; intros lines currentLine Hcur.
  { exists [], currentLine. by rewrite !app_nil_r. }
  cbn [foldl]. unfold Utils.wrapWord at 2.
  assert (Hempty : truthy currentLine = false → lineWords currentLine = []).
  { by intros ->%truthy_false. }
  change (word :: words) with ([word] ++ words). rewrite filter_app.
  destruct (_ <? _)%Z.
  - destruct (truthy currentLine) eqn:Htruthy.
    + destruct (IH (lines ++ [currentLine]) word Hnl)
        as (pushed & last & -> & Hwords & Hpushed & Hlast).
      exists (currentLine :: pushed), last.
      rewrite <- app_assoc. split; [done|]. split; [|by auto].
      rewrite bind_cons, <- !app_assoc, Hwords.
      by rewrite (lineWords_word word).
    + destruct (IH lines word Hnl)
        as (pushed & last & -> & Hwords & Hpushed & Hlast).
      exists pushed, last. split; [done|]. split; [|by auto].
      rewrite Hwords, (Hempty eq_refl). by rewrite (lineWords_word word).
  - destruct (truthy currentLine) eqn:Htruthy.
    + destruct (IH lines (currentLine +:+ " " +:+ word))
        as (pushed & last & -> & Hwords & Hpushed & Hlast).
      { rewrite !freeOf_app. by repeat split. }
      exists pushed, last. split; [done|]. split; [|by auto].
      by rewrite Hwords, lineWords_app, <- app_assoc.
    + destruct (IH lines word Hnl)
        as (pushed & last & -> & Hwords & Hpushed & Hlast).
      exists pushed, last. split; [done|]. split; [|by auto].
      rewrite Hwords, (Hempty eq_refl). by rewrite (lineWords_word word).
Qed.

Lemma wrapParagraph_words width lines paragraph :
  freeOf newline paragraph = true →
  ∃ pushed,
    Utils.wrapParagraph width lines paragraph = lines ++ pushed ∧
    pushed ≫= lineWords = lineWords paragraph ∧
    Forall (λ line, freeOf newline line = true) pushed.
Proof.
  intros Hnl. unfold Utils.wrapParagraph. destruct (_ <=? _)%Z.
  { exists [paragraph]. rewrite bind_singleton. by repeat constructor. }
  destruct (wrapWord_words width (split " " paragraph)) with (lines := lines)
    (currentLine := "") as (pushed & last & -> & Hwords & Hpushed & Hlast);
    [|done|].
  { pose proof (split_parts_free " " " " paragraph (or_introl eq_refl)) as H1.
    pose proof (split_parts_free newline " " paragraph (or_intror Hnl)) as H2.
    rewrite Forall_forall in H1, H2. apply Forall_forall. auto. }
  rewrite lineWords_empty, app_nil_l in Hwords.
  destruct (truthy last) eqn:Htruthy.
  - exists (pushed ++ [last]). rewrite app_assoc. split; [done|].
    rewrite bind_app, bind_singleton. split; [done|].
    apply Forall_app. by repeat constructor.
  - apply truthy_false in Htruthy as ->.
    rewrite lineWords_empty, app_nil_r in Hwords. by exists pushed.
Qed.

Lemma wrapText_words width paragraphs :
  Forall (λ paragraph, freeOf newline paragraph = true) paragraphs →
  ∀ lines, ∃ pushed,
    foldl (Utils.wrapParagraph width) lines paragraphs = lines ++ pushed ∧
    pushed ≫= lineWords = paragraphs ≫= lineWords ∧
    Forall (λ line, freeOf newline line = true) pushed.
Proof.
  induction 1 as [|paragraph paragraphs Hnl _ IH]; intros lines.
  { exists []. by rewrite app_nil_r. }
  cbn [foldl].
  destruct (wrapParagraph_words width lines paragraph Hnl)
    as (pushed & -> & Hwords & Hpushed).
  destruct (IH (lines ++ pushed)) as (pushed' & -> & Hwords' & Hpushed').
  exists (pushed ++ pushed'). rewrite app_assoc. split; [done|].
  rewrite bind_app, bind_cons, Hwords, Hwords'. split; [done|].
  by apply Forall_app.
Qed.

Lemma splitLines_free s :
  Forall (λ line, freeOf newline line = true) (splitLines s).
Proof. rewrite splitLines_split. apply split_parts_free. by left. Qed.

Lemma splitLines_join lines :
  lines ≠ [] → Forall (λ line, freeOf newline line = true) lines →
  splitLines (join (String newline "") lines) = lines.
Proof. rewrite splitLines_split. apply split_join. Qed.

(** [X10].  When no word of the text is longer than [width], no line
    of [wrapText(text, width)] is longer than [width]. *)
Theorem X10_wrapText_lines_fit (text : string) (width : Z) :
  wordsFit width text →
  Forall (λ line, (len line <= width)%Z) (splitLines (Utils.wrapText text width)).
Proof.
  intros Hfit. unfold Utils.wrapText.
  assert (Hwidth : (0 <= width)%Z).
  { unfold wordsFit in Hfit. pose proof (splitLines_nonempty text).
    destruct Hfit as [|line ? Hline _]; [done|].
    pose proof (split_nonempty " " line).
    destruct Hline as [|word ? Hword _]; [done|].
    pose proof (len_nonneg word). lia. }
  assert (Hbound : ∀ paragraphs lines,
    Forall (λ line, Forall (λ word, (len word <= width)%Z) (split " " line))
           paragraphs →
    Forall (λ line, (len line <= width)%Z) lines →
    Forall (λ line, (len line <= width)%Z)
           (foldl (Utils.wrapParagraph width) lines paragraphs)).
  { induction paragraphs as [|p ps IH]; intros lines Hps Hlines; [done|].
    inversion_clear Hps. cbn [foldl]. apply IH; [done|].
    by apply wrapParagraph_bound. }
  specialize (Hbound _ [] Hfit (Forall_nil_2 _)).
  destruct (wrapText_words width (splitLines text) (splitLines_free text) [])
    as (pushed & Hpushed & _ & Hnl).
  rewrite Hpushed in Hbound |- *. rewrite app_nil_l in Hbound |- *.
  destruct pushed as [|line lines]; [by repeat constructor|].
  by rewrite splitLines_join.
Qed.

Lemma X10_wrapText_lines_fit_witness :
  Forall (λ line, (len line <= 5)%Z) (splitLines (Utils.wrapText "ab cd ef" 5)).
Proof.
  apply (X10_wrapText_lines_fit "ab cd ef" 5).
  unfold wordsFit. refine (bool_decide_unpack _ _). by vm_compute.
Defined.

(** [X11].  [wrapText] only moves line breaks: the words of its
    result, read line after line and the empty ones left out, are the
    words of the text, in the same order, for every width.  A text
    whose lines all fit is returned as it is. *)
Theorem X11_wrapText_keeps_the_words (text : string) (width : Z) :
  wordsOf (Utils.wrapText text width) = wordsOf text ∧
  (Forall (λ line, (len line <= width)%Z) (splitLines text) →
   Utils.wrapText text width = text).
Proof.
  split.
  - unfold wordsOf, Utils.wrapText.
    destruct (wrapText_words width (splitLines text) (splitLines_free text) [])
      as (pushed & -> & <- & Hnl).
    rewrite app_nil_l. destruct pushed as [|line lines]; [done|].
    by rewrite splitLines_join.
  - intros Hfit. unfold Utils.wrapText.
    assert (Hsame : ∀ paragraphs lines,
      Forall (λ line, (len line <= width)%Z) paragraphs →
      foldl (Utils.wrapParagraph width) lines paragraphs = lines ++ paragraphs).
    { induction paragraphs as [|p ps IH]; intros lines Hps.
      - by rewrite app_nil_r.
      - inversion_clear Hps as [|? ? Hp Hps']. cbn [foldl].
        unfold Utils.wrapParagraph at 2.
        apply Z.leb_le in Hp as ->. by rewrite IH, <- app_assoc. }
    rewrite Hsame by done. rewrite app_nil_l, splitLines_split. apply join_split.
Qed.

(** *** The [wrapText] of [parallel-chat.ts] *)

Lemma parallel_wrapWord_bound width words :
  Forall (λ word, (len word <= width)%Z) words →
  ∀ lines currentLine,
    Forall (λ line, (len line <= width + 1)%Z) lines →
    (len currentLine <= width + 1)%Z →
    ∃ lines' last,
      foldl (ParallelChatInterface.wrapWord width) (lines, currentLine) words
      = (lines', last) ∧
      Forall (λ line, (len line <= width + 1)%Z) lines' ∧
      (len last <= width + 1)%Z.
Proof.
  induction 1 as [|word words Hword _ IH]; intros lines currentLine Hlines Hcur.
  { by exists lines, currentLine. }
  cbn [foldl]. unfold ParallelChatInterface.wrapWord at 2.
  destruct (Z.leb_spec (len (currentLine +:+ word)) width) as [Hfit|Hlong].
  - apply IH; [done|]. rewrite len_app in Hfit. rewrite !len_app.
    destruct (truthy currentLine); [change (len " ") with 1%Z|change (len "") with 0%Z];
      lia.
  - apply IH; [|lia]. destruct (truthy currentLine); [|done].
    apply Forall_app. by repeat constructor.
Qed.

Lemma freeOf_replicate c c' n :
  c' ≠ c → freeOf c (string_of_list_ascii (replicate n c')) = true.
Proof. intros Hc. induction n as [|n IH]; [done|]. cbn. by rewrite IH, bool_decide_eq_false_2. Qed.

Lemma len_replicate c n : len (string_of_list_ascii (replicate n c)) = Z.of_nat n.
Proof. unfold len. induction n as [|n IH]; cbn [replicate string_of_list_ascii String.length]; lia. Qed.

(** [X12].  The [wrapText] of the parallel session tests
    [(currentLine + word).length <= width] and then joins the two with
    a space: when no word is longer than [width] its lines have at
    most [width + 1] characters, and for every width from 1 on there
    is such a text with a line of exactly [width + 1] characters, one
    more than the box it is printed in pads to. *)
Theorem X12_parallel_wrapText_overflows_by_one (width : Z) :
  (1 <= width)%Z →
  (∀ text,
     Forall (λ word, (len word <= width)%Z) (split " " text) →
     Forall (λ line, (len line <= width + 1)%Z)
            (ParallelChatInterface.wrapText text width)) ∧
  (∃ text,
     Forall (λ word, (len word <= width)%Z) (split " " text) ∧
     ParallelChatInterface.wrapText text width = [text] ∧
     len text = (width + 1)%Z).
Proof.
  intros Hwidth. split.
  - intros text Hwords. unfold ParallelChatInterface.wrapText.
    destruct (parallel_wrapWord_bound width _ Hwords [] "")
      as (lines & last & -> & Hlines & Hlast); [done|change (len "") with 0%Z; lia|].
    destruct (truthy last); [|done].
    apply Forall_app. by repeat constructor.
  - set (word := string_of_list_ascii (replicate (Z.to_nat (width - 1)) "b"%char)).
    assert (Hword : len word = (width - 1)%Z).
    { unfold word. rewrite len_replicate. lia. }
    assert (Hsplit : split " " ("a " +:+ word) = ["a"; word]).
    { change ("a " +:+ word) with ("a" +:+ String " " word).
      rewrite split_app_sep. cbn [app]. f_equal. apply split_free.
      by apply freeOf_replicate. }
    exists ("a " +:+ word). rewrite Hsplit. repeat split.
    + apply Forall_cons. split; [change (len "a") with 1%Z; lia|].
      apply Forall_cons. split; [lia|constructor].
    + unfold ParallelChatInterface.wrapText.
      assert (Hfirst : ParallelChatInterface.wrapWord width ([], "") "a"
                       = ([], "a")).
      { unfold ParallelChatInterface.wrapWord. cbn [truthy].
        rewrite !string_app_nil_l.
        destruct (Z.leb_spec (len "a") width) as [_|Hbad]; [done|].
        change (len "a") with 1%Z in Hbad. lia. }
      rewrite Hsplit. cbn [foldl]. rewrite Hfirst.
      unfold ParallelChatInterface.wrapWord. cbn [truthy].
      destruct (Z.leb_spec (len ("a" +:+ word)) width) as [_|Hbad]; [done|].
      rewrite len_app in Hbad. change (len "a") with 1%Z in Hbad. lia.
    + rewrite len_app. change (len "a ") with 2%Z. lia.
Qed.

Lemma X12_parallel_wrapText_overflows_by_one_witness :
  (∀ text,
     Forall (λ word, (len word <= 56)%Z) (split " " text) →
     Forall (λ line, (len line <= 56 + 1)%Z)
            (ParallelChatInterface.wrapText text 56)) ∧
  (∃ text,
     Forall (λ word, (len word <= 56)%Z) (split " " text) ∧
     ParallelChatInterface.wrapText text 56 = [text] ∧
     len text = (56 + 1)%Z).
Proof. exact (X12_parallel_wrapText_overflows_by_one 56 ltac:(lia)). Defined.

(** ** The configuration *)

Section config.
Variable scryptSync : string → string → nat → AES.key256.








End config.








(** [X17].  [new BatchProcessor()] always throws
    [Config not initialized]: its constructor asks the key of a
    [ConfigManager] it has just created and never initialised.  So
    the action of [batch] never gets to process a file: with a key
    configured it ends with that error, whatever the configuration;
    and [chainPrompts], which starts with the same constructor, throws
    before its first request. *)
Theorem X17_batch_commands_never_run
    {R : Type} (scryptSync : string → string → nat → AES.key256)
    (work : BatchProcessor.t → Error.t + R) (io : IO.t)
    (configManager : ConfigManager.t) :
  BatchProcessor.new configManager = inl (Error.mk "Config not initialized") ∧
  (∀ result, batchAction scryptSync work io configManager ≠ Finished result) ∧
  (∀ self apiKey,
     ConfigManager.init scryptSync io configManager = (inr (), self) →
     ConfigManager.getApiKey self = inr (Some apiKey) →
     truthy apiKey = true →
     batchAction scryptSync work io configManager
     = ErrorReported (Error.mk "Config not initialized")).
Proof.
  unfold batchAction. split; [done|]. split.
  - intros result.
    destruct (ConfigManager.init scryptSync io configManager) as [[error|[]] self];
      [done|].
    destruct (ConfigManager.getApiKey self) as [error|apiKey]; [done|].
    by destruct (noKey apiKey).
  - intros self apiKey -> -> Htruthy. cbn. by rewrite Htruthy.
Qed.

(** ** Prompt templates *)

Section templates.
Variables ENOENT SyntaxError : Error.t.

Lemma loadTemplates_inr disk templates disk' :
  TemplateManager.loadTemplates ENOENT SyntaxError disk = (inr templates, disk') →
  disk' = TemplateManager.Directory (File.Holds templates) ∧
  (disk = disk' ∨
   disk = TemplateManager.Directory File.Missing ∧ templates = []).
Proof.
  unfold TemplateManager.loadTemplates, TemplateManager.ensureTemplatesFile.
  destruct disk as [|[| |held]]; cbn; intros [= <- <-]; auto.
Qed.

Lemma loadTemplates_unique disk templates disk' :
  TemplateManager.loadTemplates ENOENT SyntaxError disk = (inr templates, disk') →
  TemplateManager.uniqueNames disk → NoDup (Template.name <$> templates).
Proof.
  intros [-> [->|[-> ->]]]%loadTemplates_inr; [done|]. constructor.
Qed.

Lemma loadTemplates_inl disk error disk' :
  TemplateManager.loadTemplates ENOENT SyntaxError disk = (inl error, disk') →
  TemplateManager.uniqueNames disk → TemplateManager.uniqueNames disk'.
Proof.
  unfold TemplateManager.loadTemplates, TemplateManager.ensureTemplatesFile.
  destruct disk as [|[| |held]]; cbn; by intros [= <- <-].
Qed.

Lemma named_find_None name templates :
  list_find (TemplateManager.named name) templates = None ↔
  name ∉ Template.name <$> templates.
Proof.
  rewrite list_find_None, Forall_forall, list_elem_of_fmap.
  unfold TemplateManager.named. split.
  - intros Hnone (template & -> & Hin). by apply (Hnone template).
  - intros Hnot template Hin Hname. apply Hnot. eauto.
Qed.

Lemma call_uniqueNames c disk :
  TemplateManager.uniqueNames disk →
  TemplateManager.uniqueNames (TemplateManager.call ENOENT SyntaxError c disk).2.
Proof.
  intros Hdisk.
  destruct c as [template createdAt updatedAt|name updates updatedAt|name];
    cbn [TemplateManager.call];
    unfold TemplateManager.create, TemplateManager.update, TemplateManager.delete;
    destruct (TemplateManager.loadTemplates ENOENT SyntaxError disk) as [[error|templates] disk'] eqn:Hload;
    cbn [snd]; try (by eapply loadTemplates_inl);
    pose proof (loadTemplates_unique _ _ _ Hload Hdisk) as Hunique;
    apply loadTemplates_inr in Hload as [-> _].
  - destruct (list_find _ templates) as [found|] eqn:Hfind; [done|].
    cbn. rewrite fmap_app. apply NoDup_app. split; [done|].
    split; [|apply NoDup_singleton].
    intros name Hin ->%list_elem_of_singleton.
    by apply named_find_None in Hfind.
  - destruct (list_find _ templates) as [[index existing]|] eqn:Hfind; [|done].
    cbn. rewrite list_fmap_insert. cbn.
    apply list_find_Some in Hfind as (Hindex & _ & _).
    rewrite list_insert_id; [done|]. by rewrite list_lookup_fmap, Hindex.
  - case_decide; [done|]. cbn.
    eapply sublist_NoDup; [done|]. apply fmap_sublist, sublist_filter.
Qed.

Lemma calls_uniqueNames sequence disk :
  TemplateManager.uniqueNames disk →
  TemplateManager.uniqueNames
    (TemplateManager.calls ENOENT SyntaxError sequence disk).
Proof.
  revert disk. induction sequence as [|c sequence IH]; intros disk Hdisk; [done|].
  apply IH. by apply call_uniqueNames.
Qed.

Lemma find_filter_other name other templates :
  other ≠ name →
  snd <$> list_find (TemplateManager.named other)
            (filter (λ template, ¬ TemplateManager.named name template) templates)
  = snd <$> list_find (TemplateManager.named other) templates.
Proof.
  intros Hother. induction templates as [|template templates IH]; [done|].
  rewrite filter_cons. cbn [list_find].
  destruct (decide (TemplateManager.named other template)) as [Hnamed|Hnamed].
  - rewrite decide_True.
    + cbn [list_find]. by rewrite decide_True.
    + unfold TemplateManager.named in *. congruence.
  - revert IH. case_decide; cbn [list_find]; rewrite ?decide_False by done;
      destruct (list_find _ (filter _ templates)) as [[i found]|],
               (list_find _ templates) as [[j found']|]; cbn; congruence.
Qed.
End templates.

(** [X18].  The names of the stored templates stay all different:
    from a disk where they are (or where there is no file yet), any
    sequence of [create], [update] and [delete] calls, successful or
    not, leaves them so. *)
Theorem X18_template_names_stay_unique
    (ENOENT SyntaxError : Error.t) (sequence : list TemplateManager.Call)
    (disk : TemplateManager.Disk) :
  TemplateManager.uniqueNames disk →
  TemplateManager.uniqueNames
    (TemplateManager.calls ENOENT SyntaxError sequence disk).
Proof. apply calls_uniqueNames. Qed.

Lemma X18_template_names_stay_unique_witness :
  TemplateManager.uniqueNames
    (TemplateManager.calls (Error.mk "ENOENT") (Error.mk "SyntaxError")
       [TemplateManager.Create
          (TemplateFields.mk "review" None (Some "Review: {prompt}") None None None)
          "t1" "t1";
        TemplateManager.Create
          (TemplateFields.mk "review" None (Some "Again: {prompt}") None None None)
          "t2" "t2";
        TemplateManager.Delete "other"]
       (TemplateManager.Directory File.Missing)).
Proof.
  exact (X18_template_names_stay_unique (Error.mk "ENOENT") (Error.mk "SyntaxError")
           [TemplateManager.Create
              (TemplateFields.mk "review" None (Some "Review: {prompt}") None None None)
              "t1" "t1";
            TemplateManager.Create
              (TemplateFields.mk "review" None (Some "Again: {prompt}") None None None)
              "t2" "t2";
            TemplateManager.Delete "other"]
           (TemplateManager.Directory File.Missing) I).
Defined.

Section template_store.
Variables ENOENT SyntaxError : Error.t.

Lemma loadTemplates_held templates :
  TemplateManager.loadTemplates ENOENT SyntaxError
    (TemplateManager.Directory (File.Holds templates))
  = (inr templates, TemplateManager.Directory (File.Holds templates)).
Proof. reflexivity. Qed.

Lemma get_inr disk templates disk' name :
  TemplateManager.loadTemplates ENOENT SyntaxError disk = (inr templates, disk') →
  (TemplateManager.get ENOENT SyntaxError name disk).1
  = inr (snd <$> list_find (TemplateManager.named name) templates).
Proof. unfold TemplateManager.get. by intros ->. Qed.

Lemma create_inr template createdAt updatedAt disk disk' :
  TemplateManager.create ENOENT SyntaxError template createdAt updatedAt disk
  = (inr (), disk') →
  ∃ templates disk0,
    TemplateManager.loadTemplates ENOENT SyntaxError disk = (inr templates, disk0) ∧
    list_find (TemplateManager.named (TemplateFields.name template)) templates
    = None ∧
    disk' = TemplateManager.Directory
              (File.Holds (templates
                           ++ [TemplateManager.newTemplate template createdAt updatedAt])).
Proof.
  unfold TemplateManager.create.
  destruct (TemplateManager.loadTemplates _ _ disk) as [[error|templates] disk0]
    eqn:Hload; [done|].
  pose proof Hload as [-> _]%loadTemplates_inr.
  destruct (list_find _ templates) eqn:Hfind; [done|].
  cbn. intros [= <-]. eauto.
Qed.

Lemma delete_inr name disk disk' :
  TemplateManager.delete ENOENT SyntaxError name disk = (inr (), disk') →
  ∃ templates disk0,
    TemplateManager.loadTemplates ENOENT SyntaxError disk = (inr templates, disk0) ∧
    disk' = TemplateManager.Directory
              (File.Holds (filter (λ template, ¬ TemplateManager.named name template)
                                  templates)).
Proof.
  unfold TemplateManager.delete.
  destruct (TemplateManager.loadTemplates _ _ disk) as [[error|templates] disk0]
    eqn:Hload; [done|].
  pose proof Hload as [-> _]%loadTemplates_inr.
  case_decide; [done|]. cbn. intros [= <-]. eauto.
Qed.
End template_store.

(** [X19].  After a [create] that succeeds, [get] returns the new
    template for its name, with the dates of the call, and what it
    returned for every other name before; a second [create] with the
    same name throws [Template '...' already exists] and changes
    nothing. *)
Theorem X19_created_template_is_found
    (ENOENT SyntaxError : Error.t) (template : TemplateFields.t)
    (createdAt updatedAt : string) (disk disk' : TemplateManager.Disk) :
  TemplateManager.create ENOENT SyntaxError template createdAt updatedAt disk
  = (inr (), disk') →
  TemplateManager.get ENOENT SyntaxError (TemplateFields.name template) disk'
  = (inr (Some (TemplateManager.newTemplate template createdAt updatedAt)), disk') ∧
  (∀ other, other ≠ TemplateFields.name template →
     (TemplateManager.get ENOENT SyntaxError other disk').1
     = (TemplateManager.get ENOENT SyntaxError other disk).1) ∧
  (∀ createdAt' updatedAt',
     TemplateManager.create ENOENT SyntaxError template createdAt' updatedAt' disk'
     = (inl (TemplateManager.alreadyExists (TemplateFields.name template)), disk')).
Proof.
  intros (templates & disk0 & Hload & Hfind & ->)%create_inr.
  set (new := TemplateManager.newTemplate template createdAt updatedAt).
  assert (Hnew : list_find (TemplateManager.named (TemplateFields.name template))
                   (templates ++ [new])
                 = Some (length templates, new)).
  { rewrite list_find_app_r by done. cbn. by rewrite decide_True. }
  repeat split.
  - unfold TemplateManager.get. rewrite loadTemplates_held. by rewrite Hnew.
  - intros other Hother.
    rewrite (get_inr _ _ _ _ _ _ (loadTemplates_held _ _ _)).
    rewrite (get_inr _ _ _ _ _ _ Hload). f_equal.
    destruct (list_find (TemplateManager.named other) templates) as [[i found]|]
      eqn:Hold.
    + by rewrite (list_find_app_l _ _ _ _ _ Hold).
    + rewrite list_find_app_r by done. cbn. rewrite decide_False; [done|].
      unfold TemplateManager.named. cbn. congruence.
  - intros createdAt' updatedAt'. unfold TemplateManager.create.
    rewrite loadTemplates_held. by rewrite Hnew.
Qed.

Lemma X19_created_template_is_found_witness :
  let template :=
    TemplateFields.mk "review" None (Some "Review: {prompt}") None None None in
  let disk' :=
    TemplateManager.Directory
      (File.Holds [TemplateManager.newTemplate template "t1" "t2"]) in
  TemplateManager.get (Error.mk "ENOENT") (Error.mk "SyntaxError") "review" disk'
  = (inr (Some (TemplateManager.newTemplate template "t1" "t2")), disk') ∧
  (∀ other, other ≠ "review" →
     (TemplateManager.get (Error.mk "ENOENT") (Error.mk "SyntaxError") other disk').1
     = (TemplateManager.get (Error.mk "ENOENT") (Error.mk "SyntaxError") other
          (TemplateManager.Directory File.Missing)).1) ∧
  (∀ createdAt' updatedAt',
     TemplateManager.create (Error.mk "ENOENT") (Error.mk "SyntaxError") template
       createdAt' updatedAt' disk'
     = (inl (TemplateManager.alreadyExists "review"), disk')).
Proof.
  exact (X19_created_template_is_found (Error.mk "ENOENT") (Error.mk "SyntaxError")
           (TemplateFields.mk "review" None (Some "Review: {prompt}") None None None)
           "t1" "t2" (TemplateManager.Directory File.Missing) _ eq_refl).
Defined.

(** [X20].  After a [delete] that succeeds, [get] returns [null] for
    that name, also when the file had several templates of the name,
    and what it returned for every other name before; a second
    [delete] throws [Template '...' not found]. *)
Theorem X20_deleted_template_is_gone
    (ENOENT SyntaxError : Error.t) (name : string)
    (disk disk' : TemplateManager.Disk) :
  TemplateManager.delete ENOENT SyntaxError name disk = (inr (), disk') →
  TemplateManager.get ENOENT SyntaxError name disk' = (inr None, disk') ∧
  (∀ other, other ≠ name →
     (TemplateManager.get ENOENT SyntaxError other disk').1
     = (TemplateManager.get ENOENT SyntaxError other disk).1) ∧
  TemplateManager.delete ENOENT SyntaxError name disk'
  = (inl (TemplateManager.notFound name), disk').
Proof.
  intros (templates & disk0 & Hload & ->)%delete_inr.
  set (filtered := filter _ templates).
  assert (Hgone : Forall (λ template, ¬ TemplateManager.named name template) filtered).
  { apply Forall_forall. intros template Hin.
    by apply list_elem_of_filter in Hin as [? _]. }
  repeat split.
  - unfold TemplateManager.get. rewrite loadTemplates_held.
    by rewrite (proj2 (list_find_None _ _) Hgone).
  - intros other Hother.
    rewrite (get_inr _ _ _ _ _ _ (loadTemplates_held _ _ _)).
    rewrite (get_inr _ _ _ _ _ _ Hload). f_equal.
    by apply find_filter_other.
  - unfold TemplateManager.delete. rewrite loadTemplates_held.
    rewrite decide_True; [done|]. f_equal.
    clear -Hgone. induction Hgone as [|template rest Hhead _ IH]; [done|].
    rewrite filter_cons, decide_True by done. by rewrite IH.
Qed.

Lemma X20_deleted_template_is_gone_witness :
  let kept := Template.mk "keep" None (Some "{prompt}") None None None "t" "t" in
  let dropped := Template.mk "drop" None None None None None "t" "t" in
  let disk' := TemplateManager.Directory (File.Holds [kept]) in
  TemplateManager.get (Error.mk "ENOENT") (Error.mk "SyntaxError") "drop" disk'
  = (inr None, disk') ∧
  (∀ other, other ≠ "drop" →
     (TemplateManager.get (Error.mk "ENOENT") (Error.mk "SyntaxError") other disk').1
     = (TemplateManager.get (Error.mk "ENOENT") (Error.mk "SyntaxError") other
          (TemplateManager.Directory (File.Holds [dropped; kept; dropped]))).1) ∧
  TemplateManager.delete (Error.mk "ENOENT") (Error.mk "SyntaxError") "drop" disk'
  = (inl (TemplateManager.notFound "drop"), disk').
Proof.
  exact (X20_deleted_template_is_gone (Error.mk "ENOENT") (Error.mk "SyntaxError")
           "drop"
           (TemplateManager.Directory
              (File.Holds
                 [Template.mk "drop" None None None None None "t" "t";
                  Template.mk "keep" None (Some "{prompt}") None None None "t" "t";
                  Template.mk "drop" None None None None None "t" "t"]))
           _ eq_refl).
Defined.

(** [X21].  The templates are kept in [~/.openrouter-cli], which no
    code of the program creates (the configuration is in
    [~/.orb-cli]): while that directory is missing, every method of
    [TemplateManager] throws the error of [writeFile], and none
    changes that. *)
Theorem X21_templates_need_a_directory_nobody_makes
    (ENOENT SyntaxError : Error.t) :
  (∀ c, TemplateManager.call ENOENT SyntaxError c TemplateManager.NoDirectory
        = (inl ENOENT, TemplateManager.NoDirectory)) ∧
  (∀ name, TemplateManager.get ENOENT SyntaxError name TemplateManager.NoDirectory
           = (inl ENOENT, TemplateManager.NoDirectory)) ∧
  TemplateManager.list ENOENT SyntaxError TemplateManager.NoDirectory
  = (inl ENOENT, TemplateManager.NoDirectory) ∧
  (∀ name userPrompt,
     applyTemplate ENOENT SyntaxError name userPrompt TemplateManager.NoDirectory
     = (inl ENOENT, TemplateManager.NoDirectory)) ∧
  (∀ sequence,
     TemplateManager.calls ENOENT SyntaxError sequence TemplateManager.NoDirectory
     = TemplateManager.NoDirectory).
Proof.
  repeat split; try done.
  - by intros [].
  - induction sequence as [|[] sequence IH]; [done|..]; apply IH.
Qed.

(** *** [applyTemplate] *)

Lemma getSubstitution_verbatim matched before after replacement :
  freeOf "$" replacement = true →
  getSubstitution matched before after replacement = replacement.
Proof.
  induction replacement as [|c tail IH]; [done|].
  intros [Hc Htail]%freeOf_cons. cbn [getSubstitution].
  rewrite decide_False by done. by rewrite IH.
Qed.

Lemma prefix_app pattern rest : String.prefix pattern (pattern +:+ rest) = true.
Proof.
  induction pattern as [|c pattern IH]; [by destruct rest|].
  rewrite string_app_cons. cbn [String.prefix].
  by destruct (ascii_dec c c).
Qed.

Lemma slice_app pattern rest : slice (pattern +:+ rest) (String.length pattern) = rest.
Proof. induction pattern as [|c pattern IH]; [done|]. by rewrite string_app_cons. Qed.

Section replace.
Variables (first : ascii) (pattern' replacement : string).

Lemma replaceFrom_skip skipped before rest :
  replaceFrom (String first pattern') replacement before (skipped +:+ rest)
    (String.length skipped)
  = replaceFrom (String first pattern') replacement (before +:+ skipped) rest 0.
Proof.
  revert before. induction skipped as [|c skipped IH]; intros before.
  - by rewrite string_app_nil_l, string_app_nil_r.
  - rewrite string_app_cons. cbn [String.length replaceFrom].
    rewrite IH. by rewrite string_app_assoc.
Qed.

Lemma replaceFrom_match before rest :
  replaceFrom (String first pattern') replacement before
    (String first pattern' +:+ rest) 0
  = getSubstitution (String first pattern') before rest replacement
    +:+ replaceFrom (String first pattern') replacement
          (before +:+ String first pattern') rest 0.
Proof.
  rewrite string_app_cons at 1. cbn [replaceFrom].
  rewrite <- string_app_cons, prefix_app, slice_app.
  cbn [String.length]. rewrite Nat.sub_succ, Nat.sub_0_r, replaceFrom_skip.
  by rewrite string_app_assoc.
Qed.

Lemma replaceFrom_free piece before rest :
  freeOf first piece = true →
  replaceFrom (String first pattern') replacement before (piece +:+ rest) 0
  = piece +:+ replaceFrom (String first pattern') replacement
                (before +:+ piece) rest 0.
Proof.
  revert before. induction piece as [|c piece IH]; intros before.
  - by rewrite !string_app_nil_l, string_app_nil_r.
  - intros [Hc Hpiece]%freeOf_cons. rewrite !string_app_cons. cbn [replaceFrom].
    cbn [String.prefix]. destruct (ascii_dec first c) as [->|_]; [done|].
    rewrite IH by done. by rewrite string_app_assoc.
Qed.

Lemma replaceFrom_free_end piece before :
  freeOf first piece = true →
  replaceFrom (String first pattern') replacement before piece 0 = piece.
Proof.
  intros Hpiece. rewrite <- (string_app_nil_r piece) at 1.
  rewrite replaceFrom_free by done. cbn [replaceFrom].
  by rewrite string_app_nil_r.
Qed.
End replace.

Lemma replaceAll_one pre post replacement :
  freeOf "{" pre = true → freeOf "{" post = true →
  replaceAll (pre +:+ "{prompt}" +:+ post) "{prompt}" replacement
  = pre +:+ getSubstitution "{prompt}" pre post replacement +:+ post.
Proof.
  intros Hpre Hpost. unfold replaceAll.
  rewrite replaceFrom_free by done. rewrite replaceFrom_match.
  by rewrite replaceFrom_free_end.
Qed.

(** [X22].  For a stored template whose text — system text, two line
    feeds, prompt — has the placeholder [{prompt}] once and no other
    brace, [applyTemplate] returns the text with the placeholder
    replaced by the expansion of the user's prompt as a replacement
    pattern of [String.prototype.replace], together with the models,
    temperature and [maxTokens] of the template.  A prompt without
    dollar sign is its own expansion; [$$] is expanded to a single
    dollar and [$&] to the placeholder itself. *)
Theorem X22_applyTemplate_expands_the_user_prompt
    (ENOENT SyntaxError : Error.t) (name : string)
    (disk disk' : TemplateManager.Disk) (template : Template.t)
    (pre post userPrompt : string) :
  TemplateManager.get ENOENT SyntaxError name disk = (inr (Some template), disk') →
  given (Template.prompt template) = true →
  templateText template = pre +:+ "{prompt}" +:+ post →
  freeOf "{" pre = true → freeOf "{" post = true →
  truthy userPrompt = true →
  applyTemplate ENOENT SyntaxError name (Some userPrompt) disk
  = (inr {| AppliedTemplate.prompt :=
              pre +:+ getSubstitution "{prompt}" pre post userPrompt +:+ post;
            AppliedTemplate.models := Template.models template;
            AppliedTemplate.temperature := Template.temperature template;
            AppliedTemplate.maxTokens := Template.maxTokens template |},
     disk') ∧
  (freeOf "$" userPrompt = true →
   getSubstitution "{prompt}" pre post userPrompt = userPrompt) ∧
  (userPrompt = "$$" → getSubstitution "{prompt}" pre post userPrompt = "$") ∧
  (userPrompt = "$&" → getSubstitution "{prompt}" pre post userPrompt = "{prompt}").
Proof.
  intros Hget Hprompt Htext Hpre Hpost Huser. repeat split.
  - unfold applyTemplate. rewrite Hget. unfold finalPrompt.
    rewrite Hprompt. cbn [given default]. rewrite Huser, Htext.
    by rewrite replaceAll_one.
  - apply getSubstitution_verbatim.
  - by intros ->.
  - by intros ->.
Qed.

Lemma X22_applyTemplate_expands_the_user_prompt_witness :
  let template :=
    Template.mk "sum" (Some "Be brief.") (Some "Sum up: {prompt}!") None
      (Some (1 # 5)) None "t" "t" in
  let disk := TemplateManager.Directory (File.Holds [template]) in
  let pre := "Be brief." +:+ String newline (String newline "Sum up: ") in
  applyTemplate (Error.mk "ENOENT") (Error.mk "SyntaxError") "sum" (Some "$$ 5")
    disk
  = (inr {| AppliedTemplate.prompt :=
              pre +:+ getSubstitution "{prompt}" pre "!" "$$ 5" +:+ "!";
            AppliedTemplate.models := None;
            AppliedTemplate.temperature := Some (1 # 5);
            AppliedTemplate.maxTokens := None |},
     disk) ∧
  (freeOf "$" "$$ 5" = true →
   getSubstitution "{prompt}" pre "!" "$$ 5" = "$$ 5") ∧
  ("$$ 5" = "$$" → getSubstitution "{prompt}" pre "!" "$$ 5" = "$") ∧
  ("$$ 5" = "$&" → getSubstitution "{prompt}" pre "!" "$$ 5" = "{prompt}").
Proof.
  exact (X22_applyTemplate_expands_the_user_prompt (Error.mk "ENOENT")
           (Error.mk "SyntaxError") "sum"
           (TemplateManager.Directory
              (File.Holds
                 [Template.mk "sum" (Some "Be brief.") (Some "Sum up: {prompt}!") None
                    (Some (1 # 5)) None "t" "t"]))
           _
           (Template.mk "sum" (Some "Be brief.") (Some "Sum up: {prompt}!") None
              (Some (1 # 5)) None "t" "t")
           ("Be brief." +:+ String newline (String newline "Sum up: ")) "!" "$$ 5"
           eq_refl eq_refl eq_refl eq_refl eq_refl eq_refl).
Defined.

(** ** Organizations *)

Lemma extractOrganization_nonempty modelId : extractOrganization modelId ≠ "".
Proof.
  unfold extractOrganization.
  destruct (split "/" modelId) as [|organization [|? ?]]; try done.
  by destruct organization.
Qed.

Section jsmap.
Context {V : Type}.
Implicit Types (map : JSMap.t V) (key : string) (value : V).

Lemma jsmap_set_absent key value map :
  key ∉ map.*1 → JSMap.set key value map = map ++ [(key, value)].
Proof.
  induction map as [|[key' value'] map IH]; [done|].
  rewrite fmap_cons, not_elem_of_cons. cbn. intros [Hkey Hmap].
  rewrite decide_False by done. by rewrite IH.
Qed.

Lemma jsmap_set_app key value value0 map1 map2 :
  key ∉ map1.*1 →
  JSMap.set key value (map1 ++ (key, value0) :: map2)
  = map1 ++ (key, value) :: map2.
Proof.
  induction map1 as [|[key' value'] map1 IH].
  - intros _. cbn. by rewrite decide_True.
  - rewrite fmap_cons, not_elem_of_cons. cbn. intros [Hkey Hmap].
    rewrite decide_False by done. by rewrite IH.
Qed.

Lemma jsmap_get_app key value0 map1 map2 :
  key ∉ map1.*1 → JSMap.get key (map1 ++ (key, value0) :: map2) = Some value0.
Proof.
  induction map1 as [|[key' value'] map1 IH].
  - intros _. cbn. by rewrite decide_True.
  - rewrite fmap_cons, not_elem_of_cons. cbn. intros [Hkey Hmap].
    rewrite decide_False by done. by apply IH.
Qed.

Lemma jsmap_present key map :
  key ∈ map.*1 →
  ∃ map1 value0 map2, map = map1 ++ (key, value0) :: map2 ∧ key ∉ map1.*1.
Proof.
  induction map as [|[key' value'] map IH]; [by intros ?%elem_of_nil|].
  rewrite fmap_cons. cbn. intros Hin.
  destruct (decide (key' = key)) as [->|Hne].
  - exists [], value', map. split; [done|]. apply not_elem_of_nil.
  - apply elem_of_cons in Hin as [?|Hin]; [congruence|].
    destruct (IH Hin) as (map1 & value0 & map2 & -> & Hfresh).
    exists ((key', value') :: map1), value0, map2. split; [done|].
    rewrite fmap_cons, not_elem_of_cons. by split.
Qed.

Lemma jsmap_get_elem_of key value map :
  NoDup map.*1 → (key, value) ∈ map → JSMap.get key map = Some value.
Proof.
  intros Hnodup Hin. apply list_elem_of_split in Hin as (map1 & map2 & ->).
  apply jsmap_get_app. rewrite fmap_app, fmap_cons in Hnodup.
  apply NoDup_app in Hnodup as (_ & Hdisjoint & _).
  intros Hkey. apply (Hdisjoint _ Hkey). left.
Qed.
End jsmap.

Section organizations.
Context {M : Type}.
Variable id : M → string.
Variable sort : list M → list M.

(** The groups after the first loop has read [models]. *)
Lemma groupModel_partition models :
  let grouped := foldl (groupModel id) [] models in
  NoDup grouped.*1 ∧
  Forall (λ '(org, orgModels),
            orgModels ≠ [] ∧
            Forall (λ model, extractOrganization (id model) = org) orgModels)
         grouped ∧
  Permutation (concat grouped.*2) models.
Proof.
  cbv zeta. induction models as [|model models IH] using rev_ind.
  { cbn. repeat split; constructor. }
  rewrite foldl_snoc. destruct IH as (Hkeys & Hgroups & Hall).
  set (grouped := foldl (groupModel id) [] models) in *.
  unfold groupModel. set (org := extractOrganization (id model)).
  unfold JSMap.has. case_bool_decide as Hhas.
  - destruct (jsmap_present org grouped Hhas)
      as (map1 & orgModels & map2 & Hsplit & Hfresh).
    rewrite Hsplit in *. rewrite jsmap_get_app, jsmap_set_app by done.
    cbn [default]. rewrite !fmap_app, !fmap_cons in *. cbn [fst snd] in *.
    split; [done|]. split.
    + apply Forall_app in Hgroups as [Hleft Hright].
      inversion_clear Hright as [|? ? Hhead Hrest]. destruct Hhead as [Hne Horg].
      apply Forall_app. split; [done|]. constructor; [|done]. split.
      * by destruct orgModels.
      * apply Forall_app. split; [done|]. by repeat constructor.
    + rewrite concat_app, concat_cons in *.
      rewrite <- Hall. rewrite <- !app_assoc.
      apply Permutation_app_head, Permutation_app_head, Permutation_app_comm.
  - rewrite (jsmap_set_absent org [] grouped) by done.
    rewrite jsmap_get_app, jsmap_set_app by done. cbn [default app].
    rewrite !fmap_app. cbn [fmap list_fmap fst snd].
    split; [|split].
    + apply NoDup_app. split; [done|]. split; [|apply NoDup_singleton].
      by intros key Hkey ->%list_elem_of_singleton.
    + apply Forall_app. split; [done|]. by repeat constructor.
    + rewrite concat_app. cbn. by apply Permutation_app_tail.
Qed.

(** The second loop sorts every group where it stands. *)
Lemma sort_groups sorted grouped :
  NoDup (sorted ++ grouped).*1 →
  foldl (λ grouped '(org, orgModels), JSMap.set org (sort orgModels) grouped)
        (sorted ++ grouped) grouped
  = sorted ++ (prod_map (λ org : string, org) sort <$> grouped).
Proof.
  revert sorted. induction grouped as [|[org orgModels] grouped IH];
    intros sorted Hkeys; [done|].
  cbn [foldl]. rewrite jsmap_set_app.
  - rewrite (cons_middle _ sorted), app_assoc. rewrite IH.
    + by rewrite <- app_assoc.
    + by rewrite <- app_assoc, !fmap_app in *.
  - rewrite fmap_app, fmap_cons in Hkeys.
    apply NoDup_app in Hkeys as (_ & Hdisjoint & _).
    intros Hkey. apply (Hdisjoint _ Hkey). left.
Qed.

Lemma getModelsByOrganization_sorted models :
  getModelsByOrganization id sort models
  = prod_map (λ org : string, org) sort <$> foldl (groupModel id) [] models.
Proof.
  unfold getModelsByOrganization.
  destruct (groupModel_partition models) as (Hkeys & _).
  exact (sort_groups [] _ Hkeys).
Qed.
End organizations.

(** [X23].  [getModelsByOrganization] partitions the models: the keys
    of the map are all different and none is empty, every group is
    the value [get] returns for its key, is not empty and holds only
    models whose id gives that organization, and the groups together
    hold every model exactly as often as the list does.  (The
    comparator of the source needs the prices and the locale; the
    property holds for every [sort] that permutes its argument.) *)
Theorem X23_organizations_partition_the_models
    {M : Type} (id : M → string) (sort : list M → list M) (models : list M) :
  (∀ models, Permutation (sort models) models) →
  let grouped := getModelsByOrganization id sort models in
  NoDup grouped.*1 ∧
  (∀ org orgModels, (org, orgModels) ∈ grouped →
     org ≠ "" ∧ orgModels ≠ [] ∧
     JSMap.get org grouped = Some orgModels ∧
     Forall (λ model, extractOrganization (id model) = org) orgModels) ∧
  Permutation (concat grouped.*2) models.
Proof.
  intros Hsort grouped. subst grouped.
  rewrite (getModelsByOrganization_sorted id sort).
  destruct (groupModel_partition id models) as (Hkeys & Hgroups & Hall).
  set (grouped := foldl (groupModel id) [] models) in *.
  assert (Hsame : (prod_map (λ org : string, org) sort <$> grouped).*1 = grouped.*1).
  { rewrite <- list_fmap_compose. by apply list_fmap_ext; intros ? [? ?]. }
  assert (Hnodup : NoDup (prod_map (λ org : string, org) sort <$> grouped).*1).
  { by rewrite Hsame. }
  split; [done|]. split.
  - intros org orgModels Hin. pose proof Hin as Hin'.
    apply list_elem_of_fmap in Hin as ([org' unsorted] & [= -> ->] & Hin).
    rewrite Forall_forall in Hgroups. destruct (Hgroups _ Hin) as [Hne Horg].
    pose proof (Hsort unsorted) as Hperm. repeat split.
    + destruct unsorted as [|model unsorted]; [done|].
      inversion_clear Horg as [|? ? <- _]. apply extractOrganization_nonempty.
    + intros Hnil. rewrite Hnil in Hperm. by apply Permutation_nil_l in Hperm.
    + by apply jsmap_get_elem_of.
    + by rewrite Hperm.
  - rewrite <- Hall. clear -Hsort.
    induction grouped as [|[org orgModels] grouped IH]; [done|].
    cbn. by rewrite Hsort, IH.
Qed.

Lemma X23_organizations_partition_the_models_witness :
  let models :=
    [Model.mk "a/x" None None None; Model.mk "b/y" None None None;
     Model.mk "a/z" None None None; Model.mk "solo" None None None] in
  let grouped := getModelsByOrganization Model.id (λ models, models) models in
  NoDup grouped.*1 ∧
  (∀ org orgModels, (org, orgModels) ∈ grouped →
     org ≠ "" ∧ orgModels ≠ [] ∧
     JSMap.get org grouped = Some orgModels ∧
     Forall (λ model, extractOrganization (Model.id model) = org) orgModels) ∧
  Permutation (concat grouped.*2) models.
Proof.
  exact (X23_organizations_partition_the_models Model.id (λ models, models)
           [Model.mk "a/x" None None None; Model.mk "b/y" None None None;
            Model.mk "a/z" None None None; Model.mk "solo" None None None]
           (λ models, Permutation_refl models)).
Defined.

(** ** [config set-key] *)

(** [X24].  When the request for the model list fails, for whatever
    reason, [config set-key] does not store the key: the manager is
    as [init()] left it, and if [init()] succeeded the command reports
    an invalid key, after the attempts and waits of [makeRequest]. *)
Theorem X24_set_key_reports_an_outage_as_an_invalid_key
    (scryptSync : string → string → nat → AES.key256) (key : string)
    (io io' : IO.t) (fetch : nat → FetchResult ModelsResponse.t)
    (configManager : ConfigManager.t) (error : Error.t) :
  (makeRequest fetch).1 = inl error →
  let initialized := ConfigManager.init scryptSync io configManager in
  let '(result, after, trace) :=
    setKeyAction scryptSync key io io' fetch configManager in
  after = initialized.2 ∧
  result ≠ KeySet ∧
  (initialized.1 = inr () → result = InvalidKey ∧ trace = (makeRequest fetch).2).
Proof.
  intros Hfailed. cbv zeta. unfold setKeyAction, validateApiKey, getModels.
  destruct (ConfigManager.init scryptSync io configManager) as [[e|[]] self];
    [by repeat split|].
  destruct (makeRequest fetch) as [[e|response] trace]; [|done].
  cbn. by repeat split.
Qed.

Lemma X24_set_key_reports_an_outage_as_an_invalid_key_witness :
  let scryptSync : string → string → nat → AES.key256 :=
    λ _ _ _, (zeroBlock, zeroBlock) in
  let fetch := scripted [] (Rejected (Error.mk "offline")) in
  let initialized :=
    ConfigManager.init scryptSync (IO.mk "t0" None)
      (ConfigManager.launch "t" File.Missing) in
  let '(result, after, trace) :=
    setKeyAction scryptSync "sk-1" (IO.mk "t0" None) (IO.mk "t1" None) fetch
      (ConfigManager.launch "t" File.Missing) in
  after = initialized.2 ∧
  result ≠ KeySet ∧
  (initialized.1 = inr () → result = InvalidKey ∧ trace = (makeRequest fetch).2).
Proof.
  exact (X24_set_key_reports_an_outage_as_an_invalid_key
           (λ _ _ _, (zeroBlock, zeroBlock)) "sk-1" (IO.mk "t0" None)
           (IO.mk "t1" None) (scripted [] (Rejected (Error.mk "offline")))
           (ConfigManager.launch "t" File.Missing) (Error.mk "offline") eq_refl).
Defined.

(** ** The interactive session *)

Lemma blank_not_command line : isBlank line = true → startsWith line "/" = false.
Proof.
  destruct line as [|c line]; [done|]. cbn [isBlank].
  intros [Hc _]%andb_prop. unfold startsWith. cbn [String.prefix].
  by destruct (ascii_dec "/" c) as [<-|].
Qed.

Lemma getMultilineInput_more middle rest lines :
  lines ≠ [] → Forall (λ line, line ≠ "") middle →
  getMultilineInput ((inr <$> middle) ++ inr "" :: rest) lines (length lines)
  = Some (inr (join (String newline "") (lines ++ middle)), rest).
Proof.
  intros Hlines Hmiddle. revert lines Hlines.
  induction Hmiddle as [|line middle Hline _ IH]; intros lines Hlines.
  - rewrite app_nil_r. cbn [fmap list_fmap app getMultilineInput].
    destruct lines as [|first lines]; [done|]. cbn [length].
    rewrite (bool_decide_eq_false_2 (S _ = 0%nat)) by done.
    rewrite bool_decide_eq_true_2 by done.
    rewrite (bool_decide_eq_true_2 (0 < S _)%nat) by lia. done.
  - cbn [fmap list_fmap app getMultilineInput].
    destruct lines as [|first lines]; [done|].
    rewrite (bool_decide_eq_false_2 (length (first :: lines) = 0%nat)) by done.
    rewrite (bool_decide_eq_false_2 (line = "")) by done. cbn [andb].
    replace (S (length (first :: lines)))
      with (length ((first :: lines) ++ [line])) by (rewrite length_app; cbn; lia).
    rewrite IH by (by destruct lines). by rewrite <- app_assoc.
Qed.

Lemma join_blank_not_command first middle :
  isBlank first = true →
  startsWith (join (String newline "") (first :: middle)) "/" = false.
Proof.
  intros Hblank. destruct middle as [|line middle].
  - by apply blank_not_command.
  - rewrite join_cons. destruct first as [|c first]; [done|].
    cbn [isBlank] in Hblank. apply andb_prop in Hblank as [Hc _].
    rewrite string_app_cons. unfold startsWith. cbn [String.prefix].
    by destruct (ascii_dec "/" c) as [<-|].
Qed.

(** [X25].  A first line that is blank opens multi-line input: the
    lines typed up to the first empty one are returned joined by line
    feeds, the blank first line included.  Such an input never begins
    with [/], so it is never taken for a command. *)
Theorem X25_multiline_input_keeps_its_blank_first_line
    (first : string) (middle : list string) (rest : list (Error.t + string)) :
  isBlank first = true → Forall (λ line, line ≠ "") middle →
  getMultilineInput (inr first :: (inr <$> middle) ++ inr "" :: rest) [] 0
  = Some (inr (join (String newline "") (first :: middle)), rest) ∧
  startsWith (join (String newline "") (first :: middle)) "/" = false.
Proof.
  intros Hblank Hmiddle. split; [|by apply join_blank_not_command].
  cbn [getMultilineInput]. rewrite blank_not_command, Hblank by done.
  cbn [andb negb length]. rewrite (bool_decide_eq_false_2 (0 < 0)%nat) by lia.
  rewrite !andb_false_r. cbn [app].
  exact (getMultilineInput_more middle rest [first] ltac:(done) Hmiddle).
Qed.

Lemma X25_multiline_input_keeps_its_blank_first_line_witness :
  getMultilineInput [inr ""; inr "/exit"; inr "now"; inr ""; inr "next"] [] 0
  = Some (inr (join (String newline "") [""; "/exit"; "now"]), [inr "next"]) ∧
  startsWith (join (String newline "") [""; "/exit"; "now"]) "/" = false.
Proof.
  exact (X25_multiline_input_keeps_its_blank_first_line "" ["/exit"; "now"]
           [inr "next"] eq_refl
           ltac:(repeat constructor; discriminate)).
Defined.

(** *** The streaming box and the turn *)

Lemma formatStreamingBox_fits columns model width :
  (len model + 6 <= Z.min width (terminalWidth columns))%Z →
  ∃ box, formatStreamingBox columns model width = inr box.
Proof.
  intros Hfits. unfold formatStreamingBox, repeat.
  rewrite !len_app. change (len " ") with 1%Z.
  set (effectiveWidth := Z.min width (terminalWidth columns)) in *.
  set (remaining := (effectiveWidth - 2 - (1 + (len model + 1)) - 2)%Z).
  assert (0 <= remaining)%Z by (unfold remaining; lia).
  assert (0 <= remaining / 2)%Z by (apply Z.div_pos; lia).
  assert (remaining / 2 <= remaining)%Z
    by (apply Z.div_le_upper_bound; lia).
  pose proof (len_nonneg model).
  destruct (Z.ltb_spec (remaining / 2) 0); [lia|].
  destruct (Z.ltb_spec (remaining - remaining / 2) 0); [lia|].
  destruct (Z.ltb_spec (effectiveWidth - 2 - 2) 0); [lia|].
  eauto.
Qed.

Lemma formatStreamingBox_too_long columns model width :
  (Z.min width (terminalWidth columns) < len model + 6)%Z →
  ∃ error, formatStreamingBox columns model width = inl error.
Proof.
  intros Hlong. unfold formatStreamingBox, repeat.
  rewrite !len_app. change (len " ") with 1%Z.
  set (effectiveWidth := Z.min width (terminalWidth columns)) in *.
  set (remaining := (effectiveWidth - 2 - (1 + (len model + 1)) - 2)%Z).
  assert (remaining / 2 < 0)%Z
    by (apply Z.div_lt_upper_bound; unfold remaining; lia).
  destruct (Z.ltb_spec (remaining / 2) 0); [|lia]. eauto.
Qed.

Lemma requestFor_model profile conversation model :
  RequestBody.model (requestFor profile conversation model) = model.
Proof. reflexivity. Qed.

Lemma streamModels_fitting columns profile stream fitting rest :
  Forall (λ model, (len model + 6 <= Z.min 80 (terminalWidth columns))%Z) fitting →
  ∀ index conversation,
    let after :=
      ChatInterface.streamModels columns profile stream (index + length fitting) rest
        (foldl (λ conversation '(model, answer),
                  Chat.streamModelResponse conversation model answer)
               conversation
               (zip fitting (stream <$> seq index (length fitting)))) in
    ∃ requests,
      ChatInterface.streamModels columns profile stream index (fitting ++ rest)
        conversation
      = (after.1.1, after.1.2, requests ++ after.2) ∧
      RequestBody.model <$> requests = fitting.
Proof.
  induction 1 as [|model fitting Hfits _ IH]; intros index conversation.
  { cbn. rewrite Nat.add_0_r. exists [].
    by destruct (ChatInterface.streamModels _ _ _ _ _ _) as [[? ?] ?]. }
  cbn [app ChatInterface.streamModels length seq fmap list_fmap zip zip_with foldl].
  destruct (formatStreamingBox_fits columns model 80 Hfits) as [box ->].
  destruct (IH (S index)
              (Chat.streamModelResponse conversation model (stream index)))
    as (requests & -> & Hmodels).
  replace (S index + length fitting) with (index + S (length fitting)) by lia.
  exists (requestFor profile conversation model :: requests).
  split; [done|]. by rewrite fmap_cons, Hmodels.
Qed.

(** [X26].  [formatStreamingBox] is called outside the [try] block of
    [streamModelResponse].  As long as the names of the active models
    fit the box — six characters less than the smaller of 80 and the
    width of the terminal — a turn does what the sequential engine of
    the claims does, with one request per model.  The first name that
    does not fit ends the turn with a [RangeError]: the user message
    and the replies of the models before it are in the conversation,
    and no model after it is asked. *)
Theorem X26_a_model_name_too_long_for_the_box_ends_the_turn
    (columns : option Z) (content : string) (stream : nat → Stream.t)
    (self : ChatInterface.t) (fitting : list string) :
  Forall (λ model, (len model + 6 <= Z.min 80 (terminalWidth columns))%Z) fitting →
  let answers := zip fitting (stream <$> seq 0 (length fitting)) in
  let conversation := Chat.sendMessage (ChatInterface.conversation self) content answers in
  let after :=
    ChatInterface.mk conversation (ChatInterface.activeModels self)
      (ChatInterface.currentProfile self) (ChatInterface.currentProfileName self) in
  (ChatInterface.activeModels self = fitting →
   ∃ requests,
     ChatInterface.sendMessage content columns stream self
     = (inr (), after, requests) ∧
     RequestBody.model <$> requests = fitting) ∧
  (∀ long later,
     ChatInterface.activeModels self = fitting ++ long :: later →
     (Z.min 80 (terminalWidth columns) < len long + 6)%Z →
     ∃ error requests,
       ChatInterface.sendMessage content columns stream self
       = (inl error, after, requests) ∧
       RequestBody.model <$> requests = fitting).
Proof.
  intros Hfits. cbv zeta. unfold ChatInterface.sendMessage, Chat.sendMessage. split.
  - intros Hmodels. rewrite Hmodels.
    destruct (streamModels_fitting columns (ChatInterface.currentProfile self)
                stream fitting [] Hfits 0
                (ChatInterface.conversation self ++ [userMessage content]))
      as (requests & Hrun & Hrequests).
    rewrite app_nil_r in Hrun. rewrite Hrun. cbn. rewrite app_nil_r. eauto.
  - intros long later Hmodels Hlong. rewrite Hmodels.
    destruct (streamModels_fitting columns (ChatInterface.currentProfile self)
                stream fitting (long :: later) Hfits 0
                (ChatInterface.conversation self ++ [userMessage content]))
      as (requests & Hrun & Hrequests).
    rewrite Hrun. cbn [ChatInterface.streamModels].
    destruct (formatStreamingBox_too_long columns long 80 Hlong) as [error ->].
    cbn. rewrite app_nil_r. eauto.
Qed.

Lemma X26_a_model_name_too_long_for_the_box_ends_the_turn_witness :
  let columns := Some 20%Z in
  let stream : nat → Stream.t := λ _, Stream.mk ["Hi"] Returned in
  let self :=
    ChatInterface.mk [] ["a/x"; "organization/model"; "b/y"]
      (Profile.mk [] (1 # 2) 100) "default" in
  let answers := zip ["a/x"] (stream <$> seq 0 (length ["a/x"])) in
  let conversation := Chat.sendMessage [] "hello" answers in
  let after :=
    ChatInterface.mk conversation ["a/x"; "organization/model"; "b/y"]
      (Profile.mk [] (1 # 2) 100) "default" in
  (ChatInterface.activeModels self = ["a/x"] →
   ∃ requests,
     ChatInterface.sendMessage "hello" columns stream self
     = (inr (), after, requests) ∧
     RequestBody.model <$> requests = ["a/x"]) ∧
  (∀ long later,
     ChatInterface.activeModels self = ["a/x"] ++ long :: later →
     (Z.min 80 (terminalWidth columns) < len long + 6)%Z →
     ∃ error requests,
       ChatInterface.sendMessage "hello" columns stream self
       = (inl error, after, requests) ∧
       RequestBody.model <$> requests = ["a/x"]).
Proof.
  exact (X26_a_model_name_too_long_for_the_box_ends_the_turn (Some 20%Z) "hello"
           (λ _, Stream.mk ["Hi"] Returned)
           (ChatInterface.mk [] ["a/x"; "organization/model"; "b/y"]
              (Profile.mk [] (1 # 2) 100) "default")
           ["a/x"] ltac:(repeat constructor; by vm_compute)).
Defined.

(** [X27].  [/switch <id>] makes the rest of the line, spaces
    included, the only active model and keeps the conversation; the
    next message is then sent to that model alone, as the single
    request of the turn, with the per-model view of the conversation. *)
Theorem X27_switch_takes_the_rest_of_the_line
    (id : string) (selectModel : option string) (selectProfile : Error.t + string)
    (configManager : ConfigManager.t) (self : ChatInterface.t) :
  truthy id = true →
  let switched :=
    ChatInterface.mk (ChatInterface.conversation self) [id]
      (ChatInterface.currentProfile self) (ChatInterface.currentProfileName self) in
  ChatInterface.handleCommand ("/switch " +:+ id) selectModel selectProfile
    configManager self
  = inr (ChatInterface.Continue, switched) ∧
  (∀ columns content stream,
     (len id + 6 <= Z.min 80 (terminalWidth columns))%Z →
     (ChatInterface.sendMessage content columns stream switched).2
     = [requestFor (ChatInterface.currentProfile self)
          (ChatInterface.conversation self ++ [userMessage content]) id]).
Proof.
  intros Hid. cbv zeta. split.
  - unfold ChatInterface.handleCommand.
    change ("/switch " +:+ id) with ("/switch" +:+ String " " id).
    rewrite split_app_sep. change (split " " "/switch") with ["/switch"].
    cbn [app]. rewrite decide_False by done. rewrite decide_False by done.
    rewrite decide_True by done.
    change " " with (String " " ""). rewrite join_split.
    unfold ChatInterface.switchModel. by rewrite Hid.
  - intros columns content stream Hfits.
    unfold ChatInterface.sendMessage. cbn [ChatInterface.activeModels
      ChatInterface.conversation ChatInterface.currentProfile
      ChatInterface.streamModels].
    by destruct (formatStreamingBox_fits columns id 80 Hfits) as [box ->].
Qed.

Lemma X27_switch_takes_the_rest_of_the_line_witness :
  let self := ChatInterface.mk [userMessage "hi"] ["a/x"] DEFAULT_PROFILE "default" in
  let switched :=
    ChatInterface.mk [userMessage "hi"] ["my model"] DEFAULT_PROFILE "default" in
  ChatInterface.handleCommand "/switch my model" None (inr "default")
    (ConfigManager.launch "t" File.Missing) self
  = inr (ChatInterface.Continue, switched) ∧
  (∀ columns content stream,
     (len "my model" + 6 <= Z.min 80 (terminalWidth columns))%Z →
     (ChatInterface.sendMessage content columns stream switched).2
     = [requestFor DEFAULT_PROFILE ([userMessage "hi"] ++ [userMessage content])
          "my model"]).
Proof.
  exact (X27_switch_takes_the_rest_of_the_line "my model" None (inr "default")
           (ConfigManager.launch "t" File.Missing)
           (ChatInterface.mk [userMessage "hi"] ["a/x"] DEFAULT_PROFILE "default")
           eq_refl).
Defined.

(** ** One-time questions *)




(** ** The options of the two sessions *)



(** ** Imported conversations *)


Section traversal.
Variable messageMap : list (string * ChatGPTNode.t).
Hypothesis keys_distinct : NoDup messageMap.*1.

Implicit Types (visited : gset string) (messages : list ChatMessage.t).







End traversal.



